(** * lv_libjpeg_turbo.c: the JPEG decoder glue of LVGL

    A shallow embedding of [src/libs/libjpeg_turbo/lv_libjpeg_turbo.c]:
    the signature check, the header probe, the decode routine with its
    [setjmp]/[longjmp] recovery point, and the cache protocol followed by
    [decoder_open].

    Conventions.
    - A pointer is a block address ([Z], [NULL] is 0); an offset inside a
      block is kept next to it where the C code does pointer arithmetic.
    - [uint32_t] and [unsigned int] arithmetic is written with [wrap32].
    - The host is little-endian (LVGL's default, [LV_BIG_ENDIAN_SYSTEM 0]):
      reading four file bytes into a [uint32_t] puts the first byte in the
      low-order position.
    - Every call that acquires or releases a resource, touches the file
      system or drives the decode engine is recorded in the [log] of the
      world, newest event first.
    - [LV_LOG_WARN] has no effect on the state and is left out, and with it
      the local [is_jpeg_ext] of [decoder_info], which only selects whether
      a warning is printed. *)

From Stdlib Require Import ZArith List Lia.
From Stdlib.Strings Require Import Byte.
From stdpp Require Import base gmap list strings.

Open Scope Z_scope.

(** ** Machine integers and pointers *)

Definition ptr := Z.
Definition NULL : ptr := 0.

Definition wrap32 (z : Z) : Z := z mod 2 ^ 32.

Definition byte_val (b : byte) : Z := Z.of_N (Byte.to_N b).

(** The value of a [uint32_t] whose storage holds the given bytes, lowest
    address first, on the little-endian host. *)
Fixpoint le_value (bs : list byte) : Z :=
  match bs with
  | [] => 0
  | b :: rest => byte_val b + 256 * le_value rest
  end.

(** [lv_fs_read(&f, &jpg_signature, sizeof(jpg_signature), &rn)] on a
    variable initialised to 0: the bytes read overwrite the first [rn] bytes
    of its storage, the others stay 0. *)
Definition load_u32 (bs : list byte) : Z := le_value (take 4 bs).

(** ** DEFINES *)

Definition JPEG_PIXEL_SIZE : Z := 3.
Definition JPEG_SIGNATURE : Z := 0xFFD8FF.
Definition IS_JPEG_SIGNATURE (x : Z) : bool :=
  Z.land x 0x00FFFFFF =? JPEG_SIGNATURE.

(** The signature test as the specification words it: the four bytes read
    as a big-endian 32-bit value, its low 24 bits compared with the marker. *)
Definition be_value4 (b0 b1 b2 b3 : byte) : Z :=
  byte_val b0 * 2 ^ 24 + byte_val b1 * 2 ^ 16 + byte_val b2 * 2 ^ 8 + byte_val b3.
Definition spec_isCandidate_big_endian (b0 b1 b2 b3 : byte) : bool :=
  be_value4 b0 b1 b2 b3 mod 2 ^ 24 =? JPEG_SIGNATURE.

(** ** Enumerations of the LVGL headers used by the file *)

Inductive lv_result_t := LV_RESULT_INVALID | LV_RESULT_OK.
Inductive lv_image_src_t :=
  LV_IMAGE_SRC_VARIABLE | LV_IMAGE_SRC_FILE | LV_IMAGE_SRC_SYMBOL | LV_IMAGE_SRC_UNKNOWN.
Inductive lv_cache_src_type_t := LV_CACHE_SRC_TYPE_PATH | LV_CACHE_SRC_TYPE_POINTER.
Inductive lv_fs_res_t := LV_FS_RES_OK | LV_FS_RES_HW_ERR | LV_FS_RES_NOT_EX | LV_FS_RES_INV_PARAM.
Inductive lv_fs_whence_t := LV_FS_SEEK_SET | LV_FS_SEEK_CUR | LV_FS_SEEK_END.
Inductive lv_color_format_t := LV_COLOR_FORMAT_UNKNOWN | LV_COLOR_FORMAT_RGB888.
Inductive J_COLOR_SPACE := JCS_UNKNOWN | JCS_RGB | JCS_EXT_BGR.

(** The value of a function pointer stored in [invalidate_cb]. *)
Inductive invalidate_cb_t := no_invalidate_cb | cb_cache_invalidate_cb.

#[global] Instance lv_result_eq_dec : EqDecision lv_result_t.
Proof. solve_decision. Defined.
#[global] Instance lv_image_src_eq_dec : EqDecision lv_image_src_t.
Proof. solve_decision. Defined.
#[global] Instance lv_cache_src_type_eq_dec : EqDecision lv_cache_src_type_t.
Proof. solve_decision. Defined.
#[global] Instance lv_fs_res_eq_dec : EqDecision lv_fs_res_t.
Proof. solve_decision. Defined.

(** ** Memory, cache entries, events and the world *)

(** What a heap block holds. Pixel values are not modelled (the decode
    engine is opaque): a draw buffer records how many bytes the scanline
    copies have stored in it. *)
Inductive contents :=
| Uninit
| Bytes (l : list byte)
| Text (s : string)
| Pixels (filled : Z).

Record block := Block { b_size : Z; b_data : contents }.

Record lv_cache_entry_t := Entry {
  e_data : ptr;
  e_data_size : Z;
  e_data_type : Z;
  e_memory_usage : Z;
  e_weight : Z;
  e_invalidate_cb : invalidate_cb_t;
  e_src : ptr;
  e_src_type : lv_cache_src_type_t;
  e_usage_count : Z
}.

Inductive event :=
| EvFsOpen | EvFsSeek | EvFsTell | EvFsRead | EvFsClose
| EvMalloc (p : ptr) (n : Z)
| EvFree (p : ptr)
| EvDrawBufMalloc (p : ptr) (n : Z)
| EvDrawBufFree (p : ptr)
| EvJpegCreate | EvJpegMemSrc | EvJpegReadHeader | EvJpegStartDecompress
| EvJpegAllocSarray | EvJpegReadScanlines | EvJpegFinishDecompress
| EvJpegDestroy
| EvErrorExit
| EvCacheLock | EvCacheUnlock.

#[global] Instance event_eq_dec : EqDecision event.
Proof. solve_decision. Defined.

(** Projections of a log: how often an event of some kind occurs, and the
    arguments of the events of some kind, newest first. *)
Fixpoint count (f : event -> bool) (l : list event) : nat :=
  match l with
  | [] => O
  | e :: rest => if f e then Datatypes.S (count f rest) else count f rest
  end.

Fixpoint pick {A : Type} (f : event -> option A) (l : list event) : list A :=
  match l with
  | [] => []
  | e :: rest => match f e with Some a => a :: pick f rest | None => pick f rest end
  end.

Definition is_create (e : event) : bool :=
  match e with EvJpegCreate => true | _ => false end.
Definition is_destroy (e : event) : bool :=
  match e with EvJpegDestroy => true | _ => false end.
Definition is_error_exit (e : event) : bool :=
  match e with EvErrorExit => true | _ => false end.
Definition is_file_io (e : event) : bool :=
  match e with
  | EvFsOpen | EvFsSeek | EvFsTell | EvFsRead | EvFsClose => true
  | _ => false
  end.
Definition is_engine (e : event) : bool :=
  match e with
  | EvJpegCreate | EvJpegMemSrc | EvJpegReadHeader | EvJpegStartDecompress
  | EvJpegAllocSarray | EvJpegReadScanlines | EvJpegFinishDecompress
  | EvJpegDestroy | EvErrorExit => true
  | _ => false
  end.

Definition malloc_of (e : event) : option (ptr * Z) :=
  match e with EvMalloc p n => Some (p, n) | _ => None end.
Definition free_of (e : event) : option ptr :=
  match e with EvFree p => Some p | _ => None end.
Definition draw_buf_malloc_of (e : event) : option (ptr * Z) :=
  match e with EvDrawBufMalloc p n => Some (p, n) | _ => None end.
Definition draw_buf_free_of (e : event) : option ptr :=
  match e with EvDrawBufFree p => Some p | _ => None end.

(** The calls of [lv_malloc] with their results, of [lv_free], of
    [lv_draw_buf_malloc] and of [lv_draw_buf_free] recorded in a log. *)
Definition mallocs : list event -> list (ptr * Z) := pick malloc_of.
Definition frees : list event -> list ptr := pick free_of.
Definition draw_buf_mallocs : list event -> list (ptr * Z) := pick draw_buf_malloc_of.
Definition draw_buf_frees : list event -> list ptr := pick draw_buf_free_of.

(** [oom] scripts the allocator: each allocation request consumes one
    entry, [true] meaning that this request fails; requests beyond the
    script succeed. [clock] scripts the successive readings of the tick
    counter. [cache] lists the entries of the shared cache by address,
    most recently added first. *)
Record world := World {
  heap : gmap Z block;
  brk : ptr;
  oom : list bool;
  clock : list Z;
  cache : list (ptr * lv_cache_entry_t);
  log : list event
}.

Definition set_heap (f : gmap Z block -> gmap Z block) (w : world) : world :=
  World (f (heap w)) (brk w) (oom w) (clock w) (cache w) (log w).
Definition set_cache (f : list (ptr * lv_cache_entry_t) -> list (ptr * lv_cache_entry_t))
    (w : world) : world :=
  World (heap w) (brk w) (oom w) (clock w) (f (cache w)) (log w).
Definition emit (e : event) (w : world) : world :=
  World (heap w) (brk w) (oom w) (clock w) (cache w) (e :: log w).

(** One allocation request of [n] bytes with initial contents [c]: a fresh
    block address, or [NULL] when the script says so. *)
Definition request (n : Z) (c : contents) (w : world) : ptr * world :=
  match oom w with
  | true :: rest =>
      (NULL, World (heap w) (brk w) rest (clock w) (cache w) (log w))
  | _ =>
      (brk w, World (<[brk w := Block n c]> (heap w)) (brk w + 1) (tail (oom w))
                    (clock w) (cache w) (log w))
  end.

Definition lv_malloc (n : Z) (w : world) : ptr * world :=
  let '(p, w) := request n Uninit w in (p, emit (EvMalloc p n) w).

Definition lv_free (p : ptr) (w : world) : world :=
  emit (EvFree p) (set_heap (delete p) w).

(** The draw-buffer allocator takes its blocks from the same heap. *)
Definition lv_draw_buf_malloc (n : Z) (cf : lv_color_format_t) (w : world) : ptr * world :=
  let '(p, w) := request n (Pixels 0) w in (p, emit (EvDrawBufMalloc p n) w).
Definition lv_draw_buf_free (p : ptr) (w : world) : world :=
  emit (EvDrawBufFree p) (set_heap (delete p) w).

(** The string stored at an address, if that block holds one. *)
Definition cstr (w : world) (p : ptr) : option string :=
  match heap w !! p with
  | Some (Block _ (Text s)) => Some s
  | _ => None
  end.

(** Modelled from the spec: [lv_strdup] is not in this file. The cache
    keeps "an owned string" that is a copy of the path (section 4.4), so
    the copy is a fresh block holding the same text; the copy of something
    that is not a string holds the empty text. *)
Definition lv_strdup (src : ptr) (w : world) : ptr * world :=
  let s := default EmptyString (cstr w src) in
  let n := Z.of_nat (String.length s) + 1 in
  let p := brk w in
  (p, emit (EvMalloc p n)
        (World (<[p := Block n (Text s)]> (heap w)) (p + 1) (oom w) (clock w)
               (cache w) (log w))).

(** [lv_memcpy(cur_pos, buffer[0], stride)] with [cur_pos] at offset [off]
    of block [dst]. *)
Definition lv_memcpy (dst : ptr) (off len : Z) (w : world) : world :=
  set_heap (fun h =>
    match h !! dst with
    | Some (Block n (Pixels _)) => <[dst := Block n (Pixels (off + len))]> h
    | _ => h
    end) w.

(** Modelled from the spec: the tick counter is an external clock;
    [lv_tick_elaps] is the 32-bit difference of a new reading and [prev]. *)
Definition lv_tick_get (w : world) : Z * world :=
  (wrap32 (hd 0 (clock w)),
   World (heap w) (brk w) (oom w) (tail (clock w)) (cache w) (log w)).
Definition lv_tick_elaps (prev : Z) (w : world) : Z * world :=
  let '(now, w) := lv_tick_get w in (wrap32 (now - prev), w).

(** ** The cache manager

    Modelled from the spec: [lv_cache_lock], [lv_cache_unlock],
    [lv_cache_add], [lv_cache_find_by_src], [lv_cache_get_data] and
    [lv_cache_release] are not in this file. Section 4.4: [insert] creates
    the entry record and publishes it, and "fails only if the underlying
    allocation of the entry record fails"; the creator of an entry is its
    first holder. [findBySource] compares a path by string equality and a
    pointer by address and, on a hit, increments the reference count.
    [release] decrements it. The search always starts at the head of the
    index (the only use in this file passes [NULL] as the start entry). *)

Definition lv_cache_lock (w : world) : world := emit EvCacheLock w.
Definition lv_cache_unlock (w : world) : world := emit EvCacheUnlock w.

Definition lv_cache_add (data : ptr) (data_size data_type memory_usage : Z)
    (w : world) : ptr * world :=
  match oom w with
  | true :: rest =>
      (NULL, World (heap w) (brk w) rest (clock w) (cache w) (log w))
  | _ =>
      let entry :=
        Entry data data_size data_type memory_usage 0 no_invalidate_cb NULL
              LV_CACHE_SRC_TYPE_PATH 1 in
      (brk w, World (heap w) (brk w + 1) (tail (oom w)) (clock w)
                    ((brk w, entry) :: cache w) (log w))
  end.

Definition entry_matches (w : world) (src : ptr) (ty : lv_cache_src_type_t)
    (e : lv_cache_entry_t) : bool :=
  match ty, e_src_type e with
  | LV_CACHE_SRC_TYPE_PATH, LV_CACHE_SRC_TYPE_PATH =>
      match cstr w src, cstr w (e_src e) with
      | Some a, Some b => bool_decide (a = b)
      | _, _ => false
      end
  | LV_CACHE_SRC_TYPE_POINTER, LV_CACHE_SRC_TYPE_POINTER => e_src e =? src
  | _, _ => false
  end.

Fixpoint find_entry (w : world) (src : ptr) (ty : lv_cache_src_type_t)
    (l : list (ptr * lv_cache_entry_t)) : ptr :=
  match l with
  | [] => NULL
  | (a, e) :: rest => if entry_matches w src ty e then a else find_entry w src ty rest
  end.

(** The entry stored at an address, and the assignment to fields of the
    entry at an address ([cache->weight = t] and the like). *)
Fixpoint entry_at (l : list (ptr * lv_cache_entry_t)) (a : ptr) : option lv_cache_entry_t :=
  match l with
  | [] => None
  | (b, e) :: rest => if b =? a then Some e else entry_at rest a
  end.

Definition update_entry (a : ptr) (f : lv_cache_entry_t -> lv_cache_entry_t)
    (l : list (ptr * lv_cache_entry_t)) : list (ptr * lv_cache_entry_t) :=
  map (fun be => if fst be =? a then (fst be, f (snd be)) else be) l.

Definition add_usage (d : Z) (e : lv_cache_entry_t) : lv_cache_entry_t :=
  Entry (e_data e) (e_data_size e) (e_data_type e) (e_memory_usage e) (e_weight e)
        (e_invalidate_cb e) (e_src e) (e_src_type e) (e_usage_count e + d).

Definition lv_cache_find_by_src (src : ptr) (ty : lv_cache_src_type_t)
    (w : world) : ptr * world :=
  let a := find_entry w src ty (cache w) in
  if a =? NULL then (NULL, w) else (a, set_cache (update_entry a (add_usage 1)) w).

Definition lv_cache_get_data (a : ptr) (w : world) : ptr :=
  match entry_at (cache w) a with
  | Some e => e_data e
  | None => NULL
  end.

Definition lv_cache_release (a : ptr) (w : world) : world :=
  set_cache (update_entry a (add_usage (-1))) w.

(** ** The file system

    Modelled from the spec: the virtual file system is an external
    collaborator (section 6): open, read, seek, tell and close. A file is
    its bytes together with the result codes its driver gives to seek, tell
    and read requests; a failed read transfers nothing. *)

Record vfile := VFile {
  f_bytes : list byte;
  f_seek : lv_fs_whence_t -> lv_fs_res_t;
  f_tell : lv_fs_res_t;
  f_read : lv_fs_res_t
}.

Record lv_fs_file_t := File { fd_file : vfile; fd_pos : Z }.

Definition no_file : lv_fs_file_t :=
  File (VFile [] (fun _ => LV_FS_RES_INV_PARAM) LV_FS_RES_INV_PARAM LV_FS_RES_INV_PARAM) 0.

Definition is_ok (r : lv_fs_res_t) : bool :=
  match r with LV_FS_RES_OK => true | _ => false end.

(** Modelled from the spec: a source is a [FilePath] when it is a string
    naming a file (section 3); [lv_image_src_get_type] is not in this
    file. *)
Definition lv_image_src_get_type (w : world) (src : ptr) : lv_image_src_t :=
  if src =? NULL then LV_IMAGE_SRC_UNKNOWN
  else match cstr w src with
       | Some _ => LV_IMAGE_SRC_FILE
       | None => LV_IMAGE_SRC_VARIABLE
       end.

(** ** The decode engine

    libjpeg is an external collaborator: what it does with a given byte
    buffer is a parameter of the development. Each entry point either
    returns or calls the [error_exit] routine of the error manager. *)

Inductive step_res (A : Type) := Done (a : A) | ErrorExit.
Arguments Done {A} a.
Arguments ErrorExit {A}.

Record jpeg_image := JpegImage {
  on_mem_src : step_res unit;
  (** return value, [image_width], [image_height] *)
  on_read_header : step_res (Z * Z * Z);
  (** [output_width], [output_height], [output_components] *)
  on_start_decompress : step_res (Z * Z * Z);
  on_alloc_sarray : step_res unit;
  (** reading the scanline with the given index *)
  on_read_scanlines : Z -> step_res unit;
  on_finish_decompress : step_res unit
}.

Definition JPEG_HEADER_OK : Z := 1.

(** [JDIMENSION] is [unsigned int]: the dimension fields hold 32-bit values. *)
Record jpeg_decompress_struct := Cinfo {
  ci_src : list byte;
  image_width : Z;
  image_height : Z;
  out_color_space : J_COLOR_SPACE;
  output_width : Z;
  output_height : Z;
  output_components : Z;
  output_scanline : Z
}.

Record lv_image_header_t := Header { h_cf : lv_color_format_t; h_w : Z; h_h : Z }.

Record lv_image_decoder_t := Decoder { cache_data_type : Z }.

Record lv_image_decoder_dsc_t := Dsc {
  dsc_src : ptr;
  dsc_src_type : lv_image_src_t;
  img_data : ptr;
  cache_entry : ptr
}.

(** ** Non-local jumps

    A computation in [J S A] runs on a state [S] and either returns a value
    or has taken [longjmp] to the enclosing [setjmp]; in both cases the
    state is the one reached. [setjmp body recover] is
    [if(setjmp(jb)) { recover } body]; the recovery code is given the state
    in which [setjmp] was called and the state in which [longjmp] was
    taken. *)

Inductive jres (A : Type) := Ret (a : A) | Longjmp.
Arguments Ret {A} a.
Arguments Longjmp {A}.

Definition J (S A : Type) : Type := S -> jres A * S.

Definition jret {S A} (a : A) : J S A := fun s => (Ret a, s).
Definition jbind {S A B} (m : J S A) (k : A -> J S B) : J S B :=
  fun s => match m s with
           | (Ret a, s') => k a s'
           | (Longjmp, s') => (Longjmp, s')
           end.

Notation "x <- m ;; k" := (jbind m (fun x => k))
  (at level 100, m at next level, right associativity).
Notation "m ;;; k" := (jbind m (fun _ => k))
  (at level 100, right associativity).

Definition setjmp {S A} (body : J S A) (recover : S -> S -> A * S) : S -> A * S :=
  fun s => match body s with
           | (Ret a, s') => (a, s')
           | (Longjmp, s') => recover s s'
           end.

(** What the recovery code reads in a local variable that is not
    volatile-qualified and was assigned between the call of [setjmp] and the
    [longjmp]: C leaves that value indeterminate. A build that keeps the
    local in memory reads the value last assigned; a build that keeps it in
    a register saved by [setjmp] reads the value the local had when [setjmp]
    was called. Objects reached through a pointer ([*size], the engine
    object, the heap) are not affected. *)
Inductive local_after_longjmp := LastAssigned | AsAtSetjmp.

Definition local_seen {A} (build : local_after_longjmp) (at_setjmp last : A) : A :=
  match build with
  | LastAssigned => last
  | AsAtSetjmp => at_setjmp
  end.

(** States that contain the world: the world itself, and the frame of
    [decode_jpeg_file]. *)
Class HasWorld (S : Type) := {
  the_world : S -> world;
  with_world : world -> S -> S
}.

#[global] Instance world_has_world : HasWorld world :=
  {| the_world := fun w => w; with_world := fun w _ => w |}.

Definition call {S} `{HasWorld S} {A} (f : world -> A * world) : J S A :=
  fun s => let '(a, w) := f (the_world s) in (Ret a, with_world w s).
Definition exec {S} `{HasWorld S} (f : world -> world) : J S unit :=
  fun s => (Ret tt, with_world (f (the_world s)) s).

(** [error_exit]: print the message, then [longjmp(myerr->jb, 1)]. *)
Definition error_exit {S} `{HasWorld S} {A} : J S A :=
  fun s => (Longjmp, with_world (emit EvErrorExit (the_world s)) s).

Definition engine_step {S} `{HasWorld S} {A} (e : event) (r : step_res A) : J S A :=
  exec (emit e) ;;;
  match r with
  | Done a => jret a
  | ErrorExit => error_exit
  end.

Section Decoder.

(** The files that exist, by name, and the behaviour of the decode engine
    on a byte buffer. *)
Variable fs : string -> option vfile.
Variable jpeg : list byte -> jpeg_image.

(** How the build treats the local [output_buffer] of [decode_jpeg_file]
    across the jump to its recovery code. *)
Variable build : local_after_longjmp.

(** *** File access *)

Definition lv_fs_open (path : ptr) (w : world) : (lv_fs_res_t * lv_fs_file_t) * world :=
  let w := emit EvFsOpen w in
  match cstr w path with
  | None => ((LV_FS_RES_INV_PARAM, no_file), w)
  | Some name =>
      match fs name with
      | Some f => ((LV_FS_RES_OK, File f 0), w)
      | None => ((LV_FS_RES_NOT_EX, no_file), w)
      end
  end.

Definition lv_fs_seek (f : lv_fs_file_t) (pos : Z) (whence : lv_fs_whence_t)
    (w : world) : (lv_fs_res_t * lv_fs_file_t) * world :=
  let w := emit EvFsSeek w in
  let res := f_seek (fd_file f) whence in
  if is_ok res then
    let base := match whence with
                | LV_FS_SEEK_SET => 0
                | LV_FS_SEEK_CUR => fd_pos f
                | LV_FS_SEEK_END => Z.of_nat (length (f_bytes (fd_file f)))
                end in
    ((res, File (fd_file f) (wrap32 (base + pos))), w)
  else ((res, f), w).

Definition lv_fs_tell (f : lv_fs_file_t) (w : world) : (lv_fs_res_t * Z) * world :=
  let w := emit EvFsTell w in
  let res := f_tell (fd_file f) in
  if is_ok res then ((res, fd_pos f), w) else ((res, 0), w).

(** Returns the result code and the bytes transferred; [*br] is their
    number. *)
Definition lv_fs_read (f : lv_fs_file_t) (btr : Z) (w : world)
    : (lv_fs_res_t * list byte * lv_fs_file_t) * world :=
  let w := emit EvFsRead w in
  let res := f_read (fd_file f) in
  if is_ok res then
    let bs := take (Z.to_nat btr) (drop (Z.to_nat (fd_pos f)) (f_bytes (fd_file f))) in
    ((res, bs, File (fd_file f) (fd_pos f + Z.of_nat (length bs))), w)
  else ((res, [], f), w).

Definition lv_fs_close (f : lv_fs_file_t) (w : world) : world := emit EvFsClose w.

(** The bytes a read has stored in a block. *)
Definition store_bytes (p : ptr) (bs : list byte) (w : world) : world :=
  set_heap (fun h =>
    match h !! p with
    | Some (Block n _) => <[p := Block n (Bytes bs)]> h
    | None => h
    end) w.

Definition bytes_at (w : world) (p : ptr) (n : Z) : list byte :=
  match heap w !! p with
  | Some (Block _ (Bytes l)) => take (Z.to_nat n) l
  | _ => []
  end.

(** [alloc_file]: returns [data] and [*size]. *)
Definition alloc_file (filename : ptr) (w : world) : (ptr * Z) * world :=
  let size := 0 in
  let '((res, f), w) := lv_fs_open filename w in
  if negb (is_ok res) then ((NULL, size), w) else
  let failed (data : ptr) (size : Z) (f : lv_fs_file_t) (w : world) :=
    ((data, size), lv_fs_close f w) in
  let '((res, f), w) := lv_fs_seek f 0 LV_FS_SEEK_END w in
  if negb (is_ok res) then failed NULL size f w else
  let '((res, data_size), w) := lv_fs_tell f w in
  if negb (is_ok res) then failed NULL size f w else
  let '((res, f), w) := lv_fs_seek f 0 LV_FS_SEEK_SET w in
  if negb (is_ok res) then failed NULL size f w else
  let '(data, w) := lv_malloc data_size w in
  if data =? NULL then failed NULL size f w else
  let '((res, bs, f), w) := lv_fs_read f data_size w in
  let w := store_bytes data bs w in
  let rn := Z.of_nat (length bs) in
  if is_ok res && (rn =? data_size) then failed data rn f w
  else
    let w := lv_free data w in
    failed NULL size f w.

(** *** Entry points of the decode engine *)

Section Engine.
Context {S : Type} `{HasWorld S}.

Definition jpeg_create_decompress : J S jpeg_decompress_struct :=
  exec (emit EvJpegCreate) ;;;
  jret (Cinfo [] 0 0 JCS_UNKNOWN 0 0 0 0).

Definition jpeg_mem_src (cinfo : jpeg_decompress_struct) (data : ptr) (data_size : Z)
    : J S jpeg_decompress_struct :=
  bs <- (fun s => (Ret (bytes_at (the_world s) data data_size), s)) ;;
  engine_step EvJpegMemSrc (on_mem_src (jpeg bs)) ;;;
  jret (Cinfo bs (image_width cinfo) (image_height cinfo) (out_color_space cinfo)
              (output_width cinfo) (output_height cinfo) (output_components cinfo)
              (output_scanline cinfo)).

(** Returns the return value of [jpeg_read_header] and the updated object. *)
Definition jpeg_read_header (cinfo : jpeg_decompress_struct) (require_image : bool)
    : J S (Z * jpeg_decompress_struct) :=
  r <- engine_step EvJpegReadHeader (on_read_header (jpeg (ci_src cinfo))) ;;
  let '(ret, iw, ih) := r in
  jret (ret, Cinfo (ci_src cinfo) (wrap32 iw) (wrap32 ih) JCS_RGB
                   (output_width cinfo) (output_height cinfo) (output_components cinfo)
                   (output_scanline cinfo)).

Definition jpeg_start_decompress (cinfo : jpeg_decompress_struct)
    : J S jpeg_decompress_struct :=
  r <- engine_step EvJpegStartDecompress (on_start_decompress (jpeg (ci_src cinfo))) ;;
  let '(ow, oh, oc) := r in
  jret (Cinfo (ci_src cinfo) (image_width cinfo) (image_height cinfo)
              (out_color_space cinfo) (wrap32 ow) (wrap32 oh) oc 0).

(** The call through [cinfo.mem->alloc_sarray] for a one-row sample array
    of [row_stride] samples: the row buffer lives in the engine's own pool. *)
Definition alloc_sarray (cinfo : jpeg_decompress_struct) (samplesperrow numrows : Z)
    : J S unit :=
  engine_step EvJpegAllocSarray (on_alloc_sarray (jpeg (ci_src cinfo))).

(** [jpeg_read_scanlines(&cinfo, buffer, 1)]: one more scanline is
    produced, or the engine signals an error. *)
Definition jpeg_read_scanlines (cinfo : jpeg_decompress_struct)
    : J S jpeg_decompress_struct :=
  engine_step EvJpegReadScanlines
    (on_read_scanlines (jpeg (ci_src cinfo)) (output_scanline cinfo)) ;;;
  jret (Cinfo (ci_src cinfo) (image_width cinfo) (image_height cinfo)
              (out_color_space cinfo) (output_width cinfo) (output_height cinfo)
              (output_components cinfo) (output_scanline cinfo + 1)).

Definition jpeg_finish_decompress (cinfo : jpeg_decompress_struct) : J S unit :=
  engine_step EvJpegFinishDecompress (on_finish_decompress (jpeg (ci_src cinfo))).

End Engine.

Definition jpeg_destroy_decompress (w : world) : world := emit EvJpegDestroy w.

Definition set_out_color_space (c : J_COLOR_SPACE) (cinfo : jpeg_decompress_struct)
    : jpeg_decompress_struct :=
  Cinfo (ci_src cinfo) (image_width cinfo) (image_height cinfo) c
        (output_width cinfo) (output_height cinfo) (output_components cinfo)
        (output_scanline cinfo).

(** *** decode_jpeg_file *)

(** The variables of [decode_jpeg_file] that the recovery code or the
    caller reads: the local [output_buffer] and the object [*size]
    ([None] when [size] is a null pointer). *)
Record frame := Frame {
  fr_world : world;
  output_buffer : ptr;
  fr_size : option Z
}.

#[global] Instance frame_has_world : HasWorld frame :=
  {| the_world := fr_world;
     with_world := fun w fr => Frame w (output_buffer fr) (fr_size fr) |}.

Definition set_output_buffer (p : ptr) : J frame unit :=
  fun fr => (Ret tt, Frame (fr_world fr) p (fr_size fr)).
Definition get_output_buffer : J frame ptr :=
  fun fr => (Ret (output_buffer fr), fr).
(** [if(size) *size = v] *)
Definition store_size (v : Z) : J frame unit :=
  fun fr => (Ret tt, Frame (fr_world fr) (output_buffer fr)
                           (match fr_size fr with Some _ => Some v | None => None end)).

Definition int_of_unsigned (z : Z) : Z := if z <? 2 ^ 31 then z else z - 2 ^ 32.

(** [while(cinfo.output_scanline < cinfo.output_height)]: every pass that
    returns advances [output_scanline] by one, so the guard holds for
    exactly [todo = output_height - output_scanline] more passes. *)
Fixpoint read_rows (todo : nat) (cinfo : jpeg_decompress_struct)
    (dst : ptr) (cur_pos stride : Z) : J frame jpeg_decompress_struct :=
  match todo with
  | O => jret cinfo
  | Datatypes.S k =>
      cinfo <- jpeg_read_scanlines cinfo ;;
      exec (lv_memcpy dst cur_pos stride) ;;;
      read_rows k cinfo dst (cur_pos + stride) stride
  end.

(** The code between the [setjmp] test and the final [return]. *)
Definition decode_guarded (data : ptr) (data_size : Z) : J frame ptr :=
  cinfo <- jpeg_create_decompress ;;
  cinfo <- jpeg_mem_src cinfo data data_size ;;
  rc <- jpeg_read_header cinfo true ;;
  let cinfo := set_out_color_space JCS_EXT_BGR (snd rc) in
  cinfo <- jpeg_start_decompress cinfo ;;
  let row_stride :=
    int_of_unsigned (wrap32 (output_width cinfo * output_components cinfo)) in
  alloc_sarray cinfo row_stride 1 ;;;
  let output_buffer_size :=
    wrap32 (output_width cinfo * output_height cinfo * JPEG_PIXEL_SIZE) in
  p <- call (lv_draw_buf_malloc output_buffer_size LV_COLOR_FORMAT_RGB888) ;;
  set_output_buffer p ;;;
  cinfo <- (if negb (p =? NULL) then
              let stride := wrap32 (output_width cinfo * JPEG_PIXEL_SIZE) in
              store_size output_buffer_size ;;;
              read_rows (Z.to_nat (output_height cinfo - output_scanline cinfo))
                        cinfo p 0 stride
            else jret cinfo) ;;
  jpeg_finish_decompress cinfo ;;;
  exec jpeg_destroy_decompress ;;;
  exec (lv_free data) ;;;
  get_output_buffer.

(** The block entered when [setjmp] returns non-zero. [output_buffer] is
    declared without [volatile] and assigned after [setjmp], so what the
    test [if(output_buffer)] reads depends on the build; [data] was
    assigned before [setjmp], and the engine object is reached through its
    address. *)
Definition decode_recover (data : ptr) (fr0 fr : frame) : ptr * frame :=
  let w := fr_world fr in
  let output_buffer := local_seen build (output_buffer fr0) (output_buffer fr) in
  let w := if negb (output_buffer =? NULL)
           then lv_draw_buf_free output_buffer w else w in
  let w := jpeg_destroy_decompress w in
  let w := lv_free data w in
  (NULL, with_world w fr).

(** Returns the pointer returned by the C function and the final [*size]. *)
Definition decode_jpeg_file (filename : ptr) (size : option Z) (w : world)
    : (ptr * option Z) * world :=
  let '((data, data_size), w) := alloc_file filename w in
  if data =? NULL then ((NULL, size), w) else
  let '(r, fr) :=
    setjmp (decode_guarded data data_size) (decode_recover data) (Frame w NULL size) in
  ((r, fr_size fr), fr_world fr).

(** *** get_jpeg_size

    [Some (width, height)] when the C function returns [true] (and has
    stored the two values), [None] when it returns [false]. *)
Definition get_jpeg_size (filename : ptr) (w : world) : option (Z * Z) * world :=
  let '((data, data_size), w) := alloc_file filename w in
  if data =? NULL then (None, w) else
  setjmp
    (cinfo <- jpeg_create_decompress ;;
     cinfo <- jpeg_mem_src cinfo data data_size ;;
     rc <- jpeg_read_header cinfo true ;;
     let '(ret, cinfo) := rc in
     exec jpeg_destroy_decompress ;;;
     exec (lv_free data) ;;;
     jret (if ret =? JPEG_HEADER_OK
           then Some (image_width cinfo, image_height cinfo) else None))
    (fun _ w => (None, lv_free data (jpeg_destroy_decompress w)))
    w.

(** *** decoder_info

    The header fields [w] and [h] receive the values of the locals [width]
    and [height]. *)
Definition decoder_info (decoder : lv_image_decoder_t) (src : ptr)
    (header : lv_image_header_t) (w : world)
    : (lv_result_t * lv_image_header_t) * world :=
  let src_type := lv_image_src_get_type w src in
  match src_type with
  | LV_IMAGE_SRC_FILE =>
      let fn := src in
      let '((res, f), w) := lv_fs_open fn w in
      if negb (is_ok res) then ((LV_RESULT_INVALID, header), w) else
      let '((_, bs, f), w) := lv_fs_read f 4 w in
      let jpg_signature := load_u32 bs in
      let rn := Z.of_nat (length bs) in
      let w := lv_fs_close f w in
      if negb (rn =? 4) then ((LV_RESULT_INVALID, header), w) else
      if negb (IS_JPEG_SIGNATURE jpg_signature) then ((LV_RESULT_INVALID, header), w) else
      match get_jpeg_size fn w with
      | (None, w) => ((LV_RESULT_INVALID, header), w)
      | (Some (width, height), w) =>
          ((LV_RESULT_OK, Header LV_COLOR_FORMAT_RGB888 width height), w)
      end
  | _ => ((LV_RESULT_INVALID, header), w)
  end.

(** *** try_cache *)
Definition try_cache (dsc : lv_image_decoder_dsc_t) (w : world)
    : (lv_result_t * lv_image_decoder_dsc_t) * world :=
  let w := lv_cache_lock w in
  let miss (w : world) := ((LV_RESULT_INVALID, dsc), lv_cache_unlock w) in
  match dsc_src_type dsc with
  | LV_IMAGE_SRC_FILE =>
      let fn := dsc_src dsc in
      let '(cache, w) := lv_cache_find_by_src fn LV_CACHE_SRC_TYPE_PATH w in
      if negb (cache =? NULL) then
        let dsc := Dsc (dsc_src dsc) (dsc_src_type dsc) (lv_cache_get_data cache w) cache in
        ((LV_RESULT_OK, dsc), lv_cache_unlock w)
      else miss w
  | _ => miss w
  end.

(** *** decoder_open *)

Definition set_entry_weight (t : Z) (e : lv_cache_entry_t) : lv_cache_entry_t :=
  Entry (e_data e) (e_data_size e) (e_data_type e) (e_memory_usage e) t
        (e_invalidate_cb e) (e_src e) (e_src_type e) (e_usage_count e).
Definition set_entry_invalidate_cb (cb : invalidate_cb_t) (e : lv_cache_entry_t)
    : lv_cache_entry_t :=
  Entry (e_data e) (e_data_size e) (e_data_type e) (e_memory_usage e) (e_weight e)
        cb (e_src e) (e_src_type e) (e_usage_count e).
Definition set_entry_src (p : ptr) (ty : lv_cache_src_type_t) (e : lv_cache_entry_t)
    : lv_cache_entry_t :=
  Entry (e_data e) (e_data_size e) (e_data_type e) (e_memory_usage e) (e_weight e)
        (e_invalidate_cb e) p ty (e_usage_count e).

Definition decoder_open (decoder : lv_image_decoder_t) (dsc : lv_image_decoder_dsc_t)
    (w : world) : (lv_result_t * lv_image_decoder_dsc_t) * world :=
  (* Check the cache first *)
  let '((hit, dsc'), w) := try_cache dsc w in
  match hit with
  | LV_RESULT_OK => ((LV_RESULT_OK, dsc'), w)
  | LV_RESULT_INVALID =>
      match dsc_src_type dsc with
      | LV_IMAGE_SRC_FILE =>
          let fn := dsc_src dsc in
          let decoded_size := Some 0 in
          let '(t, w) := lv_tick_get w in
          let '((decoded_img, decoded_size), w) := decode_jpeg_file fn decoded_size w in
          let decoded_size := default 0 decoded_size in
          let '(t, w) := lv_tick_elaps t w in
          let w := lv_cache_lock w in
          let '(cache, w) :=
            lv_cache_add decoded_img decoded_size (cache_data_type decoder) decoded_size w in
          if cache =? NULL then ((LV_RESULT_INVALID, dsc), lv_cache_unlock w) else
          let w := set_cache (update_entry cache (set_entry_weight t)) w in
          let w := set_cache (update_entry cache
                                (set_entry_invalidate_cb cb_cache_invalidate_cb)) w in
          let w :=
            match dsc_src_type dsc with
            | LV_IMAGE_SRC_FILE =>
                let '(copy, w) := lv_strdup (dsc_src dsc) w in
                set_cache (update_entry cache (set_entry_src copy LV_CACHE_SRC_TYPE_PATH)) w
            | _ =>
                set_cache (update_entry cache
                             (set_entry_src (dsc_src dsc) LV_CACHE_SRC_TYPE_POINTER)) w
            end in
          let dsc := Dsc (dsc_src dsc) (dsc_src_type dsc) (lv_cache_get_data cache w) cache in
          ((LV_RESULT_OK, dsc), lv_cache_unlock w)
      | _ => ((LV_RESULT_INVALID, dsc), w)
      end
  end.

(** *** decoder_close *)
Definition decoder_close (decoder : lv_image_decoder_t) (dsc : lv_image_decoder_dsc_t)
    (w : world) : world :=
  let w := lv_cache_lock w in
  let w := lv_cache_release (cache_entry dsc) w in
  lv_cache_unlock w.

End Decoder.

(** *** cache_invalidate_cb *)
Definition cache_invalidate_cb (entry : lv_cache_entry_t) (w : world) : world :=
  let w := match e_src_type entry with
           | LV_CACHE_SRC_TYPE_PATH => lv_free (e_src entry) w
           | _ => w
           end in
  lv_free (e_data entry) w.

(** ** Notions used in the statements *)

(** The events the scanline loop can record. *)
Definition scan_event (e : event) : Prop :=
  e = EvJpegReadScanlines \/ e = EvErrorExit.

(** The engine fails on an image at some step of a decode: binding the
    source, parsing the header, starting decompression, allocating the row
    buffer, reading one of the scanlines, or finishing. *)
Definition engine_fails (img : jpeg_image) : Prop :=
  on_mem_src img = ErrorExit \/ on_read_header img = ErrorExit \/
  on_start_decompress img = ErrorExit \/ on_alloc_sarray img = ErrorExit \/
  (exists ow oh oc k, on_start_decompress img = Done (ow, oh, oc) /\
     0 <= k < wrap32 oh /\ on_read_scanlines img k = ErrorExit) \/
  on_finish_decompress img = ErrorExit.

(** The value [decode_jpeg_file] computes for [output_buffer_size] from the
    output dimensions the engine reports. *)
Definition buffer_size_of (ow oh : Z) : Z :=
  wrap32 (wrap32 ow * wrap32 oh * JPEG_PIXEL_SIZE).

(** The object [*size] after [if(size) *size = n]. *)
Definition size_after (size : option Z) (n : Z) : option Z :=
  match size with Some _ => Some n | None => None end.

(** A field assignment that keeps the identity of an entry. *)
Definition keeps_identity (f : lv_cache_entry_t -> lv_cache_entry_t) : Prop :=
  forall e, e_src (f e) = e_src e /\ e_src_type (f e) = e_src_type e.

(** The bytes [alloc_file] loads from a file: as many as [lv_fs_tell]
    reports at the end of the file, a 32-bit count. *)
Definition file_image (f : vfile) : list byte :=
  take (Z.to_nat (wrap32 (Z.of_nat (length (f_bytes f))))) (f_bytes f).

(** The world in which the miss path of [decoder_open] starts decoding. *)
Definition before_decode (w : world) : world :=
  snd (lv_tick_get (lv_cache_unlock (lv_cache_lock w))).

(** The world after [decoder_info] has opened the file, read the signature
    and closed the file. *)
Definition after_signature_read (w : world) : world :=
  emit EvFsClose (emit EvFsRead (emit EvFsOpen w)).

(** ** Sample inputs *)

(** A file whose driver serves every request. *)
Definition ok_file (bs : list byte) : vfile :=
  VFile bs (fun _ => LV_FS_RES_OK) LV_FS_RES_OK LV_FS_RES_OK.

(** A file system with one file, ["A:img.jpg"], of the given contents. *)
Definition sample_fs (bs : list byte) (name : string) : option vfile :=
  if bool_decide (name = "A:img.jpg"%string) then Some (ok_file bs) else None.

(** An engine that decodes every buffer as a [width] by [height] image. *)
Definition engine_decodes (width height : Z) (bs : list byte) : jpeg_image :=
  JpegImage (Done tt) (Done (JPEG_HEADER_OK, width, height)) (Done (width, height, 3))
            (Done tt) (fun _ => Done tt) (Done tt).

(** An engine that rejects every buffer while parsing the header. *)
Definition engine_rejects_header (bs : list byte) : jpeg_image :=
  JpegImage (Done tt) ErrorExit ErrorExit ErrorExit (fun _ => ErrorExit) ErrorExit.

(** An engine that fails while reading the scanline of index [bad]. *)
Definition engine_fails_at_row (width height bad : Z) (bs : list byte) : jpeg_image :=
  JpegImage (Done tt) (Done (JPEG_HEADER_OK, width, height)) (Done (width, height, 3))
            (Done tt) (fun k => if k =? bad then ErrorExit else Done tt) (Done tt).

(** A world whose heap holds the caller's path string at address 1, with
    an empty cache and the given allocator script. *)
Definition sample_world (script : list bool) : world :=
  World {[ 1 := Block 10 (Text "A:img.jpg") ]} 2 script [] [] [].

(** A descriptor for the file named by the string at address 1. *)
Definition sample_dsc : lv_image_decoder_dsc_t := Dsc 1 LV_IMAGE_SRC_FILE NULL NULL.

Definition sample_decoder : lv_image_decoder_t := Decoder 0.

(** The first four bytes of a JFIF file. *)
Definition jfif_prefix : list byte := [xff; xd8; xff; xe0].

(** Two files, one starting with the JPEG marker and one with zero bytes,
    and a world that holds both names. *)
Definition two_files (name : string) : option vfile :=
  if bool_decide (name = "A:img.jpg"%string) then Some (ok_file jfif_prefix)
  else if bool_decide (name = "A:zero.bin"%string) then Some (ok_file [x00; x00; x00; x00])
  else None.

Definition two_names_world : world :=
  World {[ 1 := Block 10 (Text "A:img.jpg"); 2 := Block 11 (Text "A:zero.bin") ]}
        3 [] [] [] [].

Definition blank_header : lv_image_header_t := Header LV_COLOR_FORMAT_UNKNOWN 0 0.

(** A decode of a 2 by 2 image during which the engine fails on the
    second scanline. *)
Definition failed_decode (build : local_after_longjmp) : (ptr * option Z) * world :=
  decode_jpeg_file (sample_fs jfif_prefix) (engine_fails_at_row 2 2 1) build 1 (Some 0)
    (sample_world []).

(** The events of that decode, newest first, when the recovery code reads
    the value last assigned to [output_buffer]. *)
Definition failed_decode_log : list event :=
  [EvFree 2; EvJpegDestroy; EvDrawBufFree 3; EvErrorExit; EvJpegReadScanlines;
   EvJpegReadScanlines; EvDrawBufMalloc 3 12; EvJpegAllocSarray; EvJpegStartDecompress;
   EvJpegReadHeader; EvJpegMemSrc; EvJpegCreate; EvFsClose; EvFsRead; EvMalloc 2 4;
   EvFsSeek; EvFsTell; EvFsSeek; EvFsOpen].

(** The first [decoder_open] of the sample file, by an engine that decodes
    it as a 2 by 2 image. *)
Definition first_open : (lv_result_t * lv_image_decoder_dsc_t) * world :=
  decoder_open (sample_fs jfif_prefix) (engine_decodes 2 2) LastAssigned sample_decoder
    sample_dsc (sample_world []).

(** ** Notions used in the statements on resources and locking *)

Definition is_cache_lock (e : event) : bool :=
  match e with EvCacheLock | EvCacheUnlock => true | _ => false end.
Definition is_fs_open (e : event) : bool :=
  match e with EvFsOpen => true | _ => false end.
Definition is_fs_close (e : event) : bool :=
  match e with EvFsClose => true | _ => false end.
Definition is_read_scanlines (e : event) : bool :=
  match e with EvJpegReadScanlines => true | _ => false end.

(** The blocks a list of allocation requests has obtained: the results
    that are not null. *)
Definition obtained (l : list (ptr * Z)) : list ptr :=
  List.filter (fun p => negb (p =? NULL)) (map fst l).

(** The allocator has not used the addresses it will hand out: no block
    lives at the null address, at [brk] or above it. *)
Definition allocator_fresh (w : world) : Prop :=
  heap w !! NULL = None /\ 0 < brk w /\ forall q, brk w <= q -> heap w !! q = None.

(** Replays a list of events, oldest first, from a state of the cache lock
    ([held] or free) and returns the state reached. The replay fails when
    the lock is taken while held or released while free, and when a file
    system or engine call happens while the lock is held. *)
Fixpoint replay_lock (held : bool) (l : list event) : option bool :=
  match l with
  | [] => Some held
  | e :: rest =>
      match e with
      | EvCacheLock => if held then None else replay_lock true rest
      | EvCacheUnlock => if held then replay_lock false rest else None
      | _ => if held && (is_file_io e || is_engine e) then None
             else replay_lock held rest
      end
  end.

(** The file a name stored at [fn] opens, if any. *)
Definition file_named (fs : string -> option vfile) (w : world) (fn : ptr) : option vfile :=
  match cstr w fn with
  | Some name => fs name
  | None => None
  end.

(** The tick difference [decoder_open] stores as the weight of a new
    entry: the second reading of the clock minus the first, in 32 bits. *)
Definition decode_ticks (w : world) : Z :=
  wrap32 (wrap32 (hd 0 (tail (clock w))) - wrap32 (hd 0 (clock w))).

(** ** Further sample inputs *)

(** A file whose driver fails every read request. *)
Definition unreadable_file (bs : list byte) : vfile :=
  VFile bs (fun _ => LV_FS_RES_OK) LV_FS_RES_OK LV_FS_RES_HW_ERR.

Definition unreadable_fs (bs : list byte) (name : string) : option vfile :=
  if bool_decide (name = "A:img.jpg"%string) then Some (unreadable_file bs) else None.

(** A file system without files. *)
Definition empty_fs (name : string) : option vfile := None.

(** A world whose clock will read 100 and then 130. *)
Definition ticking_world : world :=
  World {[ 1 := Block 10 (Text "A:img.jpg") ]} 2 [] [100; 130] [] [].

(** * Properties *)

(** ** The signature check *)

Lemma byte_val_range (b : byte) : 0 <= byte_val b <= 255.
Proof.
  unfold byte_val. pose proof (Byte.to_N_bounded b). lia.
Qed.

Lemma byte_val_inj (b c : byte) : byte_val b = byte_val c -> b = c.
Proof.
  unfold byte_val. intros Heq. apply N2Z.inj in Heq.
  pose proof (Byte.of_to_N b) as Hb. rewrite Heq, Byte.of_to_N in Hb.
  congruence.
Qed.

Lemma land_low24 (x : Z) : Z.land x 0x00FFFFFF = x mod 2 ^ 24.
Proof.
  change 0x00FFFFFF with (Z.ones 24). apply Z.land_ones. lia.
Qed.

Lemma le_value_low24 (b0 b1 b2 b3 : byte) :
  le_value [b0; b1; b2; b3] mod 2 ^ 24
  = byte_val b0 + 256 * byte_val b1 + 65536 * byte_val b2.
Proof.
  pose proof (byte_val_range b0). pose proof (byte_val_range b1).
  pose proof (byte_val_range b2).
  cbn [le_value].
  replace (byte_val b0 + 256 * (byte_val b1 + 256 * (byte_val b2 + 256 * (byte_val b3 + 256 * 0))))
    with (byte_val b0 + 256 * byte_val b1 + 65536 * byte_val b2 + byte_val b3 * 2 ^ 24) by lia.
  rewrite Z_mod_plus_full. apply Z.mod_small. lia.
Qed.

(** C4, as amended: the four bytes are read in host (little-endian) order,
    so the check compares the low 24 bits of their little-endian value with
    the marker; it accepts exactly when the first three bytes of the file
    are FF D8 FF, and rejects otherwise. *)
Theorem signature_check_little_endian (b0 b1 b2 b3 : byte) :
  IS_JPEG_SIGNATURE (load_u32 [b0; b1; b2; b3])
  = (le_value [b0; b1; b2; b3] mod 2 ^ 24 =? JPEG_SIGNATURE)
  /\ (IS_JPEG_SIGNATURE (load_u32 [b0; b1; b2; b3]) = true
      <-> b0 = xff /\ b1 = xd8 /\ b2 = xff)
  /\ (IS_JPEG_SIGNATURE (load_u32 [b0; b1; b2; b3]) = false
      <-> ~ (b0 = xff /\ b1 = xd8 /\ b2 = xff)).
Proof.
  assert (Hload : load_u32 [b0; b1; b2; b3] = le_value [b0; b1; b2; b3]) by reflexivity.
  assert (Hiff : IS_JPEG_SIGNATURE (load_u32 [b0; b1; b2; b3]) = true
                 <-> b0 = xff /\ b1 = xd8 /\ b2 = xff).
  { unfold IS_JPEG_SIGNATURE. rewrite Hload, land_low24, le_value_low24, Z.eqb_eq.
    pose proof (byte_val_range b0). pose proof (byte_val_range b1).
    pose proof (byte_val_range b2). unfold JPEG_SIGNATURE.
    split.
    - intros Hsum.
      assert (byte_val b0 = byte_val xff /\ byte_val b1 = byte_val xd8
              /\ byte_val b2 = byte_val xff) as (Ha & Hb & Hc).
      { change (byte_val xff) with 255. change (byte_val xd8) with 216. lia. }
      auto using byte_val_inj.
    - intros (-> & -> & ->). reflexivity. }
  split; [|split].
  - unfold IS_JPEG_SIGNATURE. rewrite Hload, land_low24. reflexivity.
  - exact Hiff.
  - rewrite <- Hiff. destruct (IS_JPEG_SIGNATURE _); split; congruence.
Qed.

(** C4, as stated, fails: for the bytes FF D8 FF E0 the code accepts, while
    the low 24 bits of their big-endian value are D8 FF E0, not the marker. *)
Lemma signature_check_not_big_endian :
  IS_JPEG_SIGNATURE (load_u32 [xff; xd8; xff; xe0]) = true
  /\ spec_isCandidate_big_endian xff xd8 xff xe0 = false.
Proof. split; reflexivity. Qed.

(** ** The invalidate callback *)

(** C8: the callback calls [lv_free] on the identity string exactly when
    the identity kind is [LV_CACHE_SRC_TYPE_PATH], then calls [lv_free] on
    the data buffer in every case; these are its only effects, so the source
    pointer of a pointer-identified entry is never passed to [lv_free]. *)
Theorem cache_invalidate_cb_frees (entry : lv_cache_entry_t) (w : world) :
  let w' := cache_invalidate_cb entry w in
  frees (log w')
  = e_data entry
    :: match e_src_type entry with
       | LV_CACHE_SRC_TYPE_PATH => [e_src entry]
       | LV_CACHE_SRC_TYPE_POINTER => []
       end ++ frees (log w)
  /\ log w'
     = EvFree (e_data entry)
       :: match e_src_type entry with
          | LV_CACHE_SRC_TYPE_PATH => [EvFree (e_src entry)]
          | LV_CACHE_SRC_TYPE_POINTER => []
          end ++ log w
  /\ heap w'
     = delete (e_data entry)
         match e_src_type entry with
         | LV_CACHE_SRC_TYPE_PATH => delete (e_src entry) (heap w)
         | LV_CACHE_SRC_TYPE_POINTER => heap w
         end
  /\ cache w' = cache w.
Proof.
  unfold cache_invalidate_cb. destruct (e_src_type entry); cbn; auto.
Qed.

(** ** Logs *)

Lemma count_app (f : event -> bool) (l1 l2 : list event) :
  count f (l1 ++ l2) = (count f l1 + count f l2)%nat.
Proof.
  induction l1 as [|e l1 IH]; cbn; [reflexivity|].
  rewrite IH. destruct (f e); reflexivity.
Qed.

Lemma pick_app {A : Type} (f : event -> option A) (l1 l2 : list event) :
  pick f (l1 ++ l2) = pick f l1 ++ pick f l2.
Proof.
  induction l1 as [|e l1 IH]; cbn; [reflexivity|].
  rewrite IH. destruct (f e); reflexivity.
Qed.

Lemma In_pick {A : Type} (f : event -> option A) (l : list event) (e : event) (a : A) :
  In e l -> f e = Some a -> In a (pick f l).
Proof.
  induction l as [|x l IH]; cbn; [tauto|].
  intros [->|Hin] Hf.
  - rewrite Hf. left. reflexivity.
  - specialize (IH Hin Hf). destruct (f x); [right|]; exact IH.
Qed.

Lemma count_zero_Forall (f : event -> bool) (l : list event) :
  Forall (fun e => f e = false) l -> count f l = O.
Proof.
  induction 1 as [|e l He _ IH]; cbn; [reflexivity|]. rewrite He. exact IH.
Qed.

Lemma pick_nil_Forall {A : Type} (f : event -> option A) (l : list event) :
  Forall (fun e => f e = None) l -> pick f l = [].
Proof.
  induction 1 as [|e l He _ IH]; cbn; [reflexivity|]. rewrite He. exact IH.
Qed.

Lemma count_pos_In (f : event -> bool) (l : list event) (e : event) :
  In e l -> f e = true -> (0 < count f l)%nat.
Proof.
  induction l as [|x l IH]; cbn; [tauto|].
  intros [->|Hin] Hf.
  - rewrite Hf. lia.
  - specialize (IH Hin Hf). destruct (f x); lia.
Qed.

(** The events a world has logged on top of those of an earlier world. *)
Ltac log_prefix l w :=
  lazymatch l with
  | log w => constr:(@nil event)
  | ?e :: ?l' => let p := log_prefix l' w in constr:(e :: p)
  end.
Ltac exists_log_prefix :=
  lazymatch goal with
  | |- exists d, ?l = d ++ log ?w /\ _ =>
      let p := log_prefix l w in exists p; split; [reflexivity|]
  end.

(** ** alloc_file *)

Section AllocFile.
Variable fs : string -> option vfile.

(** [alloc_file] leaves the cache and the clock alone, touches no block
    other than the one it allocates, and drives neither the engine nor the
    draw-buffer allocator. When it returns a buffer, that buffer is the one
    block it allocated, it holds bytes, and nothing was freed. *)
Lemma alloc_file_spec (fn : ptr) (w : world) (data : ptr) (dsz : Z) (w1 : world) :
  alloc_file fs fn w = ((data, dsz), w1) ->
  cache w1 = cache w /\ clock w1 = clock w /\
  brk w <= brk w1 <= brk w + 1 /\
  (forall q, q <> brk w -> heap w1 !! q = heap w !! q) /\
  exists d, log w1 = d ++ log w /\
    Forall (fun e => is_engine e = false) d /\
    draw_buf_mallocs d = [] /\ draw_buf_frees d = [] /\
    (data <> NULL ->
       data = brk w /\ brk w1 = brk w + 1 /\ oom w1 = tail (oom w) /\
       mallocs d = [(data, dsz)] /\ frees d = [] /\
       exists name f,
         cstr w fn = Some name /\ fs name = Some f /\
         heap w1 !! data = Some (Block dsz (Bytes (file_image f))) /\
         dsz = Z.of_nat (length (file_image f))).
Proof.
  unfold alloc_file, lv_fs_open, lv_fs_seek, lv_fs_tell, lv_fs_read, lv_fs_close,
    lv_malloc, lv_free, request, store_bytes, set_heap, emit.
  intros Heq.
  repeat (case_match; simplify_eq; cbn in * ).
  all: split; [reflexivity|split; [reflexivity|split; [lia|split]]].
  all: try (intros q Hq; cbn; rewrite ?lookup_delete_ne, ?lookup_insert_ne by congruence; reflexivity).
  all: exists_log_prefix.
  all: split; [repeat constructor|split; [reflexivity|split; [reflexivity|]]].
  all: intros Hnn; try (exfalso; apply Hnn; reflexivity).
  all: repeat match goal with
             | H : _ && _ = true |- _ => apply andb_true_iff in H as [? ?]
             | H : (_ =? _) = true |- _ => apply Z.eqb_eq in H
             | H : <[_ := _]> _ !! _ = _ |- _ => rewrite lookup_insert_eq in H
             | H : oom _ = _ |- _ => rewrite H
             end; simplify_eq.
  all: split_and!; cbn; try congruence.
  all: match goal with
       | Hc : cstr _ _ = Some ?s, Hf : _ = Some ?v |- _ =>
           exists s, v; split; [exact Hc|split; [exact Hf|]]
       end.
  all: rewrite lookup_insert_eq; unfold file_image.
  all: repeat match goal with
             | H : negb _ = false |- _ => apply negb_false_iff in H
             | H : negb _ = true |- _ => apply negb_true_iff in H
             end; try congruence.
  all: change (wrap32 (0 + 0)) with 0 in *; rewrite ?Z.add_0_r in *;
    change (Z.to_nat 0) with O in *; rewrite ?drop_0 in *.
  all: match goal with H : Z.of_nat _ = _ |- _ => rewrite H end; split; reflexivity.
Qed.
End AllocFile.

(** ** Stores into blocks *)

Lemma lv_memcpy_other (dst : ptr) (off len : Z) (w : world) (q : ptr) :
  q <> dst -> heap (lv_memcpy dst off len w) !! q = heap w !! q.
Proof.
  intros Hq. unfold lv_memcpy, set_heap. cbn.
  repeat case_match; rewrite ?lookup_insert_ne by congruence; reflexivity.
Qed.

Lemma lv_memcpy_pixels (dst : ptr) (off len : Z) (w : world) (n f : Z) :
  heap w !! dst = Some (Block n (Pixels f)) ->
  heap (lv_memcpy dst off len w) !! dst = Some (Block n (Pixels (off + len))).
Proof.
  intros Hd. unfold lv_memcpy, set_heap. cbn. rewrite Hd.
  apply lookup_insert_eq.
Qed.

(** ** The scanline loop *)

Section Decode.
Variable fs : string -> option vfile.
Variable jpeg : list byte -> jpeg_image.
Variable build : local_after_longjmp.

(** The loop changes nothing but the log and the contents of the
    destination block; it leaves by [longjmp] exactly when the engine
    fails on one of the remaining scanlines, and otherwise stores every
    remaining row. *)
Lemma read_rows_spec (todo : nat) :
  forall cinfo dst cur stride fr res fr',
  read_rows jpeg todo cinfo dst cur stride fr = (res, fr') ->
  output_buffer fr' = output_buffer fr /\ fr_size fr' = fr_size fr /\
  brk (fr_world fr') = brk (fr_world fr) /\ oom (fr_world fr') = oom (fr_world fr) /\
  clock (fr_world fr') = clock (fr_world fr) /\ cache (fr_world fr') = cache (fr_world fr) /\
  (forall q, q <> dst -> heap (fr_world fr') !! q = heap (fr_world fr) !! q) /\
  (forall n f, heap (fr_world fr) !! dst = Some (Block n (Pixels f)) ->
     exists f', heap (fr_world fr') !! dst = Some (Block n (Pixels f')) /\
       match res with
       | Ret _ => f' = match todo with
                        | O => f
                        | _ => cur + Z.of_nat todo * stride
                        end
       | Longjmp => True
       end) /\
  exists d, log (fr_world fr') = d ++ log (fr_world fr) /\
    Forall scan_event d /\
    match res with
    | Ret c =>
        ~ In EvErrorExit d /\ ci_src c = ci_src cinfo /\
        output_scanline c = output_scanline cinfo + Z.of_nat todo /\
        forall k, output_scanline cinfo <= k < output_scanline cinfo + Z.of_nat todo ->
          on_read_scanlines (jpeg (ci_src cinfo)) k = Done tt
    | Longjmp =>
        In EvErrorExit d /\
        exists k, output_scanline cinfo <= k < output_scanline cinfo + Z.of_nat todo /\
          on_read_scanlines (jpeg (ci_src cinfo)) k = ErrorExit
    end.
Proof.
  induction todo as [|todo IH]; intros cinfo dst cur stride fr res fr' Hrun.
  - unfold read_rows, jret in Hrun. simplify_eq. split_and!; try reflexivity.
    + intros n f Hf. exists f. split; [exact Hf|reflexivity].
    + exists []. split_and!; try constructor; cbn; try tauto; try lia.
  - cbn [read_rows] in Hrun.
    unfold jpeg_read_scanlines, engine_step, jbind, exec, jret, error_exit in Hrun.
    cbn in Hrun.
    destruct (on_read_scanlines (jpeg (ci_src cinfo)) (output_scanline cinfo)) as [[]|] eqn:Hk;
      cbn in Hrun.
    + apply IH in Hrun as (Hob & Hsz & Hbrk & Hoom & Hclk & Hcache & Hheap & Hdst & d & Hlog & Hd & Hres).
      cbn in *. split_and!; try assumption.
      * intros q Hq. rewrite Hheap by exact Hq. apply lv_memcpy_other. exact Hq.
      * intros n f Hf.
        destruct (Hdst n (cur + stride)) as (f' & Hf' & Hfill).
        { eapply lv_memcpy_pixels. exact Hf. }
        exists f'. split; [exact Hf'|].
        destruct res; [|exact I]. subst f'. destruct todo; lia.
      * exists (d ++ [EvJpegReadScanlines]). split_and!.
        -- rewrite Hlog, <- app_assoc. reflexivity.
        -- apply Forall_app. split; [exact Hd|]. repeat constructor.
        -- destruct res as [c|].
           ++ destruct Hres as (Hno & Hsrc & Hline & Hrows). split_and!.
              ** rewrite in_app_iff. cbn. intros [?|[?|[]]]; [tauto|discriminate].
              ** exact Hsrc.
              ** rewrite Hline. lia.
              ** intros k Hrange.
                 destruct (Z.eq_dec k (output_scanline cinfo)) as [->|Hne]; [exact Hk|].
                 apply Hrows. lia.
           ++ destruct Hres as (Hin & k & Hk1 & Hk2). split.
              ** rewrite in_app_iff. tauto.
              ** exists k. split; [lia|exact Hk2].
    + simplify_eq. cbn. split_and!; try reflexivity.
      * intros n f Hf. exists f. split; [exact Hf|exact I].
      * exists [EvErrorExit; EvJpegReadScanlines]. split_and!; try reflexivity.
        -- constructor; [right; reflexivity|].
           constructor; [left; reflexivity|constructor].
        -- cbn. tauto.
        -- exists (output_scanline cinfo). split; [lia|exact Hk].
Qed.

Lemma request_unfold (n : Z) (c : contents) (w : world) :
  request n c w
  = if hd false (oom w)
    then (NULL, World (heap w) (brk w) (tail (oom w)) (clock w) (cache w) (log w))
    else (brk w, World (<[brk w := Block n c]> (heap w)) (brk w + 1) (tail (oom w))
                       (clock w) (cache w) (log w)).
Proof. unfold request. destruct (oom w) as [|[] rest]; reflexivity. Qed.

#[local] Arguments request : simpl never.

Lemma scan_log_inert (d : list event) :
  Forall scan_event d ->
  count is_create d = O /\ count is_destroy d = O /\
  mallocs d = [] /\ frees d = [] /\
  draw_buf_mallocs d = [] /\ draw_buf_frees d = [] /\
  Forall (fun e => is_file_io e = false) d.
Proof.
  intros Hd.
  split_and!; try apply count_zero_Forall; try apply pick_nil_Forall;
    eapply Forall_impl; try exact Hd; intros e [->| ->]; reflexivity.
Qed.

Lemma wrap32_nonneg (z : Z) : 0 <= wrap32 z.
Proof. unfold wrap32. apply Z.mod_pos_bound. lia. Qed.

(** ** The guarded region of decode_jpeg_file *)

Ltac leaf_goal :=
  lazymatch goal with
  | |- Forall _ _ => repeat constructor
  | |- engine_fails _ => unfold engine_fails; eauto 10
  | |- In _ _ => cbn; tauto
  | |- _ \/ _ => left; split_and!; try reflexivity; repeat constructor
  | |- _ => idtac
  end.

Ltac longjmp_leaf :=
  simplify_eq; cbn;
  split_and!; try reflexivity; try lia;
  exists_log_prefix;
  split_and!; try reflexivity; leaf_goal.

Lemma decode_guarded_spec (data : ptr) (dsz : Z) (w0 : world) (size : option Z)
    (res : jres ptr) (fr : frame) :
  decode_guarded jpeg data dsz (Frame w0 NULL size) = (res, fr) ->
  data < brk w0 ->
  let img := jpeg (bytes_at w0 data dsz) in
  let w' := fr_world fr in
  cache w' = cache w0 /\ clock w' = clock w0 /\ brk w0 <= brk w' <= brk w0 + 1 /\
  (forall q, q <> data -> q <> brk w0 -> heap w' !! q = heap w0 !! q) /\
  exists d, log w' = d ++ log w0 /\
    count is_create d = 1%nat /\ mallocs d = [] /\ draw_buf_frees d = [] /\
    Forall (fun e => is_file_io e = false) d /\
    match res with
    | Longjmp =>
        engine_fails img /\ In EvErrorExit d /\
        count is_destroy d = 0%nat /\ frees d = [] /\
        ((output_buffer fr = NULL /\ fr_size fr = size /\
          Forall (fun pn => fst pn = NULL) (draw_buf_mallocs d))
         \/ (exists ow oh oc,
               on_start_decompress img = Done (ow, oh, oc) /\
               output_buffer fr = brk w0 /\ brk w0 <> NULL /\
               draw_buf_mallocs d = [(brk w0, buffer_size_of ow oh)] /\
               fr_size fr = size_after size (buffer_size_of ow oh) /\
               exists filled,
                 heap w' !! brk w0
                 = Some (Block (buffer_size_of ow oh) (Pixels filled))))
    | Ret r =>
        ~ In EvErrorExit d /\ count is_destroy d = 1%nat /\
        frees d = [data] /\ heap w' !! data = None /\
        exists rc iw ih ow oh oc,
          on_read_header img = Done (rc, iw, ih) /\
          on_start_decompress img = Done (ow, oh, oc) /\
          draw_buf_mallocs d = [(r, buffer_size_of ow oh)] /\
          (r = NULL -> fr_size fr = size /\ (hd false (oom w0) = true \/ brk w0 = NULL)) /\
          (r <> NULL ->
             r = brk w0 /\ fr_size fr = size_after size (buffer_size_of ow oh) /\
             heap w' !! r
             = Some (Block (buffer_size_of ow oh)
                           (Pixels (wrap32 oh * wrap32 (wrap32 ow * JPEG_PIXEL_SIZE)))) /\
             brk w' = brk w0 + 1) /\
          on_mem_src img = Done tt /\ on_alloc_sarray img = Done tt /\
          on_finish_decompress img = Done tt /\
          (r <> NULL ->
           forall k, 0 <= k < wrap32 oh -> on_read_scanlines img k = Done tt)
    end.
Proof.
  intros Hrun Hdata img w'. subst w'.
  unfold decode_guarded, jpeg_create_decompress, jpeg_mem_src, jpeg_read_header,
    jpeg_start_decompress, alloc_sarray, jpeg_finish_decompress, engine_step,
    jbind, exec, call, jret, error_exit, set_output_buffer, store_size,
    get_output_buffer, lv_draw_buf_malloc in Hrun.
  cbn in Hrun.
  change (bytes_at (emit EvJpegCreate w0) data dsz) with (bytes_at w0 data dsz) in Hrun.
  fold img in Hrun.
  destruct (on_mem_src img) as [[]|] eqn:Hsrc; cbn in Hrun; [|longjmp_leaf].
  fold img in Hrun.
  destruct (on_read_header img) as [[[rc iw] ih]|] eqn:Hhdr; cbn in Hrun; [|longjmp_leaf].
  fold img in Hrun.
  destruct (on_start_decompress img) as [[[ow oh] oc]|] eqn:Hstart; cbn in Hrun; [|longjmp_leaf].
  fold img in Hrun.
  destruct (on_alloc_sarray img) as [[]|] eqn:Hsarray; cbn in Hrun; [|longjmp_leaf].
  fold (buffer_size_of ow oh) in Hrun.
  rewrite request_unfold in Hrun. cbn in Hrun.
  destruct (hd false (oom w0)) eqn:Hoom; cbn in Hrun.
  - (* the allocation of the output buffer fails *)
    fold img in Hrun.
    destruct (on_finish_decompress img) as [[]|] eqn:Hfin; cbn in Hrun; [|longjmp_leaf].
    simplify_eq; cbn.
    split_and!; try reflexivity; try lia.
    + intros q Hq _. apply lookup_delete_ne. congruence.
    + exists_log_prefix. split_and!; try reflexivity.
      * repeat constructor.
      * cbn. intuition discriminate.
      * apply lookup_delete_eq.
      * exists rc, iw, ih, ow, oh, oc. split_and!; try reflexivity; try tauto.
  - destruct (brk w0 =? NULL) eqn:Hnull; cbn in Hrun.
    + (* the fresh address is the null pointer: taken for a failure *)
      apply Z.eqb_eq in Hnull. fold img in Hrun.
      destruct (on_finish_decompress img) as [[]|] eqn:Hfin; cbn in Hrun;
        simplify_eq; cbn.
      * split_and!; try reflexivity; try lia.
        -- intros q Hq1 Hq2.
           rewrite ?lookup_delete_ne, ?lookup_insert_ne by congruence. reflexivity.
        -- exists_log_prefix. split_and!; try reflexivity.
           ++ repeat constructor.
           ++ cbn. intuition discriminate.
           ++ apply lookup_delete_eq.
           ++ exists rc, iw, ih, ow, oh, oc. split_and!; try reflexivity; try tauto.
      * split_and!; try reflexivity; try lia.
        -- intros q Hq1 Hq2.
           rewrite ?lookup_delete_ne, ?lookup_insert_ne by congruence. reflexivity.
        -- exists_log_prefix. split_and!; try reflexivity.
           ++ repeat constructor.
           ++ unfold engine_fails. tauto.
           ++ cbn. tauto.
           ++ left. split_and!; try reflexivity; try assumption.
              repeat constructor. assumption.
    + apply Z.eqb_neq in Hnull.
      fold (size_after size (buffer_size_of ow oh)) in Hrun.
      match type of Hrun with
      | context [read_rows ?j ?n ?c ?d ?cur ?st ?f] =>
          destruct (read_rows j n c d cur st f) as [res1 fr1] eqn:Hloop
      end.
      apply read_rows_spec in Hloop
        as (Hob & Hsz & Hbrk & Hoom' & Hclk & Hcache & Hheap & Hdst & d & Hlog & Hd & Hres).
      cbn in Hob, Hsz, Hbrk, Hoom', Hclk, Hcache, Hheap, Hdst, Hlog, Hres.
      destruct (scan_log_inert d Hd) as (Hc1 & Hc2 & Hm & Hf & Hdm & Hdf & Hio).
      destruct (Hdst (buffer_size_of ow oh) 0) as (filled & Hfilled & Hfill);
        [apply lookup_insert_eq|].
      assert (Hpre : forall q, q <> brk w0 -> heap (fr_world fr1) !! q = heap w0 !! q).
      { intros q Hq. rewrite Hheap by exact Hq. apply lookup_insert_ne. congruence. }
      set (tl_log := [EvDrawBufMalloc (brk w0) (buffer_size_of ow oh); EvJpegAllocSarray;
                      EvJpegStartDecompress; EvJpegReadHeader; EvJpegMemSrc; EvJpegCreate]).
      assert (Hlog' : log (fr_world fr1) = (d ++ tl_log) ++ log w0).
      { rewrite Hlog, <- app_assoc. reflexivity. }
      destruct res1 as [c|]; cbn in Hrun.
      * destruct Hres as (Hno & Hcsrc & Hline & Hrows). cbn in Hcsrc, Hrows.
        fold img in Hrows. rewrite Hcsrc in Hrun.
        fold img in Hrun.
        destruct (on_finish_decompress img) as [[]|] eqn:Hfin; cbn in Hrun;
          simplify_eq; cbn.
        -- split_and!; try congruence; try lia.
           ++ intros q Hq1 Hq2. rewrite lookup_delete_ne by congruence. auto.
           ++ exists (EvFree data :: EvJpegDestroy :: EvJpegFinishDecompress :: d ++ tl_log).
              split_and!.
              ** rewrite Hlog'. reflexivity.
              ** cbn. rewrite count_app, Hc1. reflexivity.
              ** cbn. unfold mallocs in *. rewrite pick_app, Hm. reflexivity.
              ** cbn. unfold draw_buf_frees in *. rewrite pick_app, Hdf. reflexivity.
              ** repeat (constructor; [reflexivity|]). apply Forall_app. split; [exact Hio|].
                 repeat constructor.
              ** cbn. rewrite in_app_iff. cbn. intuition discriminate.
              ** cbn. rewrite count_app, Hc2. reflexivity.
              ** cbn. unfold frees in *. rewrite pick_app, Hf. reflexivity.
              ** apply lookup_delete_eq.
              ** exists rc, iw, ih, ow, oh, oc. split_and!; try reflexivity.
                 --- cbn. unfold draw_buf_mallocs in *. rewrite pick_app, Hdm, Hob. reflexivity.
                 --- intros Hnn. rewrite Hob in Hnn. contradiction.
                 --- intros _. rewrite Hob, Hsz. split_and!; try reflexivity; try assumption.
                     rewrite lookup_delete_ne by lia. rewrite Hfilled.
                     do 3 f_equal.
                     pose proof (wrap32_nonneg oh) as Hnonneg.
                     destruct (Z.to_nat (wrap32 oh - 0)) as [|n] eqn:Hn.
                     +++ assert (wrap32 oh = 0) as -> by lia. lia.
                     +++ assert (wrap32 oh = Z.of_nat (Datatypes.S n)) as -> by lia. lia.
                 --- intros _ k Hk. apply Hrows. lia.
        -- split_and!; try congruence; try lia.
           ++ intros q Hq1 Hq2. auto.
           ++ exists (EvErrorExit :: EvJpegFinishDecompress :: d ++ tl_log).
              split_and!.
              ** rewrite Hlog'. reflexivity.
              ** cbn. rewrite count_app, Hc1. reflexivity.
              ** cbn. unfold mallocs in *. rewrite pick_app, Hm. reflexivity.
              ** cbn. unfold draw_buf_frees in *. rewrite pick_app, Hdf. reflexivity.
              ** repeat (constructor; [reflexivity|]). apply Forall_app. split; [exact Hio|].
                 repeat constructor.
              ** unfold engine_fails. tauto.
              ** cbn. tauto.
              ** cbn. rewrite count_app, Hc2. reflexivity.
              ** cbn. unfold frees in *. rewrite pick_app, Hf. reflexivity.
              ** right. exists ow, oh, oc. split_and!; try reflexivity; try assumption;
                   [cbn; unfold draw_buf_mallocs in *; rewrite pick_app, Hdm; reflexivity
                   |eexists; exact Hfilled].
      * destruct Hres as (Hin & k & Hk & Hkerr). cbn in Hk, Hkerr. fold img in Hkerr.
        simplify_eq.
        split_and!; try congruence; try lia.
        -- intros q Hq1 Hq2. auto.
        -- exists (d ++ tl_log). split_and!.
           ++ exact Hlog'.
           ++ rewrite count_app, Hc1. reflexivity.
           ++ unfold mallocs in *. rewrite pick_app, Hm. reflexivity.
           ++ unfold draw_buf_frees in *. rewrite pick_app, Hdf. reflexivity.
           ++ apply Forall_app. split; [exact Hio|]. repeat constructor.
           ++ unfold engine_fails. do 4 right. left.
              exists ow, oh, oc, k. split_and!; try reflexivity; try assumption; try lia.
           ++ rewrite in_app_iff. tauto.
           ++ rewrite count_app, Hc2. reflexivity.
           ++ unfold frees in *. rewrite pick_app, Hf. reflexivity.
           ++ right. exists ow, oh, oc. split_and!; try reflexivity; try assumption;
                [unfold draw_buf_mallocs in *; rewrite pick_app, Hdm; reflexivity
                |eexists; exact Hfilled].
Qed.

Lemma engine_free_log (d : list event) :
  Forall (fun e => is_engine e = false) d ->
  count is_create d = O /\ count is_destroy d = O /\ ~ In EvErrorExit d.
Proof.
  intros Hd. split_and!.
  - apply count_zero_Forall. eapply Forall_impl; [exact Hd|].
    intros [] He; cbn in *; congruence.
  - apply count_zero_Forall. eapply Forall_impl; [exact Hd|].
    intros [] He; cbn in *; congruence.
  - intros Hin. rewrite Forall_forall in Hd. apply list_elem_of_In in Hin.
    specialize (Hd _ Hin). discriminate.
Qed.

(** ** decode_jpeg_file *)

Lemma bytes_at_block (w : world) (p : ptr) (n : Z) (bs : list byte) :
  heap w !! p = Some (Block n (Bytes bs)) -> n = Z.of_nat (length bs) ->
  bytes_at w p n = bs.
Proof.
  intros Hp ->. unfold bytes_at. rewrite Hp, Nat2Z.id. apply firstn_all.
Qed.

(** What one call of [decode_jpeg_file] does to the world. The cache, the
    clock and every block that existed before the call are left alone.
    When the engine has called [error_exit], the call returns [NULL], the
    engine object was created once and destroyed once, and the file buffer
    was allocated once and freed once. A draw buffer obtained before the
    jump is freed once by a build whose recovery code reads the value last
    assigned to [output_buffer]; a build whose recovery code reads the value
    [output_buffer] had at [setjmp], which is the null pointer, skips the
    call of [lv_draw_buf_free] and leaves the buffer allocated. When the
    call returns a buffer, that buffer is the one draw buffer obtained, it
    is still allocated, every row was stored in it, and no error was
    signalled. *)
Lemma decode_jpeg_file_spec (fn : ptr) (size : option Z) (w : world)
    (r : ptr) (size' : option Z) (w' : world) :
  decode_jpeg_file fs jpeg build fn size w = ((r, size'), w') ->
  cache w' = cache w /\ clock w' = clock w /\ brk w <= brk w' /\
  (forall q, q < brk w -> heap w' !! q = heap w !! q) /\
  exists d, log w' = d ++ log w /\
    (In EvErrorExit d ->
       r = NULL /\ count is_create d = 1%nat /\ count is_destroy d = 1%nat /\
       exists data dsz,
         data <> NULL /\ mallocs d = [(data, dsz)] /\ frees d = [data] /\
         heap w' !! data = None /\
         ((Forall (fun pn => fst pn = NULL) (draw_buf_mallocs d) /\
           draw_buf_frees d = [] /\ size' = size)
          \/ (exists p name f ow oh oc,
                p <> NULL /\ p <> data /\
                cstr w fn = Some name /\ fs name = Some f /\
                on_start_decompress (jpeg (file_image f)) = Done (ow, oh, oc) /\
                draw_buf_mallocs d = [(p, buffer_size_of ow oh)] /\
                size' = size_after size (buffer_size_of ow oh) /\
                match build with
                | LastAssigned => draw_buf_frees d = [p] /\ heap w' !! p = None
                | AsAtSetjmp =>
                    draw_buf_frees d = [] /\
                    exists filled,
                      heap w' !! p = Some (Block (buffer_size_of ow oh) (Pixels filled))
                end))) /\
    (r <> NULL ->
       ~ In EvErrorExit d /\ count is_create d = 1%nat /\ count is_destroy d = 1%nat /\
       r = brk w + 1 /\
       exists data dsz bs rc iw ih ow oh oc,
         mallocs d = [(data, dsz)] /\ frees d = [data] /\ heap w' !! data = None /\
         on_read_header (jpeg bs) = Done (rc, iw, ih) /\
         on_start_decompress (jpeg bs) = Done (ow, oh, oc) /\
         draw_buf_mallocs d = [(r, buffer_size_of ow oh)] /\ draw_buf_frees d = [] /\
         size' = size_after size (buffer_size_of ow oh) /\
         heap w' !! r
         = Some (Block (buffer_size_of ow oh)
                       (Pixels (wrap32 oh * wrap32 (wrap32 ow * JPEG_PIXEL_SIZE)))) /\
         brk w' = brk w + 2).
Proof.
  unfold decode_jpeg_file. intros Hrun.
  destruct (alloc_file fs fn w) as [[data dsz] w1] eqn:Halloc.
  apply alloc_file_spec in Halloc
    as (Hcache1 & Hclk1 & Hbrk1 & Hheap1 & d1 & Hlog1 & Heng1 & Hdm1 & Hdf1 & Hok).
  destruct (engine_free_log d1 Heng1) as (Hc1 & Hx1 & Hno1).
  destruct (data =? NULL) eqn:Hnull.
  - simplify_eq. split_and!; try assumption; try lia.
    + intros q Hq. apply Hheap1. lia.
    + exists d1. split_and!; [assumption| |]; intros; exfalso; tauto.
  - apply Z.eqb_neq in Hnull.
    destruct (Hok Hnull) as (-> & Hbrk' & Hoom1 & Hm1 & Hf1 & name & f & Hname & Hfile & Hbs & Hdsz).
    pose proof (bytes_at_block _ _ _ _ Hbs Hdsz) as Hbytes. clear Hdsz.
    unfold setjmp in Hrun.
    destruct (decode_guarded jpeg (brk w) dsz (Frame w1 NULL size)) as [res fr] eqn:Hg.
    apply decode_guarded_spec in Hg; [|lia].
    destruct Hg as (Hcache2 & Hclk2 & Hbrk2 & Hheap2 & d2 & Hlog2 & Hc2 & Hm2 & Hdf2 & Hio2 & Hres).
    unfold mallocs, frees, draw_buf_mallocs, draw_buf_frees in *.
    destruct res as [r0|].
    + (* the guarded region returns *)
      simplify_eq.
      destruct Hres as (Hno2 & Hx2 & Hf2 & Hgone & rc & iw & ih & ow & oh & oc
                        & Hhdr & Hstart & Hdm2 & Hrnull & Hrok & _).
      split_and!; try congruence; try lia.
      * intros q Hq. rewrite Hheap2, Hheap1 by lia. reflexivity.
      * exists (d2 ++ d1). split_and!.
        -- rewrite Hlog2, Hlog1, app_assoc. reflexivity.
        -- rewrite in_app_iff. tauto.
        -- intros Hr. destruct (Hrok Hr) as (-> & Hsz & Hblock & Hbrk3).
           split_and!.
           ++ rewrite in_app_iff. tauto.
           ++ rewrite count_app, Hc2, Hc1. reflexivity.
           ++ rewrite count_app, Hx2, Hx1. reflexivity.
           ++ lia.
           ++ exists (brk w), dsz, (bytes_at w1 (brk w) dsz), rc, iw, ih, ow, oh, oc.
              rewrite !pick_app, Hm2, Hm1, Hf2, Hf1, Hdm2, Hdm1, Hdf2, Hdf1.
              split_and!; try reflexivity; try assumption. lia.
    + (* the engine has jumped to the recovery code *)
      rewrite Hbytes in Hres.
      destruct Hres as (_ & Hin2 & Hx2 & Hf2 & Hob).
      unfold decode_recover, local_seen in Hrun. cbn in Hrun.
      destruct Hob as [(Hob & Hsz & Hdm2)
                      |(ow & oh & oc & Hstart & Hob & Hnn & Hdm2 & Hsz & filled & Hfilled)].
      * (* no output buffer was obtained *)
        assert (Hseen : match build with
                        | LastAssigned => output_buffer fr
                        | AsAtSetjmp => NULL
                        end = NULL) by (destruct build; [exact Hob|reflexivity]).
        rewrite Hseen in Hrun. cbn in Hrun. simplify_eq. cbn.
        split_and!; try congruence; try lia.
        -- intros q Hq. rewrite lookup_delete_ne by lia.
           rewrite Hheap2, Hheap1 by lia. reflexivity.
        -- exists (EvFree (brk w) :: EvJpegDestroy :: d2 ++ d1). split_and!.
           ++ rewrite Hlog2, Hlog1, app_assoc. reflexivity.
           ++ intros _. cbn. rewrite !count_app, !pick_app.
              rewrite Hc2, Hc1, Hx2, Hx1, Hm2, Hm1, Hf2, Hf1, Hdf2, Hdf1, Hdm1.
              split_and!; try reflexivity.
              exists (brk w), dsz. split_and!; try reflexivity; try assumption.
              ** apply lookup_delete_eq.
              ** left. rewrite app_nil_r. split_and!; try assumption; reflexivity.
           ++ intros Hr. exfalso. apply Hr. reflexivity.
      * (* the output buffer was obtained before the jump *)
        rewrite Hob in Hrun.
        destruct build; cbn in Hrun.
        -- (* the recovery code reads the value last assigned *)
           apply Z.eqb_neq in Hnn. rewrite Hnn in Hrun. apply Z.eqb_neq in Hnn.
           cbn in Hrun. simplify_eq. cbn.
           split_and!; try congruence; try lia.
           ++ intros q Hq. rewrite !lookup_delete_ne by lia.
              rewrite Hheap2, Hheap1 by lia. reflexivity.
           ++ exists (EvFree (brk w) :: EvJpegDestroy :: EvDrawBufFree (brk w1) :: d2 ++ d1).
              split_and!.
              ** rewrite Hlog2, Hlog1, app_assoc. reflexivity.
              ** intros _. cbn. rewrite !count_app, !pick_app.
                 rewrite Hc2, Hc1, Hx2, Hx1, Hm2, Hm1, Hf2, Hf1, Hdf2, Hdf1, Hdm1, Hdm2.
                 split_and!; try reflexivity.
                 exists (brk w), dsz. split_and!; try reflexivity; try assumption.
                 --- apply lookup_delete_eq.
                 --- right. exists (brk w1), name, f, ow, oh, oc.
                     split_and!; try reflexivity; try assumption; try lia.
                     rewrite lookup_delete_ne by lia. apply lookup_delete_eq.
              ** intros Hr. exfalso. apply Hr. reflexivity.
        -- (* the recovery code reads the null pointer stored before setjmp *)
           simplify_eq. cbn.
           split_and!; try congruence; try lia.
           ++ intros q Hq. rewrite !lookup_delete_ne by lia.
              rewrite Hheap2, Hheap1 by lia. reflexivity.
           ++ exists (EvFree (brk w) :: EvJpegDestroy :: d2 ++ d1).
              split_and!.
              ** rewrite Hlog2, Hlog1, app_assoc. reflexivity.
              ** intros _. cbn. rewrite !count_app, !pick_app.
                 rewrite Hc2, Hc1, Hx2, Hx1, Hm2, Hm1, Hf2, Hf1, Hdf2, Hdf1, Hdm1, Hdm2.
                 split_and!; try reflexivity.
                 exists (brk w), dsz. split_and!; try reflexivity; try assumption.
                 --- apply lookup_delete_eq.
                 --- right. exists (brk w1), name, f, ow, oh, oc.
                     split_and!; try reflexivity; try assumption; try lia.
                     exists filled. rewrite lookup_delete_ne by lia. exact Hfilled.
              ** intros Hr. exfalso. apply Hr. reflexivity.
Qed.

(** What the engine did in a call of [decode_jpeg_file] that got as far as
    creating the engine object: the file named by [fn] was loaded, and
    either the engine failed on its bytes at some step and [error_exit] was
    called, or every step the call went through succeeded; in the latter
    case a non-null result means that every scanline was read. *)
Lemma decode_jpeg_file_script (fn : ptr) (size : option Z) (w : world)
    (r : ptr) (size' : option Z) (w' : world) (d : list event) :
  decode_jpeg_file fs jpeg build fn size w = ((r, size'), w') ->
  log w' = d ++ log w ->
  count is_create d = 1%nat ->
  exists name f,
    cstr w fn = Some name /\ fs name = Some f /\
    ((In EvErrorExit d /\ engine_fails (jpeg (file_image f)))
     \/ (~ In EvErrorExit d /\
         exists rc iw ih ow oh oc,
           on_mem_src (jpeg (file_image f)) = Done tt /\
           on_read_header (jpeg (file_image f)) = Done (rc, iw, ih) /\
           on_start_decompress (jpeg (file_image f)) = Done (ow, oh, oc) /\
           on_alloc_sarray (jpeg (file_image f)) = Done tt /\
           on_finish_decompress (jpeg (file_image f)) = Done tt /\
           draw_buf_mallocs d = [(r, buffer_size_of ow oh)] /\
           (r <> NULL ->
              size' = size_after size (buffer_size_of ow oh) /\
              heap w' !! r
              = Some (Block (buffer_size_of ow oh)
                            (Pixels (wrap32 oh * wrap32 (wrap32 ow * JPEG_PIXEL_SIZE)))) /\
              forall k, 0 <= k < wrap32 oh ->
                on_read_scanlines (jpeg (file_image f)) k = Done tt))).
Proof.
  unfold decode_jpeg_file. intros Hrun Hlog Hcreate.
  destruct (alloc_file fs fn w) as [[data dsz] w1] eqn:Halloc.
  apply alloc_file_spec in Halloc
    as (Hcache1 & Hclk1 & Hbrk1 & Hheap1 & d1 & Hlog1 & Heng1 & Hdm1 & Hdf1 & Hok).
  destruct (engine_free_log d1 Heng1) as (Hc1 & Hx1 & Hno1).
  destruct (data =? NULL) eqn:Hnull.
  - simplify_eq.
    assert (d1 = d) as -> by (eapply app_inv_tail; rewrite <- Hlog1; exact Hlog).
    congruence.
  - apply Z.eqb_neq in Hnull.
    destruct (Hok Hnull) as (-> & Hbrk' & _ & _ & _ & name & f & Hname & Hfile & Hbs & Hdsz).
    pose proof (bytes_at_block _ _ _ _ Hbs Hdsz) as Hbytes.
    exists name, f. split; [exact Hname|]. split; [exact Hfile|].
    unfold setjmp in Hrun.
    destruct (decode_guarded jpeg (brk w) dsz (Frame w1 NULL size)) as [res fr] eqn:Hg.
    apply decode_guarded_spec in Hg; [|lia].
    destruct Hg as (_ & _ & _ & _ & d2 & Hlog2 & _ & _ & _ & _ & Hres).
    rewrite Hbytes in Hres.
    unfold draw_buf_mallocs in *.
    destruct res as [r0|].
    + simplify_eq.
      destruct Hres as (Hno2 & _ & _ & _ & rc & iw & ih & ow & oh & oc
                        & Hhdr & Hstart & Hdm2 & _ & Hrok & Hsrc & Hsarray & Hfin & Hrows).
      assert (d = d2 ++ d1) as ->.
      { eapply app_inv_tail. rewrite <- Hlog, Hlog2, Hlog1, app_assoc. reflexivity. }
      right. split; [rewrite in_app_iff; tauto|].
      exists rc, iw, ih, ow, oh, oc. split_and!; try assumption.
      * rewrite pick_app, Hdm2, Hdm1. reflexivity.
      * intros Hr. destruct (Hrok Hr) as (_ & Hsz & Hblock & _). split_and!; auto.
    + left. destruct Hres as (Hfails & Hin2 & _). split; [|exact Hfails].
      unfold decode_recover, local_seen in Hrun. cbn in Hrun.
      destruct build; cbn in Hrun.
      * destruct (output_buffer fr =? NULL); cbn in Hrun; simplify_eq; cbn in Hlog;
          rewrite Hlog2, Hlog1 in Hlog.
        -- assert (d = EvFree (brk w) :: EvJpegDestroy :: d2 ++ d1) as ->.
           { eapply app_inv_tail. rewrite <- Hlog. cbn. rewrite <- app_assoc. reflexivity. }
           cbn. rewrite in_app_iff. tauto.
        -- assert (d = EvFree (brk w) :: EvJpegDestroy :: EvDrawBufFree (output_buffer fr)
                         :: d2 ++ d1) as ->.
           { eapply app_inv_tail. rewrite <- Hlog. cbn. rewrite <- app_assoc. reflexivity. }
           cbn. rewrite in_app_iff. tauto.
      * simplify_eq. cbn in Hlog. rewrite Hlog2, Hlog1 in Hlog.
        assert (d = EvFree (brk w) :: EvJpegDestroy :: d2 ++ d1) as ->.
        { eapply app_inv_tail. rewrite <- Hlog. cbn. rewrite <- app_assoc. reflexivity. }
        cbn. rewrite in_app_iff. tauto.
Qed.

(** X8: the failures named in the description of the recovery point do
    reach it: when the engine object was created and the engine fails on the
    loaded bytes while binding the source, parsing the header, starting
    decompression, allocating the row buffer or finishing, or while reading
    a scanline after the output buffer was obtained, [error_exit] is
    called. *)
Lemma engine_failure_is_signalled (fn : ptr) (size : option Z) (w : world)
    (r : ptr) (size' : option Z) (w' : world) (d : list event)
    (name : string) (f : vfile) :
  decode_jpeg_file fs jpeg build fn size w = ((r, size'), w') ->
  log w' = d ++ log w ->
  count is_create d = 1%nat ->
  cstr w fn = Some name -> fs name = Some f ->
  (on_mem_src (jpeg (file_image f)) = ErrorExit
   \/ on_read_header (jpeg (file_image f)) = ErrorExit
   \/ on_start_decompress (jpeg (file_image f)) = ErrorExit
   \/ on_alloc_sarray (jpeg (file_image f)) = ErrorExit
   \/ on_finish_decompress (jpeg (file_image f)) = ErrorExit
   \/ (exists p n ow oh oc k,
         In (EvDrawBufMalloc p n) d /\ p <> NULL /\
         on_start_decompress (jpeg (file_image f)) = Done (ow, oh, oc) /\
         0 <= k < wrap32 oh /\
         on_read_scanlines (jpeg (file_image f)) k = ErrorExit)) ->
  In EvErrorExit d.
Proof.
  intros Hrun Hlog Hcreate Hname Hfile Hfails.
  destruct (decode_jpeg_file_script fn size w r size' w' d Hrun Hlog Hcreate)
    as (name' & f' & Hname' & Hfile' & Hcases).
  assert (name' = name) as -> by congruence.
  assert (f' = f) as -> by congruence.
  destruct Hcases as [(Hin & _)|(_ & rc & iw & ih & ow & oh & oc & Hsrc & Hhdr & Hstart
                                 & Hsarray & Hfin & Hdm & Hrows)]; [exact Hin|].
  exfalso.
  destruct Hfails as [H|[H|[H|[H|[H|(p & n & ow' & oh' & oc' & k & Hin & Hp & Hstart' & Hk & Hrow)]]]]];
    try congruence.
  pose proof (In_pick draw_buf_malloc_of d _ (p, n) Hin eq_refl) as Hpick.
  fold (draw_buf_mallocs d) in Hpick. rewrite Hdm in Hpick.
  destruct Hpick as [Heq|[]]. simplify_eq.
  destruct (Hrows Hp) as (_ & _ & Hall).
  rewrite Hstart in Hstart'. simplify_eq.
  rewrite Hall in Hrow by exact Hk. discriminate.
Qed.

(** ** get_jpeg_size and decoder_info *)

(** The header probe leaves the cache and every block that existed before
    the call alone; when it returns dimensions, they are the 32-bit values
    of the image width and height the engine reports for the bytes of the
    named file, with return value [JPEG_HEADER_OK]. *)
Lemma get_jpeg_size_spec (fn : ptr) (w : world) (res : option (Z * Z)) (w1 : world) :
  get_jpeg_size fs jpeg fn w = (res, w1) ->
  cache w1 = cache w /\ brk w <= brk w1 /\
  (forall q, q < brk w -> heap w1 !! q = heap w !! q) /\
  (forall width height, res = Some (width, height) ->
     exists name f iw ih,
       cstr w fn = Some name /\ fs name = Some f /\
       on_read_header (jpeg (file_image f)) = Done (JPEG_HEADER_OK, iw, ih) /\
       width = wrap32 iw /\ height = wrap32 ih).
Proof.
  unfold get_jpeg_size. intros Hrun.
  destruct (alloc_file fs fn w) as [[data dsz] w0] eqn:Halloc.
  apply alloc_file_spec in Halloc
    as (Hcache1 & _ & Hbrk1 & Hheap1 & d1 & _ & _ & _ & _ & Hok).
  destruct (data =? NULL) eqn:Hnull.
  - simplify_eq. split_and!; try assumption; try lia.
    + intros q Hq. apply Hheap1. lia.
    + intros width height Hres. discriminate.
  - apply Z.eqb_neq in Hnull.
    specialize (Hok Hnull).
    destruct Hok as (-> & Hbrk' & _ & _ & _ & name & f & Hname & Hfile & Hbs & Hdsz).
    pose proof (bytes_at_block _ _ _ _ Hbs Hdsz) as Hbytes.
    unfold setjmp, jpeg_create_decompress, jpeg_mem_src, jpeg_read_header, engine_step,
      jbind, exec, jret, error_exit in Hrun.
    cbn in Hrun.
    change (bytes_at (emit EvJpegCreate w0) (brk w) dsz) with (bytes_at w0 (brk w) dsz) in Hrun.
    rewrite Hbytes in Hrun.
    destruct (on_mem_src (jpeg (file_image f))) as [[]|] eqn:Hsrc; cbn in Hrun.
    2:{ simplify_eq. cbn. split_and!; try assumption; try lia.
        - intros q Hq. rewrite lookup_delete_ne by lia. apply Hheap1. lia.
        - intros width height Hres. discriminate. }
    destruct (on_read_header (jpeg (file_image f))) as [[[rc iw] ih]|] eqn:Hhdr; cbn in Hrun.
    2:{ simplify_eq. cbn. split_and!; try assumption; try lia.
        - intros q Hq. rewrite lookup_delete_ne by lia. apply Hheap1. lia.
        - intros width height Hres. discriminate. }
    simplify_eq. cbn. split_and!; try assumption; try lia.
    + intros q Hq. rewrite lookup_delete_ne by lia. apply Hheap1. lia.
    + intros width height Hres.
      destruct (rc =? JPEG_HEADER_OK) eqn:Hrc; [|discriminate].
      apply Z.eqb_eq in Hrc. subst rc. simplify_eq.
      exists name, f, iw, ih. split_and!; auto.
Qed.

(** A successful [decoder_info] reports the RGB888 format and the
    dimensions the header probe found for the file named by [src]. *)
Lemma decoder_info_spec (decoder : lv_image_decoder_t) (src : ptr)
    (header hdr : lv_image_header_t) (w w1 : world) :
  decoder_info fs jpeg decoder src header w = ((LV_RESULT_OK, hdr), w1) ->
  cache w1 = cache w /\ brk w <= brk w1 /\
  (forall q, q < brk w -> heap w1 !! q = heap w !! q) /\
  h_cf hdr = LV_COLOR_FORMAT_RGB888 /\
  exists name f iw ih,
    cstr w src = Some name /\ fs name = Some f /\
    on_read_header (jpeg (file_image f)) = Done (JPEG_HEADER_OK, iw, ih) /\
    h_w hdr = wrap32 iw /\ h_h hdr = wrap32 ih.
Proof.
  unfold decoder_info. intros Hrun.
  destruct (lv_image_src_get_type w src); try discriminate.
  destruct (lv_fs_open fs src w) as [[res f0] w0] eqn:Hopen.
  destruct (is_ok res); cbn in Hrun; [|discriminate].
  destruct (lv_fs_read f0 4 w0) as [[[res1 bs] f1] w0'] eqn:Hread.
  destruct (Z.of_nat (length bs) =? 4); cbn in Hrun; [|discriminate].
  destruct (IS_JPEG_SIGNATURE (load_u32 bs)); cbn in Hrun; [|discriminate].
  destruct (get_jpeg_size fs jpeg src (lv_fs_close f1 w0')) as [[[width height]|] w2] eqn:Hsize;
    [|discriminate].
  simplify_eq.
  assert (Hw0 : heap w0 = heap w /\ brk w0 = brk w /\ cache w0 = cache w).
  { unfold lv_fs_open in Hopen. repeat case_match; simplify_eq; split_and!; reflexivity. }
  assert (Hw0' : heap w0' = heap w0 /\ brk w0' = brk w0 /\ cache w0' = cache w0).
  { unfold lv_fs_read in Hread. repeat case_match; simplify_eq; split_and!; reflexivity. }
  destruct Hw0 as (Hh0 & Hb0 & Hc0). destruct Hw0' as (Hh0' & Hb0' & Hc0').
  apply get_jpeg_size_spec in Hsize as (Hcache & Hbrk & Hheap & Hdims).
  cbn in Hcache, Hbrk, Hheap.
  rewrite Hc0', Hc0 in Hcache. rewrite Hb0', Hb0 in Hbrk, Hheap. rewrite Hh0', Hh0 in Hheap.
  split_and!; try assumption; try reflexivity.
  destruct (Hdims _ _ eq_refl) as (name & f & iw & ih & Hname & Hfile & Hhdr & -> & ->).
  exists name, f, iw, ih. split_and!; try assumption; try reflexivity.
  unfold cstr in *. cbn in Hname. rewrite Hh0', Hh0 in Hname. exact Hname.
Qed.

End Decode.

(** ** The cache index *)

Lemma entry_at_update (a : ptr) (f : lv_cache_entry_t -> lv_cache_entry_t)
    (l : list (ptr * lv_cache_entry_t)) (b : ptr) :
  entry_at (update_entry a f l) b
  = if b =? a then f <$> entry_at l b else entry_at l b.
Proof.
  induction l as [|[c e] l IH]; cbn.
  - destruct (b =? a); reflexivity.
  - destruct (c =? a) eqn:Hca; cbn; destruct (c =? b) eqn:Hcb.
    + apply Z.eqb_eq in Hca, Hcb. subst. rewrite Z.eqb_refl. reflexivity.
    + exact IH.
    + apply Z.eqb_neq in Hca. apply Z.eqb_eq in Hcb. subst.
      destruct (b =? a) eqn:Hba; [apply Z.eqb_eq in Hba; congruence|reflexivity].
    + exact IH.
Qed.

#[local] Arguments update_entry : simpl never.

Lemma entry_matches_heap (w w' : world) (src : ptr) (ty : lv_cache_src_type_t)
    (e : lv_cache_entry_t) :
  heap w' = heap w -> entry_matches w' src ty e = entry_matches w src ty e.
Proof.
  intros Hh. unfold entry_matches, cstr. rewrite Hh. reflexivity.
Qed.

Lemma find_entry_heap (w w' : world) (src : ptr) (ty : lv_cache_src_type_t)
    (l : list (ptr * lv_cache_entry_t)) :
  heap w' = heap w -> find_entry w' src ty l = find_entry w src ty l.
Proof.
  intros Hh. induction l as [|[a e] l IH]; cbn; [reflexivity|].
  rewrite (entry_matches_heap w w') by exact Hh. rewrite IH. reflexivity.
Qed.

Lemma find_entry_same_path (w w' : world) (src src' : ptr)
    (l : list (ptr * lv_cache_entry_t)) :
  heap w' = heap w -> cstr w' src' = cstr w src ->
  find_entry w' src' LV_CACHE_SRC_TYPE_PATH l = find_entry w src LV_CACHE_SRC_TYPE_PATH l.
Proof.
  intros Hh Hs. induction l as [|[a e] l IH]; cbn; [reflexivity|].
  rewrite IH. unfold entry_matches. rewrite Hs.
  unfold cstr at 2 4. rewrite Hh. reflexivity.
Qed.

Lemma find_entry_update (w : world) (src : ptr) (ty : lv_cache_src_type_t)
    (a : ptr) (f : lv_cache_entry_t -> lv_cache_entry_t)
    (l : list (ptr * lv_cache_entry_t)) :
  keeps_identity f ->
  find_entry w src ty (update_entry a f l) = find_entry w src ty l.
Proof.
  intros Hf. induction l as [|[c e] l IH]; [reflexivity|].
  change (update_entry a f ((c, e) :: l))
    with ((if c =? a then (c, f e) else (c, e)) :: update_entry a f l).
  destruct (c =? a); cbn [find_entry]; rewrite IH; [|reflexivity].
  unfold entry_matches. destruct (Hf e) as [-> ->]. reflexivity.
Qed.

Lemma find_entry_found (w : world) (src : ptr) (ty : lv_cache_src_type_t)
    (l : list (ptr * lv_cache_entry_t)) :
  find_entry w src ty l <> NULL -> is_Some (entry_at l (find_entry w src ty l)).
Proof.
  induction l as [|[c e] l IH]; cbn; [congruence|].
  destruct (entry_matches w src ty e).
  - intros _. rewrite Z.eqb_refl. eauto.
  - intros Hne. destruct (c =? find_entry w src ty l); eauto.
Qed.

Lemma add_usage_keeps_identity (d : Z) : keeps_identity (add_usage d).
Proof. intros e. split; reflexivity. Qed.

(** ** try_cache *)

(** A miss changes nothing but the log. *)
Lemma try_cache_miss (dsc dsc' : lv_image_decoder_dsc_t) (w w' : world) :
  try_cache dsc w = ((LV_RESULT_INVALID, dsc'), w') ->
  dsc' = dsc /\ w' = lv_cache_unlock (lv_cache_lock w) /\
  (dsc_src_type dsc = LV_IMAGE_SRC_FILE ->
   find_entry w (dsc_src dsc) LV_CACHE_SRC_TYPE_PATH (cache w) = NULL).
Proof.
  unfold try_cache, lv_cache_find_by_src. intros Hrun.
  destruct (dsc_src_type dsc) eqn:Hty;
    try (simplify_eq; split_and!; [reflexivity..|discriminate]).
  rewrite (find_entry_heap w (lv_cache_lock w)) in Hrun by reflexivity.
  change (cache (lv_cache_lock w)) with (cache w) in Hrun.
  destruct (find_entry w (dsc_src dsc) LV_CACHE_SRC_TYPE_PATH (cache w) =? NULL) eqn:Hf;
    rewrite ?Hf in Hrun; cbn in Hrun; simplify_eq.
  apply Z.eqb_eq in Hf. split_and!; [reflexivity|reflexivity|intros _; exact Hf].
Qed.

(** A hit returns the data of the first entry for the path, and changes
    nothing but the reference count of that entry and the log. *)
Lemma try_cache_hit (dsc dsc' : lv_image_decoder_dsc_t) (w w' : world) :
  try_cache dsc w = ((LV_RESULT_OK, dsc'), w') ->
  let a := find_entry w (dsc_src dsc) LV_CACHE_SRC_TYPE_PATH (cache w) in
  dsc_src_type dsc = LV_IMAGE_SRC_FILE /\ a <> NULL /\
  (exists e, entry_at (cache w) a = Some e /\
     dsc' = Dsc (dsc_src dsc) (dsc_src_type dsc) (e_data e) a) /\
  cache w' = update_entry a (add_usage 1) (cache w) /\
  heap w' = heap w /\ brk w' = brk w /\ oom w' = oom w /\ clock w' = clock w /\
  log w' = EvCacheUnlock :: EvCacheLock :: log w.
Proof.
  unfold try_cache, lv_cache_find_by_src. intros Hrun.
  destruct (dsc_src_type dsc) eqn:Hty; try (simplify_eq; fail).
  rewrite (find_entry_heap w (lv_cache_lock w)) in Hrun by reflexivity.
  change (cache (lv_cache_lock w)) with (cache w) in Hrun.
  destruct (find_entry w (dsc_src dsc) LV_CACHE_SRC_TYPE_PATH (cache w) =? NULL) eqn:Hf;
    rewrite ?Hf in Hrun; cbn in Hrun; simplify_eq.
  apply Z.eqb_neq in Hf. cbn.
  destruct (find_entry_found _ _ _ _ Hf) as [e He].
  split_and!; try reflexivity; try assumption.
  exists e. split; [exact He|].
  unfold lv_cache_get_data. cbn. rewrite entry_at_update, Z.eqb_refl, He. reflexivity.
Qed.

Lemma update_entry_cons (a : ptr) (f : lv_cache_entry_t -> lv_cache_entry_t)
    (c : ptr) (e : lv_cache_entry_t) (l : list (ptr * lv_cache_entry_t)) :
  update_entry a f ((c, e) :: l)
  = (if c =? a then (c, f e) else (c, e)) :: update_entry a f l.
Proof. reflexivity. Qed.

Lemma lv_cache_add_unfold (data : ptr) (data_size data_type memory_usage : Z) (w : world) :
  lv_cache_add data data_size data_type memory_usage w
  = if hd false (oom w)
    then (NULL, World (heap w) (brk w) (tail (oom w)) (clock w) (cache w) (log w))
    else (brk w,
          World (heap w) (brk w + 1) (tail (oom w)) (clock w)
                ((brk w, Entry data data_size data_type memory_usage 0 no_invalidate_cb
                               NULL LV_CACHE_SRC_TYPE_PATH 1) :: cache w)
                (log w)).
Proof. unfold lv_cache_add. destruct (oom w) as [|[] rest]; reflexivity. Qed.

Lemma try_cache_miss_eq (dsc : lv_image_decoder_dsc_t) (w : world) :
  find_entry w (dsc_src dsc) LV_CACHE_SRC_TYPE_PATH (cache w) = NULL ->
  try_cache dsc w = ((LV_RESULT_INVALID, dsc), lv_cache_unlock (lv_cache_lock w)).
Proof.
  intros Hf. unfold try_cache, lv_cache_find_by_src.
  destruct (dsc_src_type dsc); try reflexivity.
  rewrite (find_entry_heap w (lv_cache_lock w)) by reflexivity.
  change (cache (lv_cache_lock w)) with (cache w). rewrite Hf. reflexivity.
Qed.

Lemma try_cache_hit_eq (dsc : lv_image_decoder_dsc_t) (w : world) (e : lv_cache_entry_t) :
  let a := find_entry w (dsc_src dsc) LV_CACHE_SRC_TYPE_PATH (cache w) in
  dsc_src_type dsc = LV_IMAGE_SRC_FILE -> a <> NULL ->
  entry_at (cache w) a = Some e ->
  try_cache dsc w
  = ((LV_RESULT_OK, Dsc (dsc_src dsc) LV_IMAGE_SRC_FILE (e_data e) a),
     World (heap w) (brk w) (oom w) (clock w)
           (update_entry a (add_usage 1) (cache w))
           (EvCacheUnlock :: EvCacheLock :: log w)).
Proof.
  intros a Hty Ha He. unfold try_cache, lv_cache_find_by_src. rewrite Hty.
  rewrite (find_entry_heap w (lv_cache_lock w)) by reflexivity.
  change (cache (lv_cache_lock w)) with (cache w). fold a.
  apply Z.eqb_neq in Ha. rewrite Ha. cbn. rewrite Ha. cbn.
  unfold lv_cache_get_data. cbn. rewrite entry_at_update, Z.eqb_refl, He. reflexivity.
Qed.

Section Open.
Variable fs : string -> option vfile.
Variable jpeg : list byte -> jpeg_image.
Variable build : local_after_longjmp.
Variable decoder : lv_image_decoder_t.

Lemma decoder_open_hit_eq (dsc dsc' : lv_image_decoder_dsc_t) (w w' : world) :
  try_cache dsc w = ((LV_RESULT_OK, dsc'), w') ->
  decoder_open fs jpeg build decoder dsc w = ((LV_RESULT_OK, dsc'), w').
Proof. intros Htc. unfold decoder_open. rewrite Htc. reflexivity. Qed.

(** The miss path of [decoder_open] on a file source: whatever
    [decode_jpeg_file] returns is handed to [lv_cache_add]. When the entry
    record cannot be allocated the call fails and leaves the cache and the
    heap as the decode left them; otherwise a new entry is published and the
    call succeeds. *)
Lemma decoder_open_miss_spec (dsc : lv_image_decoder_dsc_t) (w : world)
    (r : lv_result_t) (dsc' : lv_image_decoder_dsc_t) (w' : world) :
  dsc_src_type dsc = LV_IMAGE_SRC_FILE ->
  find_entry w (dsc_src dsc) LV_CACHE_SRC_TYPE_PATH (cache w) = NULL ->
  0 < brk w ->
  decoder_open fs jpeg build decoder dsc w = ((r, dsc'), w') ->
  exists decoded_img decoded_size w2,
    decode_jpeg_file fs jpeg build (dsc_src dsc) (Some 0) (before_decode w)
    = ((decoded_img, decoded_size), w2) /\
    ((r = LV_RESULT_INVALID /\ dsc' = dsc /\ hd false (oom w2) = true /\
      cache w' = cache w /\ heap w' = heap w2 /\ brk w' = brk w2 /\
      log w' = EvCacheUnlock :: EvCacheLock :: log w2)
     \/ (r = LV_RESULT_OK /\ hd false (oom w2) = false /\
         exists weight n rest,
           dsc' = Dsc (dsc_src dsc) LV_IMAGE_SRC_FILE decoded_img (brk w2) /\
           cache w'
           = (brk w2,
              Entry decoded_img (default 0 decoded_size) (cache_data_type decoder)
                    (default 0 decoded_size) weight cb_cache_invalidate_cb
                    (brk w2 + 1) LV_CACHE_SRC_TYPE_PATH 1) :: rest /\
           (forall a, a <> brk w2 -> entry_at rest a = entry_at (cache w) a) /\
           heap w'
           = <[brk w2 + 1 := Block n (Text (default EmptyString (cstr w2 (dsc_src dsc))))]>
               (heap w2) /\
           brk w' = brk w2 + 2 /\
           log w' = EvCacheUnlock :: EvMalloc (brk w2 + 1) n :: EvCacheLock :: log w2)).
Proof.
  intros Hty Hfind Hbrk Hopen.
  unfold decoder_open in Hopen.
  rewrite (try_cache_miss_eq dsc w Hfind), Hty in Hopen.
  change (lv_tick_get (lv_cache_unlock (lv_cache_lock w)))
    with (fst (lv_tick_get (lv_cache_unlock (lv_cache_lock w))), before_decode w) in Hopen.
  cbn beta iota in Hopen.
  destruct (decode_jpeg_file fs jpeg build (dsc_src dsc) (Some 0) (before_decode w))
    as [[decoded_img decoded_size] w2] eqn:Hdec.
  exists decoded_img, decoded_size, w2. split; [reflexivity|].
  apply decode_jpeg_file_spec in Hdec as (Hcache & _ & Hbrk2 & _).
  unfold lv_tick_elaps, lv_tick_get in Hopen. cbn in Hopen.
  rewrite lv_cache_add_unfold in Hopen. cbn in Hopen.
  destruct (hd false (oom w2)) eqn:Hoom; cbn in Hopen.
  - left. simplify_eq. cbn. split_and!; try reflexivity. exact Hcache.
  - assert (Hnn : (brk w2 =? NULL) = false).
    { apply Z.eqb_neq. unfold NULL. cbn in Hbrk2. lia. }
    rewrite Hnn in Hopen. cbn in Hopen.
    right. simplify_eq. split_and!; try reflexivity.
    unfold lv_cache_get_data, set_cache, cstr. cbn.
    repeat (rewrite update_entry_cons, Z.eqb_refl). cbn. rewrite ?Z.eqb_refl.
    eexists _, _, _. split_and!; try reflexivity; try lia.
    intros a Ha. rewrite !entry_at_update.
    assert ((a =? brk w2) = false) as -> by (apply Z.eqb_neq; exact Ha).
    rewrite Hcache. reflexivity.
Qed.
End Open.

(** ** decoder_open *)

Lemma before_decode_fields (w : world) :
  heap (before_decode w) = heap w /\ brk (before_decode w) = brk w /\
  cache (before_decode w) = cache w.
Proof. split_and!; reflexivity. Qed.

(** C9: an entry that [decoder_open] adds to the cache (one found at an
    address at which the cache had none before the call) has identity kind
    [LV_CACHE_SRC_TYPE_PATH], and its [src] is a block allocated during the
    call, distinct from the caller's string, that holds a copy of the path.
    For a source that is not a file name the call fails and changes neither
    the cache nor the heap: the [LV_CACHE_SRC_TYPE_POINTER] branch is never
    taken. *)
Theorem decoder_open_inserts_only_path_entries
    (fs : string -> option vfile) (jpeg : list byte -> jpeg_image)
    (build : local_after_longjmp)
    (decoder : lv_image_decoder_t) (dsc : lv_image_decoder_dsc_t) (w : world)
    (r : lv_result_t) (dsc' : lv_image_decoder_dsc_t) (w' : world) :
  0 < brk w -> dsc_src dsc < brk w ->
  decoder_open fs jpeg build decoder dsc w = ((r, dsc'), w') ->
  (dsc_src_type dsc <> LV_IMAGE_SRC_FILE ->
     r = LV_RESULT_INVALID /\ dsc' = dsc /\
     cache w' = cache w /\ heap w' = heap w /\ brk w' = brk w) /\
  (forall a e,
     entry_at (cache w') a = Some e -> entry_at (cache w) a = None ->
     dsc_src_type dsc = LV_IMAGE_SRC_FILE /\
     e_src_type e = LV_CACHE_SRC_TYPE_PATH /\
     brk w <= e_src e /\ e_src e <> dsc_src dsc /\
     cstr w' (e_src e) = Some (default EmptyString (cstr w (dsc_src dsc))) /\
     exists n, In (EvMalloc (e_src e) n) (log w')).
Proof.
  intros Hbrk Hsrc Hopen.
  destruct (dsc_src_type dsc) eqn:Hty.
  1,3,4: unfold decoder_open, try_cache in Hopen; rewrite Hty in Hopen;
    cbn in Hopen; simplify_eq; cbn;
    (split; [intros _; split_and!; reflexivity|intros a e H1 H2; congruence]).
  split; [congruence|]. intros a e Hnew Hold.
  destruct (find_entry w (dsc_src dsc) LV_CACHE_SRC_TYPE_PATH (cache w) =? NULL) eqn:Hf.
  - apply Z.eqb_eq in Hf.
    destruct (decoder_open_miss_spec fs jpeg build decoder dsc w r dsc' w' Hty Hf Hbrk Hopen)
      as (img & sz & w2 & Hdec & Hcases).
    apply decode_jpeg_file_spec in Hdec as (_ & _ & Hbrk2 & Hheap2 & _).
    destruct (before_decode_fields w) as (Hh0 & Hb0 & _).
    rewrite Hb0 in Hbrk2, Hheap2. rewrite Hh0 in Hheap2.
    destruct Hcases as [(_ & _ & _ & Hcache & _)
                       |(_ & _ & weight & n & rest & _ & Hcache & Hrest & Hheap & _ & Hlog)].
    + rewrite Hcache in Hnew. congruence.
    + rewrite Hcache in Hnew. cbn in Hnew.
      destruct (brk w2 =? a) eqn:Ha.
      * simplify_eq. cbn. split_and!; try reflexivity; try lia.
        -- assert (Hc : cstr w2 (dsc_src dsc) = cstr w (dsc_src dsc))
             by (unfold cstr; rewrite Hheap2 by lia; reflexivity).
           unfold cstr at 1. rewrite Hheap, lookup_insert_eq, Hc. reflexivity.
        -- exists n. rewrite Hlog. cbn. tauto.
      * apply Z.eqb_neq in Ha. rewrite Hrest in Hnew by congruence. congruence.
  - apply Z.eqb_neq in Hf.
    destruct (find_entry_found _ _ _ _ Hf) as [e0 He0].
    pose proof (try_cache_hit_eq dsc w e0 Hty Hf He0) as Htc.
    rewrite (decoder_open_hit_eq fs jpeg build decoder _ _ _ _ Htc) in Hopen.
    simplify_eq. cbn in Hnew. rewrite entry_at_update, Hold in Hnew.
    destruct (a =? _); discriminate.
Qed.

(** C6: when [decoder_open] has succeeded for a file source, a second call
    for a source naming the same path succeeds on the lookup alone: it
    returns the same data pointer and the same entry, and all it records is
    taking and releasing the cache lock; no file is touched, the engine is
    not driven, and nothing is allocated or freed. *)
Theorem decoder_open_twice_hits_cache
    (fs : string -> option vfile) (jpeg : list byte -> jpeg_image)
    (build : local_after_longjmp)
    (decoder : lv_image_decoder_t) (dsc again : lv_image_decoder_dsc_t)
    (w : world) (path : string) (dsc1 : lv_image_decoder_dsc_t) (w1 : world) :
  0 < brk w -> dsc_src dsc < brk w ->
  dsc_src_type dsc = LV_IMAGE_SRC_FILE ->
  cstr w (dsc_src dsc) = Some path ->
  decoder_open fs jpeg build decoder dsc w = ((LV_RESULT_OK, dsc1), w1) ->
  dsc_src_type again = LV_IMAGE_SRC_FILE -> cstr w1 (dsc_src again) = Some path ->
  exists dsc2 w2,
    decoder_open fs jpeg build decoder again w1 = ((LV_RESULT_OK, dsc2), w2) /\
    img_data dsc2 = img_data dsc1 /\ cache_entry dsc2 = cache_entry dsc1 /\
    log w2 = EvCacheUnlock :: EvCacheLock :: log w1 /\
    heap w2 = heap w1 /\ brk w2 = brk w1 /\
    count is_file_io (log w2) = count is_file_io (log w1) /\
    count is_engine (log w2) = count is_engine (log w1).
Proof.
  intros Hbrk Hsrc Hty Hpath Hopen Hty' Hsame.
  assert (Hhit : forall a e,
            find_entry w1 (dsc_src again) LV_CACHE_SRC_TYPE_PATH (cache w1) = a ->
            a <> NULL -> entry_at (cache w1) a = Some e ->
            img_data dsc1 = e_data e -> cache_entry dsc1 = a ->
            exists dsc2 w2,
              decoder_open fs jpeg build decoder again w1 = ((LV_RESULT_OK, dsc2), w2) /\
              img_data dsc2 = img_data dsc1 /\ cache_entry dsc2 = cache_entry dsc1 /\
              log w2 = EvCacheUnlock :: EvCacheLock :: log w1 /\
              heap w2 = heap w1 /\ brk w2 = brk w1 /\
              count is_file_io (log w2) = count is_file_io (log w1) /\
              count is_engine (log w2) = count is_engine (log w1)).
  { intros a e Hfind Ha He Hdata Hentry. subst a.
    pose proof (try_cache_hit_eq again w1 e Hty' Ha He) as Htc.
    eexists _, _. split; [apply decoder_open_hit_eq; exact Htc|].
    cbn. split_and!; try reflexivity; congruence. }
  destruct (find_entry w (dsc_src dsc) LV_CACHE_SRC_TYPE_PATH (cache w) =? NULL) eqn:Hf.
  - (* the first call decoded the file *)
    apply Z.eqb_eq in Hf.
    destruct (decoder_open_miss_spec fs jpeg build decoder dsc w _ _ _ Hty Hf Hbrk Hopen)
      as (img & sz & w2 & Hdec & Hcases).
    apply decode_jpeg_file_spec in Hdec as (_ & _ & Hbrk2 & Hheap2 & _).
    destruct (before_decode_fields w) as (Hh0 & Hb0 & _).
    rewrite Hb0 in Hbrk2, Hheap2. rewrite Hh0 in Hheap2.
    destruct Hcases as [(? & _)
                       |(_ & _ & weight & n & rest & -> & Hcache & Hrest & Hheap & _ & Hlog)];
      [discriminate|].
    assert (Hc : cstr w2 (dsc_src dsc) = Some path)
      by (unfold cstr; rewrite Hheap2 by lia; exact Hpath).
    assert (Hcopy : cstr w1 (brk w2 + 1) = Some path).
    { unfold cstr at 1. rewrite Hheap, lookup_insert_eq, Hc. reflexivity. }
    eapply (Hhit (brk w2)).
    + rewrite Hcache. cbn. rewrite Hsame, Hcopy.
      rewrite bool_decide_eq_true_2 by reflexivity. reflexivity.
    + unfold NULL. lia.
    + rewrite Hcache. cbn. rewrite Z.eqb_refl. reflexivity.
    + reflexivity.
    + reflexivity.
  - (* the first call was itself a hit *)
    apply Z.eqb_neq in Hf.
    destruct (find_entry_found _ _ _ _ Hf) as [e0 He0].
    pose proof (try_cache_hit_eq dsc w e0 Hty Hf He0) as Htc.
    rewrite (decoder_open_hit_eq fs jpeg build decoder _ _ _ _ Htc) in Hopen.
    simplify_eq.
    eapply (Hhit (find_entry w (dsc_src dsc) LV_CACHE_SRC_TYPE_PATH (cache w))).
    + cbn. rewrite (find_entry_same_path w _ (dsc_src dsc)).
      * apply find_entry_update, add_usage_keeps_identity.
      * reflexivity.
      * rewrite Hpath. exact Hsame.
    + exact Hf.
    + cbn. rewrite entry_at_update, Z.eqb_refl, He0. reflexivity.
    + reflexivity.
    + reflexivity.
Qed.

(** ** Failure recovery in decode_jpeg_file *)

(** X7: in every call of [decode_jpeg_file] during which the engine calls
    [error_exit] (at whatever step: binding the source, parsing the header,
    starting decompression, allocating the row buffer, reading a scanline,
    finishing), the function returns [NULL]; the engine object, created
    once, is destroyed once; the file buffer, the only block obtained from
    [lv_malloc], is passed to [lv_free] once and is no longer allocated; and
    no draw buffer is freed when none was obtained. An output buffer that
    [lv_draw_buf_malloc] had returned before the jump is never passed to
    [lv_free]; it is passed to [lv_draw_buf_free] once when the recovery
    code reads the value last assigned to [output_buffer], and not at all
    when it reads the value [output_buffer] had at [setjmp]. *)
Lemma decode_jpeg_file_error_recovery
    (fs : string -> option vfile) (jpeg : list byte -> jpeg_image)
    (build : local_after_longjmp)
    (fn : ptr) (size : option Z) (w : world)
    (r : ptr) (size' : option Z) (w' : world) (d : list event) :
  decode_jpeg_file fs jpeg build fn size w = ((r, size'), w') ->
  log w' = d ++ log w ->
  In EvErrorExit d ->
  r = NULL /\
  count is_create d = 1%nat /\ count is_destroy d = 1%nat /\
  (exists data dsz,
     data <> NULL /\ mallocs d = [(data, dsz)] /\ frees d = [data] /\
     heap w' !! data = None) /\
  ((Forall (fun pn => fst pn = NULL) (draw_buf_mallocs d) /\ draw_buf_frees d = [])
   \/ (exists p n,
         p <> NULL /\ draw_buf_mallocs d = [(p, n)] /\ ~ In p (frees d) /\
         match build with
         | LastAssigned => draw_buf_frees d = [p] /\ heap w' !! p = None
         | AsAtSetjmp => draw_buf_frees d = [] /\ is_Some (heap w' !! p)
         end)).
Proof.
  intros Hrun Hlog Herr.
  apply decode_jpeg_file_spec in Hrun as (_ & _ & _ & _ & d0 & Hlog0 & Hfail & _).
  assert (d0 = d) as -> by (eapply app_inv_tail; rewrite <- Hlog0; exact Hlog).
  destruct (Hfail Herr) as (-> & Hc & Hx & data & dsz & Hnn & Hm & Hf & Hgone & Hbuf).
  split_and!; try assumption; try reflexivity.
  - exists data, dsz. split_and!; assumption.
  - destruct Hbuf as [(Hnone & Hdf & _)
                     |(p & name & f & ow & oh & oc & Hp & Hpd & _ & _ & _ & Hdm & _ & Hfree)].
    + left. split; assumption.
    + right. exists p, (buffer_size_of ow oh). split_and!; try assumption.
      * rewrite Hf. cbn. intros [Heq|[]]. congruence.
      * destruct build; [exact Hfree|].
        destruct Hfree as (Hdf & filled & Hblock). split; [exact Hdf|]. eauto.
Qed.

(** C2 fails on the code. [output_buffer] is a local that is not
    [volatile] and is assigned after [setjmp]; in a build whose recovery
    code reads the value the local had at [setjmp], the test
    [if(output_buffer)] reads the null pointer. The file holds FF D8 FF E0,
    the engine decodes it as a 2 by 2 image and fails on the second
    scanline: [error_exit] is called once, the function returns [NULL], the
    engine object is destroyed once and the file buffer (block 2) is freed
    once, but the output buffer (block 3, obtained from
    [lv_draw_buf_malloc], one row stored) is passed neither to
    [lv_draw_buf_free] nor to [lv_free] and is still allocated. *)
Theorem decode_jpeg_file_error_skips_output_buffer :
  let run := failed_decode AsAtSetjmp in
  count is_error_exit (log (snd run)) = 1%nat /\
  fst (fst run) = NULL /\
  count is_create (log (snd run)) = 1%nat /\
  count is_destroy (log (snd run)) = 1%nat /\
  mallocs (log (snd run)) = [(2, 4)] /\
  frees (log (snd run)) = [2] /\
  draw_buf_mallocs (log (snd run)) = [(3, 12)] /\
  draw_buf_frees (log (snd run)) = [] /\
  heap (snd run) !! 3 = Some (Block 12 (Pixels 6)).
Proof. vm_compute. repeat split; reflexivity. Qed.



(** ** decoder_open and the result of the decode *)

(** [decoder_open] does not test the pointer returned by
    [decode_jpeg_file]: on the miss path, when the decode has failed and
    the entry record can be allocated, the call succeeds and publishes an
    entry whose data is the null pointer. *)
Lemma decoder_open_publishes_null
    (fs : string -> option vfile) (jpeg : list byte -> jpeg_image)
    (build : local_after_longjmp)
    (decoder : lv_image_decoder_t) (dsc : lv_image_decoder_dsc_t) (w : world)
    (size : option Z) (w2 : world)
    (r : lv_result_t) (dsc' : lv_image_decoder_dsc_t) (w' : world) :
  dsc_src_type dsc = LV_IMAGE_SRC_FILE ->
  find_entry w (dsc_src dsc) LV_CACHE_SRC_TYPE_PATH (cache w) = NULL ->
  0 < brk w ->
  decode_jpeg_file fs jpeg build (dsc_src dsc) (Some 0) (before_decode w) = ((NULL, size), w2) ->
  hd false (oom w2) = false ->
  decoder_open fs jpeg build decoder dsc w = ((r, dsc'), w') ->
  r = LV_RESULT_OK /\ img_data dsc' = NULL /\
  exists e rest,
    cache w' = (cache_entry dsc', e) :: rest /\
    e_data e = NULL /\ e_src_type e = LV_CACHE_SRC_TYPE_PATH.
Proof.
  intros Hty Hfind Hbrk Hdec Hoom Hopen.
  destruct (decoder_open_miss_spec fs jpeg build decoder dsc w r dsc' w' Hty Hfind Hbrk Hopen)
    as (img & sz & w2' & Hdec' & Hcases).
  rewrite Hdec in Hdec'. simplify_eq.
  destruct Hcases as [(_ & _ & Hoom' & _)
                     |(-> & _ & weight & n & rest & -> & Hcache & _)]; [congruence|].
  split_and!; try reflexivity. eexists _, rest. split; [exact Hcache|]. split; reflexivity.
Qed.

(** When the entry record cannot be allocated, [decoder_open] fails
    without releasing the buffer the decode has returned: the buffer is
    still allocated afterwards, the cache does not hold it, and the caller's
    descriptor does not point to it. *)
Lemma decoder_open_insert_failure_keeps_buffer
    (fs : string -> option vfile) (jpeg : list byte -> jpeg_image)
    (build : local_after_longjmp)
    (decoder : lv_image_decoder_t) (dsc : lv_image_decoder_dsc_t) (w : world)
    (img : ptr) (size : option Z) (w2 : world)
    (r : lv_result_t) (dsc' : lv_image_decoder_dsc_t) (w' : world) :
  dsc_src_type dsc = LV_IMAGE_SRC_FILE ->
  find_entry w (dsc_src dsc) LV_CACHE_SRC_TYPE_PATH (cache w) = NULL ->
  0 < brk w ->
  decode_jpeg_file fs jpeg build (dsc_src dsc) (Some 0) (before_decode w) = ((img, size), w2) ->
  img <> NULL ->
  hd false (oom w2) = true ->
  decoder_open fs jpeg build decoder dsc w = ((r, dsc'), w') ->
  r = LV_RESULT_INVALID /\ dsc' = dsc /\ cache w' = cache w /\
  is_Some (heap w' !! img) /\
  exists d, log w' = d ++ log w /\
    ~ In img (frees d) /\ ~ In img (draw_buf_frees d) /\
    In img (map fst (draw_buf_mallocs d)).
Proof.
  intros Hty Hfind Hbrk Hdec Himg Hoom Hopen.
  destruct (decoder_open_miss_spec fs jpeg build decoder dsc w r dsc' w' Hty Hfind Hbrk Hopen)
    as (img' & sz & w2' & Hdec' & Hcases).
  rewrite Hdec in Hdec'. injection Hdec' as <- <- <-.
  destruct Hcases as [(-> & -> & _ & Hcache & Hheap & _ & Hlog)
                     |(_ & Hoom' & _)]; [|congruence].
  apply decode_jpeg_file_spec in Hdec as (_ & _ & _ & _ & d & Hlogd & _ & Hok).
  destruct (Hok Himg) as (_ & _ & _ & Hr & data & dsz & bs & rc & iw & ih & ow & oh & oc
                          & _ & Hf & Hgone & _ & _ & Hdm & Hdf & _ & Hblock & _).
  split_and!; try reflexivity; try assumption.
  - rewrite Hheap, Hblock. eauto.
  - exists (EvCacheUnlock :: EvCacheLock :: d ++ [EvCacheUnlock; EvCacheLock]).
    split_and!.
    + rewrite Hlog, Hlogd. cbn. rewrite <- app_assoc. reflexivity.
    + cbn. unfold frees in *. rewrite pick_app, Hf. cbn.
      intros [Heq|[]]. rewrite Heq, Hblock in Hgone. discriminate.
    + cbn. unfold draw_buf_frees in *. rewrite pick_app, Hdf. cbn. tauto.
    + cbn. unfold draw_buf_mallocs in *. rewrite pick_app, Hdm. cbn. tauto.
Qed.

(** X17: inspect followed by open, when the product fits in 32 bits. For a
    file source that is not cached yet, whose output dimensions are its header
    dimensions (no scaling is requested) and with width * height * 3 below
    2^32, a successful [decoder_info] followed by a [decoder_open] that
    returns a buffer yields a buffer, and a cached size, of exactly
    width * height * 3 bytes. *)
Lemma inspect_open_size_in_range
    (fs : string -> option vfile) (jpeg : list byte -> jpeg_image)
    (build : local_after_longjmp)
    (decoder : lv_image_decoder_t) (src : ptr) (header hdr : lv_image_header_t)
    (w w1 : world) (dsc dsc' : lv_image_decoder_dsc_t) (w2 : world) :
  0 < brk w -> src < brk w ->
  decoder_info fs jpeg decoder src header w = ((LV_RESULT_OK, hdr), w1) ->
  dsc_src dsc = src -> dsc_src_type dsc = LV_IMAGE_SRC_FILE ->
  find_entry w1 src LV_CACHE_SRC_TYPE_PATH (cache w1) = NULL ->
  decoder_open fs jpeg build decoder dsc w1 = ((LV_RESULT_OK, dsc'), w2) ->
  img_data dsc' <> NULL ->
  (forall bs rc iw ih ow oh oc,
     on_read_header (jpeg bs) = Done (rc, iw, ih) ->
     on_start_decompress (jpeg bs) = Done (ow, oh, oc) ->
     wrap32 ow = wrap32 iw /\ wrap32 oh = wrap32 ih) ->
  h_w hdr * h_h hdr * JPEG_PIXEL_SIZE < 2 ^ 32 ->
  b_size <$> heap w2 !! img_data dsc' = Some (h_w hdr * h_h hdr * JPEG_PIXEL_SIZE) /\
  e_data_size <$> entry_at (cache w2) (cache_entry dsc')
  = Some (h_w hdr * h_h hdr * JPEG_PIXEL_SIZE).
Proof.
  intros Hbrk Hsrc Hinfo <- Hty Hfind Hopen Himg Hdims Hfits.
  apply decoder_info_spec in Hinfo
    as (_ & Hbrk1 & Hheap1 & _ & name & f & iw & ih & Hname & Hfile & Hhdr & Hw & Hh).
  destruct (decoder_open_miss_spec fs jpeg build decoder dsc w1 _ _ _ Hty Hfind ltac:(lia) Hopen)
    as (img & sz & w2' & Hdec & Hcases).
  destruct Hcases as [(? & _)
                     |(_ & _ & weight & n & rest & -> & Hcache & _ & Hheap & _)];
    [discriminate|].
  cbn in Himg |- *.
  pose proof Hdec as Hspec.
  apply decode_jpeg_file_spec in Hspec as (_ & _ & _ & _ & d & Hlog & _ & Hok).
  destruct (Hok Himg) as (Hno & Hcreate & _ & Hr & data & dsz & bs & rc0 & iw0 & ih0 & ow0 & oh0
                          & oc0 & _ & _ & _ & _ & _ & Hdm0 & _ & Hsz & Hblock & Hbrk2).
  destruct (decode_jpeg_file_script fs jpeg build _ _ _ _ _ _ d Hdec Hlog Hcreate)
    as (name' & f' & Hname' & Hfile' & Hscript).
  assert (Hsame : cstr (before_decode w1) (dsc_src dsc) = cstr w (dsc_src dsc)).
  { unfold cstr. change (heap (before_decode w1)) with (heap w1).
    rewrite Hheap1 by lia. reflexivity. }
  rewrite Hsame, Hname in Hname'. simplify_eq.
  destruct Hscript as [(Hin & _)|(_ & rc & iw' & ih' & ow & oh & oc & _ & Hhdr' & Hstart
                                  & _ & _ & Hdm & _)]; [contradiction|].
  rewrite Hhdr in Hhdr'. simplify_eq.
  rewrite Hdm0 in Hdm. injection Hdm as Hsize.
  destruct (Hdims _ _ _ _ _ _ _ Hhdr Hstart) as (How & Hoh).
  assert (Hexact : buffer_size_of ow0 oh0 = h_w hdr * h_h hdr * JPEG_PIXEL_SIZE).
  { rewrite Hsize. unfold buffer_size_of. rewrite How, Hoh, <- Hw, <- Hh.
    unfold wrap32 at 1. apply Z.mod_small.
    pose proof (wrap32_nonneg iw'). pose proof (wrap32_nonneg ih').
    rewrite Hw, Hh in *. unfold JPEG_PIXEL_SIZE in *. nia. }
  split.
  - rewrite Hheap, lookup_insert_ne by (change (brk (before_decode w1)) with (brk w1) in *; lia).
    rewrite Hblock. cbn. rewrite Hexact. reflexivity.
  - rewrite Hcache. cbn. rewrite Z.eqb_refl. cbn.
    rewrite Hexact. reflexivity.
Qed.

(** C1 fails on the code. The file holds only FF D8 FF E0 and the engine
    rejects it while parsing the header: [decode_jpeg_file] returns [NULL]
    after one call of [error_exit], and yet [decoder_open] returns
    [LV_RESULT_OK] with a null [img_data], and the cache now holds an entry
    for the path, found by [lv_cache_find_by_src], whose data is null. No
    output buffer exists when the engine fails, so this holds whichever
    value the recovery code reads in [output_buffer]. *)
Theorem decoder_open_caches_failed_decode (build : local_after_longjmp) :
  let fs := sample_fs jfif_prefix in
  let w := sample_world [] in
  let decode :=
    decode_jpeg_file fs engine_rejects_header build 1 (Some 0) (before_decode w) in
  let res := decoder_open fs engine_rejects_header build sample_decoder sample_dsc w in
  fst (fst decode) = NULL /\
  count is_error_exit (log (snd decode)) = 1%nat /\
  fst (fst res) = LV_RESULT_OK /\
  img_data (snd (fst res)) = NULL /\
  cache_entry (snd (fst res)) = 3 /\
  fst (lv_cache_find_by_src 1 LV_CACHE_SRC_TYPE_PATH (snd res)) = 3 /\
  lv_cache_get_data 3 (snd res) = NULL /\
  e_src_type <$> entry_at (cache (snd res)) 3 = Some LV_CACHE_SRC_TYPE_PATH.
Proof. destruct build; vm_compute; repeat split; reflexivity. Qed.

(** C3 fails on the code. The decode succeeds and returns the buffer at
    address 3 (12 bytes, all rows stored); the allocation of the entry
    record then fails. [decoder_open] returns [LV_RESULT_INVALID] and the
    cache stays empty, but the buffer is still allocated, no call of
    [lv_free] or [lv_draw_buf_free] has received it, and the descriptor does
    not refer to it: it is leaked. The recovery code of [decode_jpeg_file]
    is not entered, so this holds in every build. *)
Theorem decoder_open_insert_failure_leaks (build : local_after_longjmp) :
  let fs := sample_fs jfif_prefix in
  let w := sample_world [false; false; true] in
  let decode :=
    decode_jpeg_file fs (engine_decodes 2 2) build 1 (Some 0) (before_decode w) in
  let res := decoder_open fs (engine_decodes 2 2) build sample_decoder sample_dsc w in
  fst (fst decode) = 3 /\
  fst (fst res) = LV_RESULT_INVALID /\
  cache (snd res) = [] /\
  heap (snd res) !! 3 = Some (Block 12 (Pixels 12)) /\
  draw_buf_mallocs (log (snd res)) = [(3, 12)] /\
  draw_buf_frees (log (snd res)) = [] /\
  frees (log (snd res)) = [2] /\
  img_data (snd (fst res)) = NULL /\ cache_entry (snd (fst res)) = NULL.
Proof. destruct build; vm_compute; repeat split; reflexivity. Qed.

(** C7 fails on the code. For an image of 32768 by 43691 pixels, which the
    engine reports both as header dimensions and as output dimensions,
    [decoder_info] succeeds with these dimensions and [decoder_open]
    succeeds, but the buffer it returns was allocated with 32768 bytes, the
    32-bit product of the dimensions and [JPEG_PIXEL_SIZE], while width *
    height * 3 is 4295000064; the scanline loop has stored 4295000064 bytes
    through it. The recovery code of [decode_jpeg_file] is not entered, so
    this holds in every build. *)
Theorem inspect_open_size_overflows (build : local_after_longjmp) :
  let fs := sample_fs jfif_prefix in
  let jpeg := engine_decodes 32768 43691 in
  let inspect := decoder_info fs jpeg sample_decoder 1
                   (Header LV_COLOR_FORMAT_UNKNOWN 0 0) (sample_world []) in
  let res := decoder_open fs jpeg build sample_decoder sample_dsc (snd inspect) in
  fst (fst inspect) = LV_RESULT_OK /\
  h_w (snd (fst inspect)) = 32768 /\
  h_h (snd (fst inspect)) = 43691 /\
  fst (fst res) = LV_RESULT_OK /\
  b_size <$> heap (snd res) !! img_data (snd (fst res)) = Some 32768 /\
  e_data_size <$> entry_at (cache (snd res)) (cache_entry (snd (fst res))) = Some 32768 /\
  b_data <$> heap (snd res) !! img_data (snd (fst res)) = Some (Pixels 4295000064) /\
  h_w (snd (fst inspect)) * h_h (snd (fst inspect)) * 3 = 4295000064.
Proof. destruct build; vm_compute; repeat split; reflexivity. Qed.

(** ** The signature check inside decoder_info *)

(** C5: the bytes FF D8 FF E0 pass the signature check and the bytes
    00 00 00 00 fail it; accordingly [decoder_info], on a readable file that
    starts with FF D8 FF E0, goes on to the header probe and returns what
    [get_jpeg_size] decides, and on a readable file that starts with
    00 00 00 00 returns [LV_RESULT_INVALID] right after reading the
    signature. *)
Theorem signature_check_examples
    (fs : string -> option vfile) (jpeg : list byte -> jpeg_image)
    (decoder : lv_image_decoder_t) (header : lv_image_header_t) (w : world)
    (src1 src0 : ptr) (name1 name0 : string) (f1 f0 : vfile) (rest1 rest0 : list byte) :
  src1 <> NULL -> cstr w src1 = Some name1 -> fs name1 = Some f1 ->
  f_read f1 = LV_FS_RES_OK -> f_bytes f1 = xff :: xd8 :: xff :: xe0 :: rest1 ->
  src0 <> NULL -> cstr w src0 = Some name0 -> fs name0 = Some f0 ->
  f_read f0 = LV_FS_RES_OK -> f_bytes f0 = x00 :: x00 :: x00 :: x00 :: rest0 ->
  IS_JPEG_SIGNATURE (load_u32 [xff; xd8; xff; xe0]) = true /\
  IS_JPEG_SIGNATURE (load_u32 [x00; x00; x00; x00]) = false /\
  decoder_info fs jpeg decoder src1 header w
  = match get_jpeg_size fs jpeg src1 (after_signature_read w) with
    | (None, w') => ((LV_RESULT_INVALID, header), w')
    | (Some (width, height), w') =>
        ((LV_RESULT_OK, Header LV_COLOR_FORMAT_RGB888 width height), w')
    end /\
  decoder_info fs jpeg decoder src0 header w
  = ((LV_RESULT_INVALID, header), after_signature_read w).
Proof.
  intros Hsrc1 Hname1 Hfile1 Hread1 Hbytes1 Hsrc0 Hname0 Hfile0 Hread0 Hbytes0.
  assert (Hty : forall src name, src <> NULL -> cstr w src = Some name ->
            lv_image_src_get_type w src = LV_IMAGE_SRC_FILE).
  { intros src name Hsrc Hname. unfold lv_image_src_get_type.
    apply Z.eqb_neq in Hsrc. rewrite Hsrc, Hname. reflexivity. }
  assert (Hopen : forall src name f, cstr w src = Some name -> fs name = Some f ->
            lv_fs_open fs src w = ((LV_FS_RES_OK, File f 0), emit EvFsOpen w)).
  { intros src name f Hname Hfile. unfold lv_fs_open.
    change (cstr (emit EvFsOpen w) src) with (cstr w src). rewrite Hname, Hfile. reflexivity. }
  split; [reflexivity|]. split; [reflexivity|]. split.
  - unfold decoder_info. rewrite (Hty _ _ Hsrc1 Hname1), (Hopen _ _ _ Hname1 Hfile1). cbn.
    unfold lv_fs_read. cbn. rewrite Hread1, Hbytes1. reflexivity.
  - unfold decoder_info. rewrite (Hty _ _ Hsrc0 Hname0), (Hopen _ _ _ Hname0 Hfile0). cbn.
    unfold lv_fs_read. cbn. rewrite Hread0, Hbytes0. reflexivity.
Qed.

(** ** The theorems at sample inputs *)

(** The recovery lemma on the failed 2 by 2 decode, in a build whose
    recovery code reads the value last assigned to [output_buffer]: there
    the output buffer is freed once. *)
Example failed_decode_releases_in_memory_build :
  log (snd (failed_decode LastAssigned)) = failed_decode_log ++ log (sample_world []) /\
  In EvErrorExit failed_decode_log /\
  fst (fst (failed_decode LastAssigned)) = NULL /\
  count is_create failed_decode_log = 1%nat /\
  count is_destroy failed_decode_log = 1%nat /\
  (exists data dsz,
     data <> NULL /\ mallocs failed_decode_log = [(data, dsz)] /\
     frees failed_decode_log = [data] /\
     heap (snd (failed_decode LastAssigned)) !! data = None) /\
  ((Forall (fun pn => fst pn = NULL) (draw_buf_mallocs failed_decode_log) /\
    draw_buf_frees failed_decode_log = [])
   \/ (exists p n,
         p <> NULL /\ draw_buf_mallocs failed_decode_log = [(p, n)] /\
         ~ In p (frees failed_decode_log) /\
         draw_buf_frees failed_decode_log = [p] /\
         heap (snd (failed_decode LastAssigned)) !! p = None)).
Proof.
  split; [vm_compute; reflexivity|].
  split; [repeat (first [left; reflexivity | right])|].
  apply (decode_jpeg_file_error_recovery
           (sample_fs jfif_prefix) (engine_fails_at_row 2 2 1) LastAssigned 1 (Some 0)
           (sample_world [])
           (fst (fst (failed_decode LastAssigned))) (snd (fst (failed_decode LastAssigned)))
           (snd (failed_decode LastAssigned)) failed_decode_log).
  - vm_compute. reflexivity.
  - vm_compute. reflexivity.
  - repeat (first [left; reflexivity | right]).
Defined.


Lemma decoder_open_twice_hits_cache_witness :
  first_open = ((LV_RESULT_OK, snd (fst first_open)), snd first_open) /\
  exists dsc2 w2,
    decoder_open (sample_fs jfif_prefix) (engine_decodes 2 2) LastAssigned sample_decoder sample_dsc
      (snd first_open) = ((LV_RESULT_OK, dsc2), w2) /\
    img_data dsc2 = img_data (snd (fst first_open)) /\
    cache_entry dsc2 = cache_entry (snd (fst first_open)) /\
    log w2 = EvCacheUnlock :: EvCacheLock :: log (snd first_open) /\
    heap w2 = heap (snd first_open) /\ brk w2 = brk (snd first_open) /\
    count is_file_io (log w2) = count is_file_io (log (snd first_open)) /\
    count is_engine (log w2) = count is_engine (log (snd first_open)).
Proof.
  split; [vm_compute; reflexivity|].
  apply (decoder_open_twice_hits_cache
           (sample_fs jfif_prefix) (engine_decodes 2 2) LastAssigned sample_decoder
           sample_dsc sample_dsc
           (sample_world []) "A:img.jpg"%string).
  - reflexivity.
  - reflexivity.
  - reflexivity.
  - vm_compute. reflexivity.
  - vm_compute. reflexivity.
  - reflexivity.
  - vm_compute. reflexivity.
Defined.

Lemma decoder_open_inserts_only_path_entries_witness :
  0 < brk (sample_world []) /\ dsc_src sample_dsc < brk (sample_world []) /\
  (dsc_src_type sample_dsc <> LV_IMAGE_SRC_FILE ->
     fst (fst first_open) = LV_RESULT_INVALID /\ snd (fst first_open) = sample_dsc /\
     cache (snd first_open) = cache (sample_world []) /\
     heap (snd first_open) = heap (sample_world []) /\
     brk (snd first_open) = brk (sample_world [])) /\
  (forall a e,
     entry_at (cache (snd first_open)) a = Some e ->
     entry_at (cache (sample_world [])) a = None ->
     dsc_src_type sample_dsc = LV_IMAGE_SRC_FILE /\
     e_src_type e = LV_CACHE_SRC_TYPE_PATH /\
     brk (sample_world []) <= e_src e /\ e_src e <> dsc_src sample_dsc /\
     cstr (snd first_open) (e_src e)
     = Some (default EmptyString (cstr (sample_world []) (dsc_src sample_dsc))) /\
     exists n, In (EvMalloc (e_src e) n) (log (snd first_open))).
Proof.
  split; [reflexivity|]. split; [reflexivity|].
  apply (decoder_open_inserts_only_path_entries
           (sample_fs jfif_prefix) (engine_decodes 2 2) LastAssigned sample_decoder sample_dsc
           (sample_world []) (fst (fst first_open)) (snd (fst first_open)) (snd first_open)).
  - reflexivity.
  - reflexivity.
  - vm_compute. reflexivity.
Defined.

Lemma signature_check_examples_witness :
  IS_JPEG_SIGNATURE (load_u32 [xff; xd8; xff; xe0]) = true /\
  IS_JPEG_SIGNATURE (load_u32 [x00; x00; x00; x00]) = false /\
  decoder_info two_files engine_rejects_header sample_decoder 1 blank_header two_names_world
  = match get_jpeg_size two_files engine_rejects_header 1
            (after_signature_read two_names_world) with
    | (None, w') => ((LV_RESULT_INVALID, blank_header), w')
    | (Some (width, height), w') =>
        ((LV_RESULT_OK, Header LV_COLOR_FORMAT_RGB888 width height), w')
    end /\
  decoder_info two_files engine_rejects_header sample_decoder 2 blank_header two_names_world
  = ((LV_RESULT_INVALID, blank_header), after_signature_read two_names_world).
Proof.
  apply (signature_check_examples
           two_files engine_rejects_header sample_decoder blank_header two_names_world
           1 2 "A:img.jpg"%string "A:zero.bin"%string
           (ok_file jfif_prefix) (ok_file [x00; x00; x00; x00]) [] []).
  - discriminate.
  - vm_compute. reflexivity.
  - reflexivity.
  - reflexivity.
  - reflexivity.
  - discriminate.
  - vm_compute. reflexivity.
  - reflexivity.
  - reflexivity.
  - reflexivity.
Defined.

(** ** The supporting lemmas at sample inputs *)

(** The miss path on a file the engine rejects: the rejected header is
    signalled through [error_exit]. *)
Example rejected_header_is_signalled :
  In EvErrorExit
    (log (snd (decode_jpeg_file (sample_fs jfif_prefix) engine_rejects_header LastAssigned 1
                 (Some 0) (sample_world [])))).
Proof.
  set (run := decode_jpeg_file (sample_fs jfif_prefix) engine_rejects_header LastAssigned 1 (Some 0)
                (sample_world [])).
  apply (engine_failure_is_signalled (sample_fs jfif_prefix) engine_rejects_header
           LastAssigned 1 (Some 0)
           (sample_world []) (fst (fst run)) (snd (fst run)) (snd run)
           (log (snd run)) "A:img.jpg"%string (ok_file jfif_prefix)).
  - vm_compute. reflexivity.
  - vm_compute. reflexivity.
  - vm_compute. reflexivity.
  - vm_compute. reflexivity.
  - reflexivity.
  - right. left. reflexivity.
Defined.

(** Inspect and open of a 2 by 2 image: the buffer has 12 bytes. *)
Example small_image_size :
  let inspect := decoder_info (sample_fs jfif_prefix) (engine_decodes 2 2) sample_decoder 1
                   blank_header (sample_world []) in
  let res := decoder_open (sample_fs jfif_prefix) (engine_decodes 2 2) LastAssigned sample_decoder
               sample_dsc (snd inspect) in
  b_size <$> heap (snd res) !! img_data (snd (fst res))
  = Some (h_w (snd (fst inspect)) * h_h (snd (fst inspect)) * JPEG_PIXEL_SIZE) /\
  e_data_size <$> entry_at (cache (snd res)) (cache_entry (snd (fst res)))
  = Some (h_w (snd (fst inspect)) * h_h (snd (fst inspect)) * JPEG_PIXEL_SIZE).
Proof.
  intros inspect res.
  apply (inspect_open_size_in_range (sample_fs jfif_prefix) (engine_decodes 2 2) LastAssigned
           sample_decoder 1 blank_header (snd (fst inspect)) (sample_world []) (snd inspect)
           sample_dsc (snd (fst res)) (snd res)).
  - reflexivity.
  - reflexivity.
  - vm_compute. reflexivity.
  - reflexivity.
  - reflexivity.
  - vm_compute. reflexivity.
  - vm_compute. reflexivity.
  - vm_compute. discriminate.
  - intros bs rc iw ih ow oh oc Hh Hs. cbn in Hh, Hs. simplify_eq. split; reflexivity.
  - vm_compute. reflexivity.
Defined.

(** The two general lemmas on [decoder_open] apply to the sample runs of
    C1 and C3. *)
Example failed_decode_is_published :
  let res := decoder_open (sample_fs jfif_prefix) engine_rejects_header LastAssigned sample_decoder
               sample_dsc (sample_world []) in
  fst (fst res) = LV_RESULT_OK /\ img_data (snd (fst res)) = NULL /\
  exists e rest,
    cache (snd res) = (cache_entry (snd (fst res)), e) :: rest /\
    e_data e = NULL /\ e_src_type e = LV_CACHE_SRC_TYPE_PATH.
Proof.
  intros res.
  set (run := decode_jpeg_file (sample_fs jfif_prefix) engine_rejects_header LastAssigned 1 (Some 0)
                (before_decode (sample_world []))).
  apply (decoder_open_publishes_null (sample_fs jfif_prefix) engine_rejects_header LastAssigned
           sample_decoder sample_dsc (sample_world []) (snd (fst run)) (snd run)).
  - reflexivity.
  - reflexivity.
  - reflexivity.
  - vm_compute. reflexivity.
  - vm_compute. reflexivity.
  - vm_compute. reflexivity.
Qed.

Example unpublished_buffer_stays_allocated :
  let res := decoder_open (sample_fs jfif_prefix) (engine_decodes 2 2) LastAssigned sample_decoder
               sample_dsc (sample_world [false; false; true]) in
  fst (fst res) = LV_RESULT_INVALID /\ snd (fst res) = sample_dsc /\
  cache (snd res) = cache (sample_world [false; false; true]) /\
  is_Some (heap (snd res) !! 3) /\
  exists d, log (snd res) = d ++ log (sample_world [false; false; true]) /\
    ~ In 3 (frees d) /\ ~ In 3 (draw_buf_frees d) /\
    In 3 (map fst (draw_buf_mallocs d)).
Proof.
  intros res.
  set (run := decode_jpeg_file (sample_fs jfif_prefix) (engine_decodes 2 2) LastAssigned 1 (Some 0)
                (before_decode (sample_world [false; false; true]))).
  apply (decoder_open_insert_failure_keeps_buffer (sample_fs jfif_prefix)
           (engine_decodes 2 2) LastAssigned
           sample_decoder sample_dsc (sample_world [false; false; true])
           3 (snd (fst run)) (snd run)).
  - reflexivity.
  - reflexivity.
  - reflexivity.
  - vm_compute. reflexivity.
  - discriminate.
  - vm_compute. reflexivity.
  - vm_compute. reflexivity.
Qed.

(** * Further properties of the decoder

    Resources, file handles and the cache lock over whole calls of
    [alloc_file], [decode_jpeg_file], [get_jpeg_size], [decoder_info],
    [decoder_open], [decoder_close] and [cache_invalidate_cb]. *)

(** ** alloc_file: the file handle and the buffer *)

(** What [alloc_file] records: no cache lock, one attempt to open the
    file, one close exactly when the file could be opened, and nothing else
    when it could not. When it fails, [*size] is 0, every block obtained
    from [lv_malloc] was freed and the heap is as before. *)
Lemma alloc_file_effects (fs : string -> option vfile) (fn : ptr) (w : world)
    (data : ptr) (dsz : Z) (w1 : world) :
  alloc_file fs fn w = ((data, dsz), w1) ->
  exists d, log w1 = d ++ log w /\
    Forall (fun e => is_cache_lock e = false) d /\
    count is_fs_open d = 1%nat /\
    count is_fs_close d = match file_named fs w fn with Some _ => 1%nat | None => O end /\
    (file_named fs w fn = None -> d = [EvFsOpen]) /\
    (data = NULL ->
       dsz = 0 /\ frees d = obtained (mallocs d) /\
       (brk w <> NULL -> heap w !! brk w = None -> heap w1 = heap w)).
Proof.
  unfold alloc_file, lv_fs_open, lv_fs_seek, lv_fs_tell, lv_fs_read, lv_fs_close,
    lv_malloc, lv_free, request, store_bytes, set_heap, emit, file_named.
  intros Heq.
  change (cstr (World (heap w) (brk w) (oom w) (clock w) (cache w) (EvFsOpen :: log w)) fn)
    with (cstr w fn) in Heq.
  repeat (case_match; simplify_eq; cbn in * ).
  all: exists_log_prefix.
  all: split; [repeat constructor|split; [reflexivity|split; [reflexivity|]]].
  all: split; [intros Hnone; first [reflexivity|discriminate]|].
  all: intros Hnn.
  all: repeat match goal with
             | H : (_ =? _) = true |- _ => apply Z.eqb_eq in H
             | H : (_ =? _) = false |- _ => apply Z.eqb_neq in H
             end; try (exfalso; congruence).
  all: split; [reflexivity|split].
  all: try reflexivity.
  all: try (unfold obtained; cbn;
            match goal with
            | |- context [?a =? NULL] =>
                let E := fresh in
                destruct (a =? NULL) eqn:E;
                  [apply Z.eqb_eq in E; first [congruence|reflexivity]
                  |first [reflexivity|apply Z.eqb_neq in E; congruence]]
            end).
  all: intros Hbrk Hfresh; try (exfalso; congruence).
  all: rewrite ?insert_insert_eq, ?delete_insert_eq; try reflexivity.
  all: apply delete_id; exact Hfresh.
Qed.

(** The bytes loaded from a file are a prefix of the file, all of it when
    its length fits in 32 bits. *)
Lemma file_image_length (f : vfile) :
  Z.of_nat (length (file_image f)) = wrap32 (Z.of_nat (length (f_bytes f))).
Proof.
  unfold file_image. rewrite length_take.
  assert (0 <= wrap32 (Z.of_nat (length (f_bytes f))) <= Z.of_nat (length (f_bytes f))).
  { unfold wrap32. split; [apply Z.mod_pos_bound; lia|apply Z.mod_le; lia]. }
  lia.
Qed.

Lemma file_image_small (f : vfile) :
  Z.of_nat (length (f_bytes f)) < 2 ^ 32 -> file_image f = f_bytes f.
Proof.
  intros Hlen. unfold file_image, wrap32. rewrite Z.mod_small by lia.
  rewrite Nat2Z.id. apply firstn_all.
Qed.

(** The result of [alloc_file] on a file whose driver serves every
    request, when the allocation succeeds. *)
Lemma alloc_file_eq (fs : string -> option vfile) (fn : ptr) (w : world)
    (name : string) (f : vfile) :
  cstr w fn = Some name -> fs name = Some f ->
  f_seek f LV_FS_SEEK_END = LV_FS_RES_OK -> f_tell f = LV_FS_RES_OK ->
  f_seek f LV_FS_SEEK_SET = LV_FS_RES_OK -> f_read f = LV_FS_RES_OK ->
  hd false (oom w) = false -> brk w <> NULL ->
  let n := Z.of_nat (length (file_image f)) in
  alloc_file fs fn w
  = ((brk w, n),
     World (<[brk w := Block n (Bytes (file_image f))]> (heap w)) (brk w + 1)
           (tail (oom w)) (clock w) (cache w)
           ([EvFsClose; EvFsRead; EvMalloc (brk w) n; EvFsSeek; EvFsTell; EvFsSeek; EvFsOpen]
              ++ log w)).
Proof.
  intros Hname Hfile Hend Htell Hset Hread Hoom Hbrk n.
  unfold alloc_file, lv_fs_open.
  change (cstr (emit EvFsOpen w) fn) with (cstr w fn). rewrite Hname, Hfile. cbn.
  unfold lv_fs_seek. cbn. rewrite Hend. cbn.
  unfold lv_fs_tell. cbn. rewrite Htell. cbn. rewrite Hset. cbn.
  unfold lv_malloc. rewrite request_unfold. cbn. rewrite Hoom.
  apply Z.eqb_neq in Hbrk. rewrite Hbrk.
  unfold lv_fs_read. cbn. rewrite Hread. cbn.
  change (wrap32 (0 + 0)) with 0. change (Z.to_nat 0) with O. rewrite drop_0.
  rewrite Z.add_0_r. fold (file_image f). fold n.
  unfold n at 1. rewrite file_image_length, Z.eqb_refl. cbn.
  unfold store_bytes, set_heap, lv_fs_close, emit. cbn.
  rewrite lookup_insert_eq, insert_insert_eq.
  unfold n. rewrite file_image_length. reflexivity.
Qed.

(** ** The heap and the log after decode_jpeg_file *)

#[local] Arguments request : simpl never.

Section Effects.
Variable fs : string -> option vfile.
Variable jpeg : list byte -> jpeg_image.
Variable build : local_after_longjmp.

(** The scanline loop reads at most the remaining rows, and each of them
    once when it returns. *)
Lemma read_rows_effects (todo : nat) :
  forall cinfo dst cur stride fr res fr',
  read_rows jpeg todo cinfo dst cur stride fr = (res, fr') ->
  exists d, log (fr_world fr') = d ++ log (fr_world fr) /\
    Forall (fun e => is_cache_lock e = false) d /\
    (count is_read_scanlines d <= todo)%nat /\
    (forall c, res = Ret c -> count is_read_scanlines d = todo).
Proof.
  induction todo as [|todo IH]; intros cinfo dst cur stride fr res fr' Hrun.
  - unfold read_rows, jret in Hrun. simplify_eq.
    exists []. split_and!; try constructor; reflexivity.
  - cbn [read_rows] in Hrun.
    unfold jpeg_read_scanlines, engine_step, jbind, exec, jret, error_exit in Hrun.
    cbn in Hrun.
    destruct (on_read_scanlines (jpeg (ci_src cinfo)) (output_scanline cinfo)) as [[]|];
      cbn in Hrun.
    + apply IH in Hrun as (d & Hlog & Hd & Hle & Heq). cbn in Hlog.
      exists (d ++ [EvJpegReadScanlines]). split_and!.
      * rewrite Hlog, <- app_assoc. reflexivity.
      * apply Forall_app. split; [exact Hd|]. repeat constructor.
      * rewrite count_app. cbn. lia.
      * intros c Hc. rewrite count_app, (Heq c Hc). cbn. lia.
    + simplify_eq. cbn. exists [EvErrorExit; EvJpegReadScanlines].
      split_and!; try reflexivity.
      * repeat constructor.
      * cbn. lia.
      * intros c Hc. discriminate.
Qed.

Ltac effects_leaf :=
  simplify_eq; cbn; exists_log_prefix;
  split; [repeat constructor|];
  try (left; split_and!; reflexivity).

(** The heap after the guarded region in terms of the heap before it, and
    the number of scanlines read. *)
Lemma decode_guarded_effects (data : ptr) (dsz : Z) (w0 : world) (size : option Z)
    (res : jres ptr) (fr : frame) :
  decode_guarded jpeg data dsz (Frame w0 NULL size) = (res, fr) ->
  brk w0 <> NULL ->
  let img := jpeg (bytes_at w0 data dsz) in
  let w' := fr_world fr in
  exists d, log w' = d ++ log w0 /\
    Forall (fun e => is_cache_lock e = false) d /\
    match res with
    | Ret r =>
        (r = NULL /\ hd false (oom w0) = true /\
         heap w' = delete data (heap w0) /\ count is_read_scanlines d = O)
        \/ (r = brk w0 /\ hd false (oom w0) = false /\
            exists blk ow oh oc,
              on_start_decompress img = Done (ow, oh, oc) /\
              heap w' = delete data (<[brk w0 := blk]> (heap w0)) /\
              count is_read_scanlines d = Z.to_nat (wrap32 oh))
    | Longjmp =>
        (output_buffer fr = NULL /\ heap w' = heap w0 /\
         count is_read_scanlines d = O)
        \/ (output_buffer fr = brk w0 /\
            exists blk, heap w' = <[brk w0 := blk]> (heap w0))
    end.
Proof.
  intros Hrun Hbrk img w'. subst w'.
  unfold decode_guarded, jpeg_create_decompress, jpeg_mem_src, jpeg_read_header,
    jpeg_start_decompress, alloc_sarray, jpeg_finish_decompress, engine_step,
    jbind, exec, call, jret, error_exit, set_output_buffer, store_size,
    get_output_buffer, lv_draw_buf_malloc in Hrun.
  cbn in Hrun.
  change (bytes_at (emit EvJpegCreate w0) data dsz) with (bytes_at w0 data dsz) in Hrun.
  fold img in Hrun.
  destruct (on_mem_src img) as [[]|] eqn:Hsrc; cbn in Hrun; [|effects_leaf].
  fold img in Hrun.
  destruct (on_read_header img) as [[[rc iw] ih]|] eqn:Hhdr; cbn in Hrun; [|effects_leaf].
  fold img in Hrun.
  destruct (on_start_decompress img) as [[[ow oh] oc]|] eqn:Hstart; cbn in Hrun; [|effects_leaf].
  fold img in Hrun.
  destruct (on_alloc_sarray img) as [[]|] eqn:Hsarray; cbn in Hrun; [|effects_leaf].
  fold (buffer_size_of ow oh) in Hrun.
  rewrite request_unfold in Hrun. cbn in Hrun.
  destruct (hd false (oom w0)) eqn:Hoom; cbn in Hrun.
  - fold img in Hrun.
    destruct (on_finish_decompress img) as [[]|] eqn:Hfin; cbn in Hrun; effects_leaf.
  - apply Z.eqb_neq in Hbrk. rewrite Hbrk in Hrun. cbn in Hrun.
    apply Z.eqb_neq in Hbrk.
    fold (size_after size (buffer_size_of ow oh)) in Hrun.
    match type of Hrun with
    | context [read_rows ?j ?n ?c ?d ?cur ?st ?f] =>
        destruct (read_rows j n c d cur st f) as [res1 fr1] eqn:Hloop
    end.
    pose proof Hloop as Hloop'.
    apply read_rows_effects in Hloop' as (d & Hlog & Hd & Hle & Hcount).
    apply read_rows_spec in Hloop
      as (Hob & _ & _ & _ & _ & _ & Hheap & Hdst & d' & _ & _ & Hres).
    cbn in Hob, Hheap, Hdst, Hlog, Hres.
    destruct (Hdst (buffer_size_of ow oh) 0) as (filled & Hfilled & _);
      [apply lookup_insert_eq|].
    assert (Hshape : heap (fr_world fr1)
                     = <[brk w0 := Block (buffer_size_of ow oh) (Pixels filled)]> (heap w0)).
    { apply map_eq. intros q. destruct (decide (q = brk w0)) as [->|Hq].
      - rewrite lookup_insert_eq. exact Hfilled.
      - rewrite Hheap by exact Hq. rewrite !lookup_insert_ne by congruence. reflexivity. }
    set (tl_log := [EvDrawBufMalloc (brk w0) (buffer_size_of ow oh); EvJpegAllocSarray;
                    EvJpegStartDecompress; EvJpegReadHeader; EvJpegMemSrc; EvJpegCreate]).
    assert (Hlog' : log (fr_world fr1) = (d ++ tl_log) ++ log w0).
    { rewrite Hlog, <- app_assoc. reflexivity. }
    assert (Htl : Forall (fun e => is_cache_lock e = false) (d ++ tl_log)).
    { apply Forall_app. split; [exact Hd|]. repeat constructor. }
    destruct res1 as [c|]; cbn in Hrun.
    + pose proof (Hcount c eq_refl) as Hn. rewrite Z.sub_0_r in Hn.
      destruct Hres as (_ & Hcsrc & _). rewrite Hcsrc in Hrun. fold img in Hrun.
      destruct (on_finish_decompress img) as [[]|] eqn:Hfin; cbn in Hrun;
        simplify_eq; cbn.
      * exists (EvFree data :: EvJpegDestroy :: EvJpegFinishDecompress :: d ++ tl_log).
        split_and!.
        -- rewrite Hlog'. reflexivity.
        -- repeat (constructor; [reflexivity|]). exact Htl.
        -- right. split_and!; try reflexivity; try assumption.
           eexists _, ow, oh, oc. split_and!; try reflexivity.
           ++ rewrite Hshape. reflexivity.
           ++ cbn. rewrite count_app, Hn. cbn. lia.
      * exists (EvErrorExit :: EvJpegFinishDecompress :: d ++ tl_log).
        split_and!.
        -- rewrite Hlog'. reflexivity.
        -- repeat (constructor; [reflexivity|]). exact Htl.
        -- right. split; [exact Hob|]. eexists. exact Hshape.
    + simplify_eq. exists (d ++ tl_log). split_and!.
      * exact Hlog'.
      * exact Htl.
      * right. split; [exact Hob|]. eexists. exact Hshape.
Qed.

(** [decode_jpeg_file] never takes the cache lock. *)
Ltac no_lock_leaf :=
  simplify_eq; cbn; exists_log_prefix; repeat constructor.

Lemma decode_guarded_no_lock (data : ptr) (dsz : Z) (w0 : world) (size : option Z)
    (res : jres ptr) (fr : frame) :
  decode_guarded jpeg data dsz (Frame w0 NULL size) = (res, fr) ->
  exists d, log (fr_world fr) = d ++ log w0 /\
    Forall (fun e => is_cache_lock e = false) d.
Proof.
  intros Hrun. destruct (decide (brk w0 = NULL)) as [Hb|Hb].
  2:{ destruct (decode_guarded_effects _ _ _ _ _ _ Hrun Hb) as (d & Hlog & Hd & _). eauto. }
  unfold decode_guarded, jpeg_create_decompress, jpeg_mem_src, jpeg_read_header,
    jpeg_start_decompress, alloc_sarray, jpeg_finish_decompress, engine_step,
    jbind, exec, call, jret, error_exit, set_output_buffer, store_size,
    get_output_buffer, lv_draw_buf_malloc in Hrun.
  cbn in Hrun.
  destruct (on_mem_src _) as [[]|]; cbn in Hrun; [|no_lock_leaf].
  destruct (on_read_header _) as [[[rc iw] ih]|]; cbn in Hrun; [|no_lock_leaf].
  destruct (on_start_decompress _) as [[[ow oh] oc]|]; cbn in Hrun; [|no_lock_leaf].
  destruct (on_alloc_sarray _) as [[]|]; cbn in Hrun; [|no_lock_leaf].
  rewrite request_unfold in Hrun. cbn in Hrun.
  destruct (hd false (oom w0)); cbn in Hrun.
  - destruct (on_finish_decompress _) as [[]|]; cbn in Hrun; no_lock_leaf.
  - apply Z.eqb_eq in Hb. rewrite Hb in Hrun. cbn in Hrun.
    destruct (on_finish_decompress _) as [[]|]; cbn in Hrun; no_lock_leaf.
Qed.

Lemma decode_jpeg_file_no_lock (fn : ptr) (size : option Z) (w : world)
    (r : ptr) (size' : option Z) (w' : world) :
  decode_jpeg_file fs jpeg build fn size w = ((r, size'), w') ->
  exists d, log w' = d ++ log w /\
    Forall (fun e => is_cache_lock e = false) d.
Proof.
  unfold decode_jpeg_file. intros Hrun.
  destruct (alloc_file fs fn w) as [[data dsz] w1] eqn:Halloc.
  apply alloc_file_effects in Halloc as (d1 & Hlog1 & Hlock1 & _).
  destruct (data =? NULL).
  - simplify_eq. eauto.
  - unfold setjmp in Hrun.
    destruct (decode_guarded jpeg data dsz (Frame w1 NULL size)) as [res fr] eqn:Hg.
    apply decode_guarded_no_lock in Hg as (d2 & Hlog2 & Hlock2).
    assert (Hboth : Forall (fun e => is_cache_lock e = false) (d2 ++ d1))
      by (apply Forall_app; split; assumption).
    destruct res as [r0|].
    + simplify_eq. exists (d2 ++ d1). split; [|exact Hboth].
      rewrite Hlog2, Hlog1, app_assoc. reflexivity.
    + unfold decode_recover in Hrun. cbn in Hrun.
      destruct (local_seen build NULL (output_buffer fr) =? NULL);
        cbn in Hrun; simplify_eq; cbn; rewrite Hlog2, Hlog1.
      * exists (EvFree data :: EvJpegDestroy :: d2 ++ d1).
        split; [cbn; rewrite app_assoc; reflexivity|].
        repeat (constructor; [reflexivity|]). exact Hboth.
      * exists (EvFree data :: EvJpegDestroy
                  :: EvDrawBufFree (local_seen build NULL (output_buffer fr)) :: d2 ++ d1).
        split; [cbn; rewrite app_assoc; reflexivity|].
        repeat (constructor; [reflexivity|]). exact Hboth.
Qed.

Lemma quiet_counts (d : list event) :
  Forall (fun e => is_engine e = false) d ->
  count is_create d = O /\ count is_destroy d = O /\ count is_read_scanlines d = O.
Proof.
  intros Hd.
  split_and!; apply count_zero_Forall; (eapply Forall_impl; [exact Hd|]);
    intros [] He; cbn in *; congruence.
Qed.

Lemma no_file_io_counts (d : list event) :
  Forall (fun e => is_file_io e = false) d ->
  count is_fs_open d = O /\ count is_fs_close d = O.
Proof.
  intros Hd.
  split_and!; apply count_zero_Forall; (eapply Forall_impl; [exact Hd|]);
    intros [] He; cbn in *; congruence.
Qed.

Lemma obtained_one (p : ptr) (n : Z) : p <> NULL -> obtained [(p, n)] = [p].
Proof.
  intros Hp. unfold obtained. cbn. apply Z.eqb_neq in Hp. rewrite Hp. reflexivity.
Qed.

Lemma obtained_null (l : list (ptr * Z)) :
  Forall (fun pn => fst pn = NULL) l -> obtained l = [].
Proof.
  induction 1 as [|[p n] l Hp _ IH]; [reflexivity|].
  cbn in Hp. subst p. exact IH.
Qed.

#[local] Arguments obtained : simpl never.

(** The whole call. The file is opened once and closed once when it
    could be opened; every block obtained from [lv_malloc] is freed and
    the engine object is destroyed as often as it was created. A call that
    returns [NULL] leaves the heap as it found it, provided no output
    buffer was obtained or the recovery code reads the value last assigned
    to [output_buffer]; a call that returns a buffer adds that one block to
    the heap. When the allocation of the output buffer fails no scanline is
    read and [*size] is not written. *)
Lemma decode_jpeg_file_effects (fn : ptr) (size : option Z) (w : world)
    (r : ptr) (size' : option Z) (w' : world) :
  decode_jpeg_file fs jpeg build fn size w = ((r, size'), w') ->
  allocator_fresh w ->
  exists d, log w' = d ++ log w /\
    Forall (fun e => is_cache_lock e = false) d /\
    count is_fs_open d = 1%nat /\
    count is_fs_close d = match file_named fs w fn with Some _ => 1%nat | None => O end /\
    frees d = obtained (mallocs d) /\
    count is_destroy d = count is_create d /\
    (r = NULL ->
     build = LastAssigned \/ obtained (draw_buf_mallocs d) = [] ->
     heap w' = heap w /\ draw_buf_frees d = obtained (draw_buf_mallocs d)) /\
    (r <> NULL ->
       exists f ow oh oc,
         file_named fs w fn = Some f /\
         on_start_decompress (jpeg (file_image f)) = Done (ow, oh, oc) /\
         heap w'
         = <[r := Block (buffer_size_of ow oh)
                        (Pixels (wrap32 oh * wrap32 (wrap32 ow * JPEG_PIXEL_SIZE)))]>
             (heap w) /\
         count is_read_scanlines d = Z.to_nat (wrap32 oh)) /\
    (forall n, In (NULL, n) (draw_buf_mallocs d) ->
       r = NULL /\ size' = size /\ count is_read_scanlines d = O /\
       draw_buf_frees d = [] /\ obtained (draw_buf_mallocs d) = []).
Proof.
  unfold decode_jpeg_file. intros Hrun (Hnull0 & Hpos & Hfresh).
  assert (Hbrk0 : brk w <> NULL) by (unfold NULL; lia).
  destruct (alloc_file fs fn w) as [[data dsz] w1] eqn:Halloc.
  pose proof Halloc as Halloc'.
  apply alloc_file_spec in Halloc
    as (_ & _ & Hbrk1 & Hheap1 & d1 & Hlog1 & Heng1 & Hdm1 & Hdf1 & Hok).
  apply alloc_file_effects in Halloc' as (d1' & Hlog1' & Hlock1 & Hopen1 & Hclose1 & _ & Hfail).
  assert (d1' = d1) as -> by (eapply app_inv_tail; rewrite <- Hlog1'; exact Hlog1).
  destruct (quiet_counts d1 Heng1) as (Hc1 & Hx1 & Hr1).
  destruct (data =? NULL) eqn:Hnull.
  - apply Z.eqb_eq in Hnull. simplify_eq.
    destruct (Hfail eq_refl) as (_ & Hbal & Hheap).
    exists d1. split_and!; try assumption.
    + congruence.
    + intros _. split; [apply Hheap; [exact Hbrk0|apply Hfresh; lia]|].
      rewrite Hdm1, Hdf1. reflexivity.
    + intros Hr. exfalso. apply Hr. reflexivity.
    + intros n Hin. rewrite Hdm1 in Hin. destruct Hin.
  - apply Z.eqb_neq in Hnull.
    destruct (Hok Hnull)
      as (-> & Hbrk' & Hoom1 & Hm1 & Hf1 & name & f & Hname & Hfile & Hbs & Hdsz).
    pose proof (bytes_at_block _ _ _ _ Hbs Hdsz) as Hbytes.
    assert (Hnamed : file_named fs w fn = Some f).
    { unfold file_named. rewrite Hname. exact Hfile. }
    rewrite Hnamed in *.
    unfold setjmp in Hrun.
    destruct (decode_guarded jpeg (brk w) dsz (Frame w1 NULL size)) as [res fr] eqn:Hg.
    pose proof Hg as Hg'.
    apply decode_guarded_spec in Hg; [|lia].
    destruct Hg as (_ & _ & Hbrk2 & _ & d2 & Hlog2 & Hc2 & Hm2 & Hdf2 & Hio2 & Hres).
    apply decode_guarded_effects in Hg'; [|unfold NULL; lia].
    destruct Hg' as (d2' & Hlog2' & Hlock2 & Heff).
    assert (d2' = d2) as -> by (eapply app_inv_tail; rewrite <- Hlog2'; exact Hlog2).
    rewrite Hbytes in Hres, Heff.
    destruct (no_file_io_counts d2 Hio2) as (Hopen2 & Hclose2).
    unfold mallocs, frees, draw_buf_mallocs, draw_buf_frees in *.
    rewrite Hbrk' in *.
    assert (Hfresh0 : heap w !! brk w = None) by (apply Hfresh; lia).
    assert (Hfresh1 : heap w !! (brk w + 1) = None) by (apply Hfresh; lia).
    assert (Hdrop : delete (brk w) (heap w1) = heap w).
    { apply map_eq. intros q. destruct (decide (q = brk w)) as [->|Hq].
      - rewrite lookup_delete_eq. symmetry. exact Hfresh0.
      - rewrite lookup_delete_ne by congruence. apply Hheap1. exact Hq. }
    assert (Hone : obtained [(brk w, dsz)] = [brk w]) by (apply obtained_one; exact Hnull).
    destruct res as [r0|].
    + (* the guarded region returns *)
      simplify_eq.
      destruct Hres as (Hno2 & Hx2 & Hf2 & Hgone & rc & iw & ih & ow & oh & oc
                        & Hhdr & Hstart & Hdm2 & Hrnull & Hrok & _).
      exists (d2 ++ d1). rewrite !count_app, !pick_app.
      rewrite Hopen2, Hopen1, Hclose2, Hclose1, Hf2, Hf1, Hm2, Hm1, Hx2, Hx1, Hc2, Hc1,
        Hdf2, Hdf1, Hdm2, Hdm1, Hr1.
      split_and!; try reflexivity.
      * rewrite Hlog2, Hlog1, app_assoc. reflexivity.
      * apply Forall_app. split; assumption.
      * cbn. rewrite Hone. reflexivity.
      * intros -> _.
        destruct Heff as [(_ & _ & Hheap & _)|(Hr & _)]; [|exfalso; unfold NULL in Hr; lia].
        split; [rewrite Hheap; exact Hdrop|reflexivity].
      * intros Hr.
        destruct Heff as [(Hr' & _)|(-> & _ & blk & ow' & oh' & oc' & Hstart' & Hheap & Hreads)];
          [contradiction|].
        rewrite Hstart in Hstart'. simplify_eq.
        destruct (Hrok Hr) as (_ & _ & Hblock & _).
        exists f, ow', oh', oc'. split_and!; try assumption; try reflexivity.
        -- apply map_eq. intros q. destruct (decide (q = brk w + 1)) as [->|Hq1].
           ++ rewrite lookup_insert_eq. exact Hblock.
           ++ rewrite lookup_insert_ne by congruence. rewrite Hheap.
              destruct (decide (q = brk w)) as [->|Hq0].
              ** rewrite lookup_delete_eq. symmetry. exact Hfresh0.
              ** rewrite lookup_delete_ne, lookup_insert_ne by congruence.
                 apply Hheap1. exact Hq0.
        -- rewrite Hreads. lia.
      * intros n [Hin|[]]. simplify_eq.
        destruct (Hrnull eq_refl) as (Hsz & _).
        destruct Heff as [(_ & _ & _ & Hreads)|(Hr & _)]; [|exfalso; unfold NULL in Hr; lia].
        rewrite Hreads. split_and!; try reflexivity. exact Hsz.
    + (* the engine has jumped to the recovery code *)
      unfold decode_recover, local_seen in Hrun. cbn in Hrun.
      destruct Hres as (_ & Hin2 & Hx2 & Hf2 & Hob).
      destruct Hob as [(Hob & Hsz & Hdm2)
                      |(ow & oh & oc & Hstart & Hob & Hnn & Hdm2 & Hsz & _)].
      * (* no output buffer was obtained *)
        assert (Hseen : match build with
                        | LastAssigned => output_buffer fr
                        | AsAtSetjmp => NULL
                        end = NULL) by (destruct build; [exact Hob|reflexivity]).
        rewrite Hseen in Hrun. cbn in Hrun. simplify_eq. cbn.
        destruct Heff as [(_ & Hheap & Hreads)|(Hob' & _)]; [|exfalso; unfold NULL in *; lia].
        exists (EvFree (brk w) :: EvJpegDestroy :: d2 ++ d1). cbn.
        rewrite !count_app, !pick_app.
        rewrite Hopen2, Hopen1, Hclose2, Hclose1, Hf2, Hf1, Hm2, Hm1, Hx2, Hx1, Hc2, Hc1,
          Hdf2, Hdf1, Hdm1, Hr1, Hreads, app_nil_r.
        split_and!; try reflexivity.
        -- rewrite Hlog2, Hlog1, app_assoc. reflexivity.
        -- repeat (constructor; [reflexivity|]). apply Forall_app. split; assumption.
        -- cbn. rewrite Hone. reflexivity.
        -- intros _ _. split; [rewrite Hheap; exact Hdrop|].
           symmetry. apply obtained_null. rewrite app_nil_r. exact Hdm2.
        -- intros Hr. exfalso. apply Hr. reflexivity.
        -- intros n _. split_and!; try reflexivity; try exact Hsz.
           apply obtained_null. rewrite ?app_nil_r. exact Hdm2.
      * (* the output buffer was obtained before the jump *)
        destruct Heff as [(Hob' & _)|(_ & blk & Hheap)]; [congruence|].
        rewrite Hob in Hrun.
        destruct build; cbn in Hrun.
        -- apply Z.eqb_neq in Hnn. rewrite Hnn in Hrun. apply Z.eqb_neq in Hnn.
           cbn in Hrun. simplify_eq. cbn.
           exists (EvFree (brk w) :: EvJpegDestroy :: EvDrawBufFree (brk w + 1) :: d2 ++ d1).
           cbn. rewrite !count_app, !pick_app.
           rewrite Hopen2, Hopen1, Hclose2, Hclose1, Hf2, Hf1, Hm2, Hm1, Hx2, Hx1, Hc2, Hc1,
             Hdf2, Hdf1, Hdm1, Hdm2.
           split_and!; try reflexivity.
           ++ rewrite Hlog2, Hlog1, app_assoc. reflexivity.
           ++ repeat (constructor; [reflexivity|]). apply Forall_app. split; assumption.
           ++ cbn. rewrite Hone. reflexivity.
           ++ intros _ _. split; [|cbn; rewrite obtained_one by exact Hnn; reflexivity].
              rewrite Hheap. apply map_eq. intros q.
              destruct (decide (q = brk w)) as [->|Hq0].
              ** rewrite lookup_delete_eq. symmetry. exact Hfresh0.
              ** rewrite lookup_delete_ne by congruence.
                 destruct (decide (q = brk w + 1)) as [->|Hq1].
                 --- rewrite lookup_delete_eq. symmetry. exact Hfresh1.
                 --- rewrite lookup_delete_ne, lookup_insert_ne by congruence.
                     apply Hheap1. exact Hq0.
           ++ intros Hr. exfalso. apply Hr. reflexivity.
           ++ intros n [Hin|[]]. simplify_eq.
        -- simplify_eq. cbn.
           exists (EvFree (brk w) :: EvJpegDestroy :: d2 ++ d1).
           cbn. rewrite !count_app, !pick_app.
           rewrite Hopen2, Hopen1, Hclose2, Hclose1, Hf2, Hf1, Hm2, Hm1, Hx2, Hx1, Hc2, Hc1,
             Hdf2, Hdf1, Hdm1, Hdm2.
           split_and!; try reflexivity.
           ++ rewrite Hlog2, Hlog1, app_assoc. reflexivity.
           ++ repeat (constructor; [reflexivity|]). apply Forall_app. split; assumption.
           ++ cbn. rewrite Hone. reflexivity.
           ++ intros _ [Hb|Hnone]; [discriminate|].
              cbn in Hnone. rewrite obtained_one in Hnone by exact Hnn. discriminate.
           ++ intros Hr. exfalso. apply Hr. reflexivity.
           ++ intros n [Hin|[]]. simplify_eq.
Qed.

(** ** get_jpeg_size and decoder_info *)

Ltac log_prefix_upto l t :=
  lazymatch l with
  | t => constr:(@nil event)
  | ?e :: ?l' => let p := log_prefix_upto l' t in constr:(e :: p)
  end.
Ltac exists_log_over d1 :=
  lazymatch goal with
  | |- exists d, ?l = d ++ log ?w /\ _ =>
      let p := log_prefix_upto l (d1 ++ log w) in
      exists (p ++ d1); split; [reflexivity|]
  end.

(** The header probe leaves the heap, the cache and the clock as they
    were, frees the file buffer and destroys the engine object on every
    path, and neither allocates a draw buffer nor reads a scanline. *)
Lemma get_jpeg_size_effects (fn : ptr) (w : world) (res : option (Z * Z)) (w1 : world) :
  get_jpeg_size fs jpeg fn w = (res, w1) ->
  allocator_fresh w ->
  heap w1 = heap w /\ cache w1 = cache w /\ clock w1 = clock w /\
  exists d, log w1 = d ++ log w /\
    Forall (fun e => is_cache_lock e = false) d /\
    count is_fs_open d = 1%nat /\
    count is_fs_close d = match file_named fs w fn with Some _ => 1%nat | None => O end /\
    frees d = obtained (mallocs d) /\
    count is_destroy d = count is_create d /\
    draw_buf_mallocs d = [] /\ draw_buf_frees d = [] /\
    count is_read_scanlines d = O.
Proof.
  unfold get_jpeg_size. intros Hrun (Hnull0 & Hpos & Hfresh).
  assert (Hbrk0 : brk w <> NULL) by (unfold NULL; lia).
  destruct (alloc_file fs fn w) as [[data dsz] w0] eqn:Halloc.
  pose proof Halloc as Halloc'.
  apply alloc_file_spec in Halloc
    as (Hcache1 & Hclk1 & Hbrk1 & Hheap1 & d1 & Hlog1 & Heng1 & Hdm1 & Hdf1 & Hok).
  apply alloc_file_effects in Halloc' as (d1' & Hlog1' & Hlock1 & Hopen1 & Hclose1 & _ & Hfail).
  assert (d1' = d1) as -> by (eapply app_inv_tail; rewrite <- Hlog1'; exact Hlog1).
  destruct (quiet_counts d1 Heng1) as (Hc1 & Hx1 & Hr1).
  destruct (data =? NULL) eqn:Hnull.
  - apply Z.eqb_eq in Hnull. simplify_eq.
    destruct (Hfail eq_refl) as (_ & Hbal & Hheap).
    split_and!; try assumption; [apply Hheap; [exact Hbrk0|apply Hfresh; lia]|].
    exists d1. split_and!; try assumption. congruence.
  - apply Z.eqb_neq in Hnull.
    destruct (Hok Hnull) as (-> & Hbrk' & _ & Hm1 & Hf1 & _).
    assert (Hfresh0 : heap w !! brk w = None) by (apply Hfresh; lia).
    assert (Hdrop : delete (brk w) (heap w0) = heap w).
    { apply map_eq. intros q. destruct (decide (q = brk w)) as [->|Hq].
      - rewrite lookup_delete_eq. symmetry. exact Hfresh0.
      - rewrite lookup_delete_ne by congruence. apply Hheap1. exact Hq. }
    assert (Hone : obtained [(brk w, dsz)] = [brk w]) by (apply obtained_one; exact Hnull).
    unfold mallocs, frees, draw_buf_mallocs, draw_buf_frees in *.
    unfold setjmp, jpeg_create_decompress, jpeg_mem_src, jpeg_read_header, engine_step,
      jbind, exec, jret, error_exit in Hrun.
    cbn in Hrun.
    repeat (case_match; simplify_eq; cbn in * ).
    all: split_and!; try assumption.
    all: rewrite Hlog1; exists_log_over d1.
    all: cbn; rewrite ?count_app, ?pick_app, ?Hopen1, ?Hclose1, ?Hf1, ?Hm1, ?Hx1, ?Hc1,
           ?Hdf1, ?Hdm1, ?Hr1.
    all: split_and!; try reflexivity.
    all: try (repeat (constructor; [reflexivity|]); exact Hlock1).
    all: cbn; rewrite Hone; reflexivity.
Qed.

Lemma load_u32_take (bs : list byte) : load_u32 (take 4 bs) = load_u32 bs.
Proof. unfold load_u32. rewrite take_take. reflexivity. Qed.

Lemma decoder_info_effects (decoder : lv_image_decoder_t) (src : ptr)
    (header : lv_image_header_t) (w : world)
    (res : lv_result_t) (hdr : lv_image_header_t) (w1 : world) :
  decoder_info fs jpeg decoder src header w = ((res, hdr), w1) ->
  allocator_fresh w ->
  heap w1 = heap w /\ cache w1 = cache w /\ clock w1 = clock w /\
  (res = LV_RESULT_INVALID -> hdr = header) /\
  exists d, log w1 = d ++ log w /\
    Forall (fun e => is_cache_lock e = false) d /\
    count is_fs_close d
    = match file_named fs w src with Some _ => count is_fs_open d | None => O end /\
    frees d = obtained (mallocs d) /\
    count is_destroy d = count is_create d /\
    draw_buf_mallocs d = [] /\ draw_buf_frees d = [] /\
    count is_read_scanlines d = O /\
    (count is_create d <> O ->
       exists f, file_named fs w src = Some f /\
         (4 <= length (f_bytes f))%nat /\
         IS_JPEG_SIGNATURE (load_u32 (f_bytes f)) = true).
Proof.
  unfold decoder_info. intros Hrun Hfr.
  pose proof Hfr as (Hnull0 & Hpos & Hfresh).
  assert (Hnone : forall x, file_named fs w src = x ->
            lv_image_src_get_type w src <> LV_IMAGE_SRC_FILE -> x = None).
  { intros x <-. unfold lv_image_src_get_type, file_named.
    destruct (src =? NULL) eqn:Hs.
    - apply Z.eqb_eq in Hs. subst src. unfold cstr.
      change (heap w !! NULL) with (heap w !! NULL). intros _.
      replace (heap w !! NULL) with (@None block). reflexivity.
    - destruct (cstr w src); [congruence|reflexivity]. }
  destruct (lv_image_src_get_type w src) eqn:Hty.
  1,3-4: simplify_eq; split_and!; try (intros; reflexivity);
    exists []; rewrite (Hnone _ eq_refl) by discriminate;
    split_and!; try reflexivity; [constructor|intros H; exfalso; apply H; reflexivity].
  clear Hnone.
  unfold lv_fs_open in Hrun.
  change (cstr (emit EvFsOpen w) src) with (cstr w src) in Hrun.
  unfold file_named.
  destruct (cstr w src) as [name|] eqn:Hname; cbn in Hrun.
  2:{ simplify_eq. split_and!; try (intros; reflexivity).
      exists [EvFsOpen]. split_and!; try reflexivity; [repeat constructor|].
      intros H; exfalso; apply H; reflexivity. }
  destruct (fs name) as [f|] eqn:Hfile; cbn in Hrun.
  2:{ simplify_eq. split_and!; try (intros; reflexivity).
      exists [EvFsOpen]. split_and!; try reflexivity; [repeat constructor|].
      intros H; exfalso; apply H; reflexivity. }
  unfold lv_fs_read in Hrun. cbn in Hrun.
  change (Z.to_nat 0) with O in Hrun. rewrite drop_0 in Hrun.
  set (bs := if is_ok (f_read f) then take (Z.to_nat 4) (f_bytes f) else []) in *.
  assert (Hrun' :
    (let w2 := World (heap w) (brk w) (oom w) (clock w) (cache w)
                     (EvFsClose :: EvFsRead :: EvFsOpen :: log w) in
     if negb (Z.of_nat (length bs) =? 4) then ((LV_RESULT_INVALID, header), w2)
     else if negb (IS_JPEG_SIGNATURE (load_u32 bs)) then ((LV_RESULT_INVALID, header), w2)
     else match get_jpeg_size fs jpeg src w2 with
          | (None, w3) => ((LV_RESULT_INVALID, header), w3)
          | (Some (width, height), w3) =>
              ((LV_RESULT_OK, Header LV_COLOR_FORMAT_RGB888 width height), w3)
          end) = ((res, hdr), w1)).
  { subst bs. destruct (is_ok (f_read f)); exact Hrun. }
  clear Hrun. cbn zeta in Hrun'.
  destruct (Z.of_nat (length bs) =? 4) eqn:Hlen; cbn in Hrun'.
  2:{ simplify_eq. split_and!; try (intros; reflexivity).
      exists [EvFsClose; EvFsRead; EvFsOpen]. split_and!; try reflexivity; [repeat constructor|].
      intros H; exfalso; apply H; reflexivity. }
  destruct (IS_JPEG_SIGNATURE (load_u32 bs)) eqn:Hsig; cbn in Hrun'.
  2:{ simplify_eq. split_and!; try (intros; reflexivity).
      exists [EvFsClose; EvFsRead; EvFsOpen]. split_and!; try reflexivity; [repeat constructor|].
      intros H; exfalso; apply H; reflexivity. }
  match type of Hrun' with
  | context [get_jpeg_size fs jpeg src ?x] =>
      set (w2 := x) in *;
      destruct (get_jpeg_size fs jpeg src w2) as [dims w3] eqn:Hsize
  end.
  apply get_jpeg_size_effects in Hsize; [|exact Hfr].
  destruct Hsize as (Hheap & Hcache & Hclock & d & Hlog & Hlock & Hopen & Hclose & Hbal
                     & Hdes & Hdm & Hdf & Hreads).
  assert (Hfile' : file_named fs w2 src = Some f).
  { unfold file_named. change (cstr w2 src) with (cstr w src). rewrite Hname. exact Hfile. }
  rewrite Hfile' in Hclose.
  assert (Hbytes : (4 <= length (f_bytes f))%nat /\ load_u32 bs = load_u32 (f_bytes f)).
  { apply Z.eqb_eq in Hlen. subst bs. destruct (is_ok (f_read f)); [|discriminate].
    rewrite length_take in Hlen. split; [lia|]. apply load_u32_take. }
  destruct Hbytes as (Hfour & Hload). rewrite Hload in Hsig.
  assert (Hres : w1 = w3 /\ (res = LV_RESULT_INVALID -> hdr = header)).
  { destruct dims as [[width height]|]; simplify_eq; split; try reflexivity. discriminate. }
  destruct Hres as (-> & Hhdr). clear Hrun'.
  split_and!; try assumption.
  exists (d ++ [EvFsClose; EvFsRead; EvFsOpen]).
  unfold mallocs, frees, draw_buf_mallocs, draw_buf_frees in *.
  rewrite !count_app, !pick_app, Hopen, Hclose, Hbal, Hdes, Hdm, Hdf, Hreads. cbn.
  rewrite !app_nil_r.
  split_and!; try reflexivity.
  - rewrite Hlog. subst w2. cbn. rewrite <- app_assoc. reflexivity.
  - apply Forall_app. split; [exact Hlock|repeat constructor].
  - intros _. exists f. split_and!; auto.
Qed.

(** The result of the header probe on a file that can be loaded and whose
    header the engine parses. *)
Lemma get_jpeg_size_eq (fn : ptr) (w : world) (name : string) (f : vfile)
    (rc iw ih : Z) :
  cstr w fn = Some name -> fs name = Some f ->
  f_seek f LV_FS_SEEK_END = LV_FS_RES_OK -> f_tell f = LV_FS_RES_OK ->
  f_seek f LV_FS_SEEK_SET = LV_FS_RES_OK -> f_read f = LV_FS_RES_OK ->
  hd false (oom w) = false -> brk w <> NULL ->
  on_mem_src (jpeg (file_image f)) = Done tt ->
  on_read_header (jpeg (file_image f)) = Done (rc, iw, ih) ->
  fst (get_jpeg_size fs jpeg fn w)
  = if rc =? JPEG_HEADER_OK then Some (wrap32 iw, wrap32 ih) else None.
Proof.
  intros Hname Hfile Hend Htell Hset Hread Hoom Hbrk Hsrc Hhdr.
  unfold get_jpeg_size.
  rewrite (alloc_file_eq fs fn w name f Hname Hfile Hend Htell Hset Hread Hoom Hbrk).
  cbn zeta. apply Z.eqb_neq in Hbrk. rewrite Hbrk.
  unfold setjmp, jpeg_create_decompress, jpeg_mem_src, jpeg_read_header, engine_step,
    jbind, exec, jret, error_exit.
  cbn.
  match goal with
  | |- context [bytes_at ?x ?p ?n] =>
      replace (bytes_at x p n) with (file_image f)
  end.
  2:{ symmetry. apply bytes_at_block; [|reflexivity]. cbn. apply lookup_insert_eq. }
  rewrite Hsrc. cbn. rewrite Hhdr. cbn. reflexivity.
Qed.

End Effects.

(** ** The properties *)

Lemma sample_world_fresh (script : list bool) : allocator_fresh (sample_world script).
Proof.
  split_and!; [reflexivity|reflexivity|].
  intros q Hq. apply lookup_singleton_ne. cbn in Hq. lia.
Qed.

(** X1: when the file named by [fn] exists, its driver serves the seek,
    tell and read requests, the file is shorter than 2^32 bytes and the
    allocation succeeds, [alloc_file] returns a fresh block holding exactly
    the bytes of the file with [*size] their number; it changes no other
    block and not the cache, and it has opened the file once, measured it
    by seek, tell and seek, read it once and closed it once. *)
Theorem alloc_file_loads_whole_file
    (fs : string -> option vfile) (fn : ptr) (w : world) (name : string) (f : vfile) :
  cstr w fn = Some name -> fs name = Some f ->
  f_seek f LV_FS_SEEK_END = LV_FS_RES_OK -> f_tell f = LV_FS_RES_OK ->
  f_seek f LV_FS_SEEK_SET = LV_FS_RES_OK -> f_read f = LV_FS_RES_OK ->
  Z.of_nat (length (f_bytes f)) < 2 ^ 32 ->
  hd false (oom w) = false -> brk w <> NULL ->
  exists w1,
    alloc_file fs fn w = ((brk w, Z.of_nat (length (f_bytes f))), w1) /\
    heap w1 = <[brk w := Block (Z.of_nat (length (f_bytes f))) (Bytes (f_bytes f))]> (heap w) /\
    cache w1 = cache w /\
    log w1 = [EvFsClose; EvFsRead; EvMalloc (brk w) (Z.of_nat (length (f_bytes f)));
              EvFsSeek; EvFsTell; EvFsSeek; EvFsOpen] ++ log w.
Proof.
  intros Hname Hfile Hend Htell Hset Hread Hlen Hoom Hbrk.
  rewrite (alloc_file_eq fs fn w name f Hname Hfile Hend Htell Hset Hread Hoom Hbrk).
  rewrite (file_image_small f Hlen).
  eexists. split; [reflexivity|]. split_and!; reflexivity.
Qed.

Lemma alloc_file_loads_whole_file_witness :
  exists w1,
    alloc_file (sample_fs jfif_prefix) 1 (sample_world [])
    = ((brk (sample_world []), Z.of_nat (length (f_bytes (ok_file jfif_prefix)))), w1) /\
    heap w1
    = <[brk (sample_world [])
        := Block (Z.of_nat (length (f_bytes (ok_file jfif_prefix))))
                 (Bytes (f_bytes (ok_file jfif_prefix)))]> (heap (sample_world [])) /\
    cache w1 = cache (sample_world []) /\
    log w1 = [EvFsClose; EvFsRead;
              EvMalloc (brk (sample_world []))
                       (Z.of_nat (length (f_bytes (ok_file jfif_prefix))));
              EvFsSeek; EvFsTell; EvFsSeek; EvFsOpen] ++ log (sample_world []).
Proof.
  apply (alloc_file_loads_whole_file (sample_fs jfif_prefix) 1 (sample_world [])
           "A:img.jpg"%string (ok_file jfif_prefix)).
  - reflexivity.
  - reflexivity.
  - reflexivity.
  - reflexivity.
  - reflexivity.
  - reflexivity.
  - reflexivity.
  - reflexivity.
  - discriminate.
Defined.

(** X2: [alloc_file] tries to open the file once. When the file can be
    opened it is closed exactly once on every path, the failures of seek,
    tell, allocation and read included; when it cannot be opened nothing
    else is attempted, and the result is [NULL] with [*size] = 0. *)
Theorem alloc_file_closes_what_it_opened
    (fs : string -> option vfile) (fn : ptr) (w : world)
    (data : ptr) (size : Z) (w1 : world) (d : list event) :
  alloc_file fs fn w = ((data, size), w1) ->
  log w1 = d ++ log w ->
  count is_fs_open d = 1%nat /\
  match file_named fs w fn with
  | Some _ => count is_fs_close d = 1%nat
  | None => d = [EvFsOpen] /\ data = NULL /\ size = 0
  end.
Proof.
  intros Hrun Hlog.
  pose proof Hrun as Hspec.
  apply alloc_file_effects in Hrun as (d' & Hlog' & _ & Hopen & Hclose & Hmiss & Hfail).
  assert (d' = d) as -> by (eapply app_inv_tail; rewrite <- Hlog'; exact Hlog).
  split; [exact Hopen|].
  destruct (file_named fs w fn) as [f|] eqn:Hnamed; [exact Hclose|].
  split; [exact (Hmiss eq_refl)|].
  apply alloc_file_spec in Hspec as (_ & _ & _ & _ & d0 & _ & _ & _ & _ & Hok).
  destruct (decide (data = NULL)) as [->|Hnn].
  - split; [reflexivity|]. apply Hfail. reflexivity.
  - destruct (Hok Hnn) as (_ & _ & _ & _ & _ & name & f & Hname & Hfile & _).
    unfold file_named in Hnamed. rewrite Hname, Hfile in Hnamed. discriminate.
Qed.

Lemma alloc_file_closes_what_it_opened_witness :
  count is_fs_open [EvFsClose; EvFsRead; EvMalloc 2 4; EvFsSeek; EvFsTell; EvFsSeek; EvFsOpen]
  = 1%nat /\
  match file_named (sample_fs jfif_prefix) (sample_world []) 1 with
  | Some _ =>
      count is_fs_close
        [EvFsClose; EvFsRead; EvMalloc 2 4; EvFsSeek; EvFsTell; EvFsSeek; EvFsOpen] = 1%nat
  | None =>
      [EvFsClose; EvFsRead; EvMalloc 2 4; EvFsSeek; EvFsTell; EvFsSeek; EvFsOpen] = [EvFsOpen] /\
      fst (fst (alloc_file (sample_fs jfif_prefix) 1 (sample_world []))) = NULL /\
      snd (fst (alloc_file (sample_fs jfif_prefix) 1 (sample_world []))) = 0
  end.
Proof.
  apply (alloc_file_closes_what_it_opened (sample_fs jfif_prefix) 1 (sample_world [])
           (fst (fst (alloc_file (sample_fs jfif_prefix) 1 (sample_world []))))
           (snd (fst (alloc_file (sample_fs jfif_prefix) 1 (sample_world []))))
           (snd (alloc_file (sample_fs jfif_prefix) 1 (sample_world [])))).
  - reflexivity.
  - vm_compute. reflexivity.
Defined.

(** X3: a failed [alloc_file] leaves nothing behind. When it returns
    [NULL], [*size] is 0, the heap and the cache are as before the call,
    every block obtained from [lv_malloc] was passed to [lv_free] (the
    buffer is freed when the read fails or is short), and neither the
    draw-buffer allocator nor the engine was used. *)
Theorem alloc_file_failure_leaves_nothing
    (fs : string -> option vfile) (fn : ptr) (w : world)
    (size : Z) (w1 : world) (d : list event) :
  alloc_file fs fn w = ((NULL, size), w1) ->
  log w1 = d ++ log w ->
  brk w <> NULL -> heap w !! brk w = None ->
  size = 0 /\ heap w1 = heap w /\ cache w1 = cache w /\
  frees d = obtained (mallocs d) /\
  draw_buf_mallocs d = [] /\ Forall (fun e => is_engine e = false) d.
Proof.
  intros Hrun Hlog Hbrk Hfresh.
  pose proof Hrun as Hspec.
  apply alloc_file_effects in Hrun as (d' & Hlog' & _ & _ & _ & _ & Hfail).
  assert (d' = d) as -> by (eapply app_inv_tail; rewrite <- Hlog'; exact Hlog).
  destruct (Hfail eq_refl) as (-> & Hbal & Hheap).
  apply alloc_file_spec in Hspec as (Hcache & _ & _ & _ & d' & Hlog'' & Heng & Hdm & _).
  assert (d' = d) as -> by (eapply app_inv_tail; rewrite <- Hlog''; exact Hlog).
  split_and!; auto.
Qed.

Lemma alloc_file_failure_leaves_nothing_witness :
  0 = 0 /\
  heap (snd (alloc_file (unreadable_fs jfif_prefix) 1 (sample_world [])))
  = heap (sample_world []) /\
  cache (snd (alloc_file (unreadable_fs jfif_prefix) 1 (sample_world [])))
  = cache (sample_world []) /\
  frees [EvFsClose; EvFree 2; EvFsRead; EvMalloc 2 4; EvFsSeek; EvFsTell; EvFsSeek; EvFsOpen]
  = obtained
      (mallocs [EvFsClose; EvFree 2; EvFsRead; EvMalloc 2 4; EvFsSeek; EvFsTell; EvFsSeek;
                EvFsOpen]) /\
  draw_buf_mallocs
    [EvFsClose; EvFree 2; EvFsRead; EvMalloc 2 4; EvFsSeek; EvFsTell; EvFsSeek; EvFsOpen]
  = [] /\
  Forall (fun e => is_engine e = false)
    [EvFsClose; EvFree 2; EvFsRead; EvMalloc 2 4; EvFsSeek; EvFsTell; EvFsSeek; EvFsOpen].
Proof.
  apply (alloc_file_failure_leaves_nothing (unreadable_fs jfif_prefix) 1 (sample_world [])).
  - vm_compute. reflexivity.
  - vm_compute. reflexivity.
  - discriminate.
  - reflexivity.
Defined.

(** Rows times stride is the allocated size when the product fits. *)
Lemma filled_is_size (ow oh : Z) :
  wrap32 ow * wrap32 oh * JPEG_PIXEL_SIZE < 2 ^ 32 ->
  wrap32 oh * wrap32 (wrap32 ow * JPEG_PIXEL_SIZE) = buffer_size_of ow oh.
Proof.
  intros Hfit. pose proof (wrap32_nonneg ow) as Hw. pose proof (wrap32_nonneg oh) as Hh.
  unfold buffer_size_of. unfold JPEG_PIXEL_SIZE in *.
  set (W := wrap32 ow) in *. set (H := wrap32 oh) in *.
  unfold wrap32. rewrite (Z.mod_small (W * H * 3)) by nia.
  destruct (Z.eq_dec H 0) as [->|Hne]; [lia|].
  rewrite Z.mod_small by nia. lia.
Qed.

(** X4: when [decode_jpeg_file] returns a buffer, the heap after the call
    is the heap before it plus that one block: the draw buffer, allocated
    with the 32-bit product of the output dimensions and [JPEG_PIXEL_SIZE],
    in which [output_height] rows of [output_width * 3] bytes were stored
    (the whole buffer when the exact product is below 2^32). [*size] holds
    the allocated size, exactly [output_height] scanlines were read, the
    file buffer was freed, the engine object was created and destroyed
    once, [error_exit] was not called and the cache is untouched. *)
Theorem decode_jpeg_file_returns_filled_buffer
    (fs : string -> option vfile) (jpeg : list byte -> jpeg_image)
    (build : local_after_longjmp)
    (fn : ptr) (size : option Z) (w : world)
    (r : ptr) (size' : option Z) (w' : world) (d : list event) :
  decode_jpeg_file fs jpeg build fn size w = ((r, size'), w') ->
  log w' = d ++ log w ->
  allocator_fresh w ->
  r <> NULL ->
  exists f ow oh oc,
    file_named fs w fn = Some f /\
    on_start_decompress (jpeg (file_image f)) = Done (ow, oh, oc) /\
    heap w'
    = <[r := Block (buffer_size_of ow oh)
                   (Pixels (wrap32 oh * wrap32 (wrap32 ow * JPEG_PIXEL_SIZE)))]> (heap w) /\
    (wrap32 ow * wrap32 oh * JPEG_PIXEL_SIZE < 2 ^ 32 ->
     wrap32 oh * wrap32 (wrap32 ow * JPEG_PIXEL_SIZE) = buffer_size_of ow oh) /\
    size' = size_after size (buffer_size_of ow oh) /\
    cache w' = cache w /\
    count is_read_scanlines d = Z.to_nat (wrap32 oh) /\
    draw_buf_mallocs d = [(r, buffer_size_of ow oh)] /\ draw_buf_frees d = [] /\
    frees d = obtained (mallocs d) /\
    count is_create d = 1%nat /\ count is_destroy d = 1%nat /\
    ~ In EvErrorExit d.
Proof.
  intros Hrun Hlog Hfresh Hr.
  pose proof Hrun as Hspec.
  apply decode_jpeg_file_effects in Hrun; [|exact Hfresh].
  destruct Hrun as (d' & Hlog' & _ & _ & _ & Hbal & _ & _ & Hok & _).
  assert (d' = d) as -> by (eapply app_inv_tail; rewrite <- Hlog'; exact Hlog).
  destruct (Hok Hr) as (f & ow & oh & oc & Hnamed & Hstart & Hheap & Hreads).
  apply decode_jpeg_file_spec in Hspec as (Hcache & _ & _ & _ & d' & Hlog'' & _ & Hok').
  assert (d' = d) as -> by (eapply app_inv_tail; rewrite <- Hlog''; exact Hlog).
  destruct (Hok' Hr) as (Hno & Hcreate & Hdestroy & _ & data & dsz & bs & rc & iw & ih
                         & ow' & oh' & oc' & _ & _ & _ & _ & _ & Hdm & Hdf & Hsz & Hblock & _).
  assert (Hsame : buffer_size_of ow' oh' = buffer_size_of ow oh).
  { rewrite Hheap, lookup_insert_eq in Hblock. congruence. }
  rewrite Hsame in *.
  exists f, ow, oh, oc. split_and!; try assumption. apply filled_is_size.
Qed.

Lemma decode_jpeg_file_returns_filled_buffer_witness :
  let run := decode_jpeg_file (sample_fs jfif_prefix) (engine_decodes 2 2) LastAssigned 1 (Some 0)
               (sample_world []) in
  exists f ow oh oc,
    file_named (sample_fs jfif_prefix) (sample_world []) 1 = Some f /\
    on_start_decompress (engine_decodes 2 2 (file_image f)) = Done (ow, oh, oc) /\
    heap (snd run)
    = <[fst (fst run)
        := Block (buffer_size_of ow oh)
                 (Pixels (wrap32 oh * wrap32 (wrap32 ow * JPEG_PIXEL_SIZE)))]>
        (heap (sample_world [])) /\
    (wrap32 ow * wrap32 oh * JPEG_PIXEL_SIZE < 2 ^ 32 ->
     wrap32 oh * wrap32 (wrap32 ow * JPEG_PIXEL_SIZE) = buffer_size_of ow oh) /\
    snd (fst run) = size_after (Some 0) (buffer_size_of ow oh) /\
    cache (snd run) = cache (sample_world []) /\
    count is_read_scanlines (log (snd run)) = Z.to_nat (wrap32 oh) /\
    draw_buf_mallocs (log (snd run)) = [(fst (fst run), buffer_size_of ow oh)] /\
    draw_buf_frees (log (snd run)) = [] /\
    frees (log (snd run)) = obtained (mallocs (log (snd run))) /\
    count is_create (log (snd run)) = 1%nat /\ count is_destroy (log (snd run)) = 1%nat /\
    ~ In EvErrorExit (log (snd run)).
Proof.
  intros run.
  apply (decode_jpeg_file_returns_filled_buffer (sample_fs jfif_prefix) (engine_decodes 2 2)
           LastAssigned 1 (Some 0) (sample_world []) (fst (fst run)) (snd (fst run)) (snd run)
           (log (snd run))).
  - vm_compute. reflexivity.
  - vm_compute. reflexivity.
  - apply sample_world_fresh.
  - vm_compute. discriminate.
Defined.

(** X5: a failed decode leaves no block behind. When [decode_jpeg_file]
    returns [NULL], and either no output buffer was obtained or the
    recovery code reads the value last assigned to [output_buffer], the
    heap and the cache are as before the call: the file buffer and the
    output buffer were freed, the engine object was destroyed as often as
    it was created, and the file was closed if it had been opened. *)
Theorem decode_jpeg_file_failure_leaves_nothing
    (fs : string -> option vfile) (jpeg : list byte -> jpeg_image)
    (build : local_after_longjmp)
    (fn : ptr) (size : option Z) (w : world)
    (size' : option Z) (w' : world) (d : list event) :
  decode_jpeg_file fs jpeg build fn size w = ((NULL, size'), w') ->
  log w' = d ++ log w ->
  allocator_fresh w ->
  build = LastAssigned \/ obtained (draw_buf_mallocs d) = [] ->
  heap w' = heap w /\ cache w' = cache w /\
  frees d = obtained (mallocs d) /\
  draw_buf_frees d = obtained (draw_buf_mallocs d) /\
  count is_destroy d = count is_create d /\
  count is_fs_close d = match file_named fs w fn with Some _ => 1%nat | None => O end.
Proof.
  intros Hrun Hlog Hfresh Hseen.
  pose proof Hrun as Hspec.
  apply decode_jpeg_file_effects in Hrun; [|exact Hfresh].
  destruct Hrun as (d' & Hlog' & _ & _ & Hclose & Hbal & Hdes & Hnull & _).
  assert (d' = d) as -> by (eapply app_inv_tail; rewrite <- Hlog'; exact Hlog).
  destruct (Hnull eq_refl Hseen) as (Hheap & Hdbal).
  apply decode_jpeg_file_spec in Hspec as (Hcache & _).
  split_and!; assumption.
Qed.

Lemma decode_jpeg_file_failure_leaves_nothing_witness :
  heap (snd (failed_decode LastAssigned)) = heap (sample_world []) /\
  cache (snd (failed_decode LastAssigned)) = cache (sample_world []) /\
  frees failed_decode_log = obtained (mallocs failed_decode_log) /\
  draw_buf_frees failed_decode_log = obtained (draw_buf_mallocs failed_decode_log) /\
  count is_destroy failed_decode_log = count is_create failed_decode_log /\
  count is_fs_close failed_decode_log
  = match file_named (sample_fs jfif_prefix) (sample_world []) 1 with
    | Some _ => 1%nat
    | None => O
    end.
Proof.
  apply (decode_jpeg_file_failure_leaves_nothing (sample_fs jfif_prefix)
           (engine_fails_at_row 2 2 1) LastAssigned 1 (Some 0) (sample_world [])
           (snd (fst (failed_decode LastAssigned))) (snd (failed_decode LastAssigned))
           failed_decode_log).
  - vm_compute. reflexivity.
  - vm_compute. reflexivity.
  - apply sample_world_fresh.
  - left. reflexivity.
Defined.

(** X6: when [lv_draw_buf_malloc] returns [NULL], [decode_jpeg_file] does
    not enter the scanline loop: no scanline is read, [*size] is not
    written, the function returns [NULL] (whether [jpeg_finish_decompress]
    then returns or calls [error_exit]), the file buffer is freed, the
    engine object is destroyed and the heap is as before the call. *)
Theorem decode_jpeg_file_survives_output_allocation_failure
    (fs : string -> option vfile) (jpeg : list byte -> jpeg_image)
    (build : local_after_longjmp)
    (fn : ptr) (size : option Z) (w : world)
    (r : ptr) (size' : option Z) (w' : world) (d : list event) (n : Z) :
  decode_jpeg_file fs jpeg build fn size w = ((r, size'), w') ->
  log w' = d ++ log w ->
  allocator_fresh w ->
  In (EvDrawBufMalloc NULL n) d ->
  r = NULL /\ size' = size /\ heap w' = heap w /\
  count is_read_scanlines d = O /\ draw_buf_frees d = [] /\
  frees d = obtained (mallocs d) /\
  count is_destroy d = count is_create d.
Proof.
  intros Hrun Hlog Hfresh Hin.
  apply decode_jpeg_file_effects in Hrun; [|exact Hfresh].
  destruct Hrun as (d' & Hlog' & _ & _ & _ & Hbal & Hdes & Hnull & _ & Hfail).
  assert (d' = d) as -> by (eapply app_inv_tail; rewrite <- Hlog'; exact Hlog).
  destruct (Hfail n) as (-> & Hsz & Hreads & Hdf & Hnone).
  { exact (In_pick draw_buf_malloc_of d _ (NULL, n) Hin eq_refl). }
  destruct (Hnull eq_refl) as (Hheap & Hdbal).
  { right. exact Hnone. }
  split_and!; auto.
Qed.

Lemma decode_jpeg_file_survives_output_allocation_failure_witness :
  let run := decode_jpeg_file (sample_fs jfif_prefix) (engine_decodes 2 2) LastAssigned 1 (Some 0)
               (sample_world [false; true]) in
  In (EvDrawBufMalloc NULL 12) (log (snd run)) /\
  fst (fst run) = NULL /\ snd (fst run) = Some 0 /\
  heap (snd run) = heap (sample_world [false; true]) /\
  count is_read_scanlines (log (snd run)) = O /\ draw_buf_frees (log (snd run)) = [] /\
  frees (log (snd run)) = obtained (mallocs (log (snd run))) /\
  count is_destroy (log (snd run)) = count is_create (log (snd run)).
Proof.
  intros run.
  split; [vm_compute; repeat (first [left; reflexivity | right])|].
  apply (decode_jpeg_file_survives_output_allocation_failure (sample_fs jfif_prefix)
           (engine_decodes 2 2) LastAssigned 1 (Some 0) (sample_world [false; true])
           (fst (fst run)) (snd (fst run)) (snd run) (log (snd run)) 12).
  - vm_compute. reflexivity.
  - vm_compute. reflexivity.
  - apply sample_world_fresh.
  - vm_compute. repeat (first [left; reflexivity | right]).
Defined.

(** ** decoder_info *)

(** The paths through [decoder_info]: an early return that has at most
    opened, read and closed the file, or the header probe on a file that
    passes the signature check. *)
Lemma decoder_info_cases
    (fs : string -> option vfile) (jpeg : list byte -> jpeg_image)
    (decoder : lv_image_decoder_t) (src : ptr) (header : lv_image_header_t) (w : world)
    (res : lv_result_t) (hdr : lv_image_header_t) (w1 : world) :
  decoder_info fs jpeg decoder src header w = ((res, hdr), w1) ->
  (res = LV_RESULT_INVALID /\ hdr = header /\
   (w1 = w \/ w1 = emit EvFsOpen w \/ w1 = after_signature_read w))
  \/ (exists f dims,
        src <> NULL /\ file_named fs w src = Some f /\
        (4 <= length (f_bytes f))%nat /\
        IS_JPEG_SIGNATURE (load_u32 (f_bytes f)) = true /\
        get_jpeg_size fs jpeg src (after_signature_read w) = (dims, w1) /\
        match dims with
        | Some (width, height) =>
            res = LV_RESULT_OK /\ hdr = Header LV_COLOR_FORMAT_RGB888 width height
        | None => res = LV_RESULT_INVALID /\ hdr = header
        end).
Proof.
  unfold decoder_info, lv_image_src_get_type. intros Hrun.
  destruct (src =? NULL) eqn:Hsrc; [simplify_eq; left; auto|].
  apply Z.eqb_neq in Hsrc.
  unfold file_named.
  destruct (cstr w src) as [name|] eqn:Hname; [|simplify_eq; left; auto].
  unfold lv_fs_open in Hrun.
  change (cstr (emit EvFsOpen w) src) with (cstr w src) in Hrun. rewrite Hname in Hrun.
  destruct (fs name) as [f|] eqn:Hfile; cbn in Hrun; [|simplify_eq; left; auto].
  unfold lv_fs_read in Hrun. cbn in Hrun.
  change (Z.to_nat 0) with O in Hrun. rewrite drop_0 in Hrun.
  set (bs := if is_ok (f_read f) then take (Z.to_nat 4) (f_bytes f) else []) in *.
  assert (Hrun' :
    (let w2 := after_signature_read w in
     if negb (Z.of_nat (length bs) =? 4) then ((LV_RESULT_INVALID, header), w2)
     else if negb (IS_JPEG_SIGNATURE (load_u32 bs)) then ((LV_RESULT_INVALID, header), w2)
     else match get_jpeg_size fs jpeg src w2 with
          | (None, w3) => ((LV_RESULT_INVALID, header), w3)
          | (Some (width, height), w3) =>
              ((LV_RESULT_OK, Header LV_COLOR_FORMAT_RGB888 width height), w3)
          end) = ((res, hdr), w1)).
  { subst bs. destruct (is_ok (f_read f)); exact Hrun. }
  clear Hrun. cbn zeta in Hrun'.
  destruct (Z.of_nat (length bs) =? 4) eqn:Hlen; cbn in Hrun'; [|simplify_eq; left; auto].
  destruct (IS_JPEG_SIGNATURE (load_u32 bs)) eqn:Hsig; cbn in Hrun'; [|simplify_eq; left; auto].
  assert (Hbytes : (4 <= length (f_bytes f))%nat /\ load_u32 bs = load_u32 (f_bytes f)).
  { apply Z.eqb_eq in Hlen. subst bs. destruct (is_ok (f_read f)); [|discriminate].
    rewrite length_take in Hlen. split; [lia|]. apply load_u32_take. }
  destruct Hbytes as (Hfour & Hload). rewrite Hload in Hsig.
  destruct (get_jpeg_size fs jpeg src (after_signature_read w)) as [dims w3] eqn:Hsize.
  right. exists f, dims.
  destruct dims as [[width height]|]; simplify_eq; split_and!; auto.
Qed.

(** X9: [decoder_info] holds no resource when it returns, whatever it
    returns: the heap and the cache are as before the call, every block
    obtained from [lv_malloc] was freed, the engine object was destroyed as
    often as it was created, the file was closed as often as it was opened,
    no draw buffer was allocated, no scanline was read and the cache lock
    was not taken. *)
Theorem decoder_info_leaves_no_resource
    (fs : string -> option vfile) (jpeg : list byte -> jpeg_image)
    (decoder : lv_image_decoder_t) (src : ptr) (header : lv_image_header_t) (w : world)
    (res : lv_result_t) (hdr : lv_image_header_t) (w1 : world) (d : list event) :
  decoder_info fs jpeg decoder src header w = ((res, hdr), w1) ->
  log w1 = d ++ log w ->
  allocator_fresh w ->
  heap w1 = heap w /\ cache w1 = cache w /\
  frees d = obtained (mallocs d) /\
  count is_destroy d = count is_create d /\
  count is_fs_close d
  = match file_named fs w src with Some _ => count is_fs_open d | None => O end /\
  draw_buf_mallocs d = [] /\ count is_read_scanlines d = O /\
  Forall (fun e => is_cache_lock e = false) d.
Proof.
  intros Hrun Hlog Hfresh.
  apply decoder_info_effects in Hrun; [|exact Hfresh].
  destruct Hrun as (Hheap & Hcache & _ & _ & d' & Hlog' & Hlock & Hclose & Hbal & Hdes
                    & Hdm & _ & Hreads & _).
  assert (d' = d) as -> by (eapply app_inv_tail; rewrite <- Hlog'; exact Hlog).
  split_and!; assumption.
Qed.

Lemma decoder_info_leaves_no_resource_witness :
  let run := decoder_info (sample_fs jfif_prefix) engine_rejects_header sample_decoder 1
               blank_header (sample_world []) in
  heap (snd run) = heap (sample_world []) /\ cache (snd run) = cache (sample_world []) /\
  frees (log (snd run)) = obtained (mallocs (log (snd run))) /\
  count is_destroy (log (snd run)) = count is_create (log (snd run)) /\
  count is_fs_close (log (snd run))
  = match file_named (sample_fs jfif_prefix) (sample_world []) 1 with
    | Some _ => count is_fs_open (log (snd run))
    | None => O
    end /\
  draw_buf_mallocs (log (snd run)) = [] /\ count is_read_scanlines (log (snd run)) = O /\
  Forall (fun e => is_cache_lock e = false) (log (snd run)).
Proof.
  intros run.
  apply (decoder_info_leaves_no_resource (sample_fs jfif_prefix) engine_rejects_header
           sample_decoder 1 blank_header (sample_world [])
           (fst (fst run)) (snd (fst run)) (snd run) (log (snd run))).
  - vm_compute. reflexivity.
  - vm_compute. reflexivity.
  - apply sample_world_fresh.
Defined.

(** X10: [decoder_info] creates the engine object only for a file that
    has at least four bytes and passes the signature check; for any other
    source it returns without driving the engine. *)
Theorem decoder_info_runs_engine_only_on_signature
    (fs : string -> option vfile) (jpeg : list byte -> jpeg_image)
    (decoder : lv_image_decoder_t) (src : ptr) (header : lv_image_header_t) (w : world)
    (res : lv_result_t) (hdr : lv_image_header_t) (w1 : world) (d : list event) :
  decoder_info fs jpeg decoder src header w = ((res, hdr), w1) ->
  log w1 = d ++ log w ->
  In EvJpegCreate d ->
  exists f,
    file_named fs w src = Some f /\
    (4 <= length (f_bytes f))%nat /\
    IS_JPEG_SIGNATURE (load_u32 (f_bytes f)) = true.
Proof.
  intros Hrun Hlog Hin.
  apply decoder_info_cases in Hrun
    as [(_ & _ & Hw)|(f & dims & _ & Hnamed & Hfour & Hsig & _)]; [|eauto].
  exfalso.
  assert (Hd : d = [] \/ d = [EvFsOpen] \/ d = [EvFsClose; EvFsRead; EvFsOpen]).
  { destruct Hw as [->|[->| ->]]; cbn in Hlog.
    - left. eapply app_inv_tail. rewrite <- Hlog. reflexivity.
    - right. left. eapply app_inv_tail. rewrite <- Hlog. reflexivity.
    - right. right. eapply app_inv_tail. rewrite <- Hlog. reflexivity. }
  destruct Hd as [->|[->| ->]]; cbn in Hin; intuition discriminate.
Qed.

Lemma decoder_info_runs_engine_only_on_signature_witness :
  let run := decoder_info (sample_fs jfif_prefix) engine_rejects_header sample_decoder 1
               blank_header (sample_world []) in
  In EvJpegCreate (log (snd run)) /\
  exists f,
    file_named (sample_fs jfif_prefix) (sample_world []) 1 = Some f /\
    (4 <= length (f_bytes f))%nat /\
    IS_JPEG_SIGNATURE (load_u32 (f_bytes f)) = true.
Proof.
  intros run.
  assert (Hin : In EvJpegCreate (log (snd run)))
    by (vm_compute; repeat (first [left; reflexivity | right])).
  split; [exact Hin|].
  apply (decoder_info_runs_engine_only_on_signature (sample_fs jfif_prefix)
           engine_rejects_header sample_decoder 1 blank_header (sample_world [])
           (fst (fst run)) (snd (fst run)) (snd run) (log (snd run))).
  - vm_compute. reflexivity.
  - vm_compute. reflexivity.
  - exact Hin.
Defined.

(** X11: when [decoder_info] fails it leaves the caller's header as it
    was; when it succeeds the header holds [LV_COLOR_FORMAT_RGB888] and
    the 32-bit image dimensions the engine reports, with return value
    [JPEG_HEADER_OK], for the bytes of the file named by [src], which has
    at least four bytes and passes the signature check. *)
Theorem decoder_info_reports_engine_dimensions
    (fs : string -> option vfile) (jpeg : list byte -> jpeg_image)
    (decoder : lv_image_decoder_t) (src : ptr) (header : lv_image_header_t) (w : world)
    (res : lv_result_t) (hdr : lv_image_header_t) (w1 : world) :
  decoder_info fs jpeg decoder src header w = ((res, hdr), w1) ->
  match res with
  | LV_RESULT_INVALID => hdr = header
  | LV_RESULT_OK =>
      exists f iw ih,
        file_named fs w src = Some f /\
        (4 <= length (f_bytes f))%nat /\
        IS_JPEG_SIGNATURE (load_u32 (f_bytes f)) = true /\
        on_read_header (jpeg (file_image f)) = Done (JPEG_HEADER_OK, iw, ih) /\
        hdr = Header LV_COLOR_FORMAT_RGB888 (wrap32 iw) (wrap32 ih)
  end.
Proof.
  intros Hrun.
  apply decoder_info_cases in Hrun
    as [(-> & -> & _)|(f & dims & _ & Hnamed & Hfour & Hsig & Hsize & Hres)]; [reflexivity|].
  destruct dims as [[width height]|]; destruct Hres as (-> & ->); [|reflexivity].
  apply get_jpeg_size_spec in Hsize as (_ & _ & _ & Hdims).
  destruct (Hdims _ _ eq_refl) as (name & f' & iw & ih & Hname & Hfile & Hhdr & -> & ->).
  assert (f' = f) as ->.
  { unfold file_named in Hnamed.
    change (cstr (after_signature_read w) src) with (cstr w src) in Hname.
    rewrite Hname, Hfile in Hnamed. congruence. }
  exists f, iw, ih. split_and!; auto.
Qed.

Lemma decoder_info_reports_engine_dimensions_witness :
  let run := decoder_info (sample_fs jfif_prefix) (engine_decodes 2 3) sample_decoder 1
               blank_header (sample_world []) in
  match fst (fst run) with
  | LV_RESULT_INVALID => snd (fst run) = blank_header
  | LV_RESULT_OK =>
      exists f iw ih,
        file_named (sample_fs jfif_prefix) (sample_world []) 1 = Some f /\
        (4 <= length (f_bytes f))%nat /\
        IS_JPEG_SIGNATURE (load_u32 (f_bytes f)) = true /\
        on_read_header (engine_decodes 2 3 (file_image f)) = Done (JPEG_HEADER_OK, iw, ih) /\
        snd (fst run) = Header LV_COLOR_FORMAT_RGB888 (wrap32 iw) (wrap32 ih)
  end.
Proof.
  intros run.
  apply (decoder_info_reports_engine_dimensions (sample_fs jfif_prefix) (engine_decodes 2 3)
           sample_decoder 1 blank_header (sample_world [])
           (fst (fst run)) (snd (fst run)) (snd run)).
  vm_compute. reflexivity.
Defined.

(** On a readable file that passes the signature check [decoder_info]
    returns what the header probe decides. *)
Lemma decoder_info_eq
    (fs : string -> option vfile) (jpeg : list byte -> jpeg_image)
    (decoder : lv_image_decoder_t) (src : ptr) (header : lv_image_header_t) (w : world)
    (name : string) (f : vfile) :
  src <> NULL -> cstr w src = Some name -> fs name = Some f ->
  f_read f = LV_FS_RES_OK ->
  (4 <= length (f_bytes f))%nat ->
  IS_JPEG_SIGNATURE (load_u32 (f_bytes f)) = true ->
  decoder_info fs jpeg decoder src header w
  = match get_jpeg_size fs jpeg src (after_signature_read w) with
    | (None, w') => ((LV_RESULT_INVALID, header), w')
    | (Some (width, height), w') =>
        ((LV_RESULT_OK, Header LV_COLOR_FORMAT_RGB888 width height), w')
    end.
Proof.
  intros Hsrc Hname Hfile Hread Hfour Hsig.
  unfold decoder_info, lv_image_src_get_type.
  apply Z.eqb_neq in Hsrc. rewrite Hsrc, Hname.
  unfold lv_fs_open. change (cstr (emit EvFsOpen w) src) with (cstr w src).
  rewrite Hname, Hfile. cbn.
  unfold lv_fs_read. cbn. rewrite Hread. cbn.
  change (Z.to_nat 0) with O. rewrite drop_0.
  rewrite length_take. change (Z.to_nat 4) with 4%nat.
  rewrite Nat.min_l by exact Hfour. cbn.
  rewrite load_u32_take, Hsig. cbn. reflexivity.
Qed.

(** X12: [decoder_info] accepts every readable JPEG. For a file name other
    than the null pointer, a file of at least four bytes that passes the
    signature check and whose driver serves every request, an allocation
    that succeeds and an engine that binds the bytes and reports
    [JPEG_HEADER_OK], the result is [LV_RESULT_OK] with the RGB888 format
    and the 32-bit values of the reported width and height. *)
Theorem decoder_info_accepts_readable_jpeg
    (fs : string -> option vfile) (jpeg : list byte -> jpeg_image)
    (decoder : lv_image_decoder_t) (src : ptr) (header : lv_image_header_t) (w : world)
    (name : string) (f : vfile) (iw ih : Z) :
  src <> NULL -> cstr w src = Some name -> fs name = Some f ->
  f_seek f LV_FS_SEEK_END = LV_FS_RES_OK -> f_tell f = LV_FS_RES_OK ->
  f_seek f LV_FS_SEEK_SET = LV_FS_RES_OK -> f_read f = LV_FS_RES_OK ->
  (4 <= length (f_bytes f))%nat ->
  IS_JPEG_SIGNATURE (load_u32 (f_bytes f)) = true ->
  hd false (oom w) = false -> brk w <> NULL ->
  on_mem_src (jpeg (file_image f)) = Done tt ->
  on_read_header (jpeg (file_image f)) = Done (JPEG_HEADER_OK, iw, ih) ->
  fst (decoder_info fs jpeg decoder src header w)
  = (LV_RESULT_OK, Header LV_COLOR_FORMAT_RGB888 (wrap32 iw) (wrap32 ih)).
Proof.
  intros Hsrc Hname Hfile Hend Htell Hset Hread Hfour Hsig Hoom Hbrk Hmem Hhdr.
  rewrite (decoder_info_eq fs jpeg decoder src header w name f) by assumption.
  pose proof (get_jpeg_size_eq fs jpeg src (after_signature_read w) name f
                JPEG_HEADER_OK iw ih Hname Hfile Hend Htell Hset Hread Hoom Hbrk Hmem Hhdr)
    as Hsize.
  destruct (get_jpeg_size fs jpeg src (after_signature_read w)) as [dims w'].
  cbn in Hsize. subst dims. reflexivity.
Qed.

Lemma decoder_info_accepts_readable_jpeg_witness :
  fst (decoder_info (sample_fs jfif_prefix) (engine_decodes 2 3) sample_decoder 1
         blank_header (sample_world []))
  = (LV_RESULT_OK, Header LV_COLOR_FORMAT_RGB888 (wrap32 2) (wrap32 3)).
Proof.
  apply (decoder_info_accepts_readable_jpeg (sample_fs jfif_prefix) (engine_decodes 2 3)
           sample_decoder 1 blank_header (sample_world []) "A:img.jpg"%string
           (ok_file jfif_prefix) 2 3).
  - discriminate.
  - reflexivity.
  - reflexivity.
  - reflexivity.
  - reflexivity.
  - reflexivity.
  - reflexivity.
  - vm_compute. lia.
  - vm_compute. reflexivity.
  - reflexivity.
  - discriminate.
  - reflexivity.
  - reflexivity.
Defined.

(** ** decoder_open, decoder_close and cache_invalidate_cb *)

#[local] Arguments update_entry : simpl never.

(** Replaying the lock over a log. *)
Lemma replay_lock_app (held : bool) (l1 l2 : list event) :
  replay_lock held (l1 ++ l2)
  = match replay_lock held l1 with
    | Some held' => replay_lock held' l2
    | None => None
    end.
Proof.
  revert held. induction l1 as [|e l1 IH]; intros held; [reflexivity|].
  destruct e, held; cbn; try reflexivity; apply IH.
Qed.

Lemma replay_lock_quiet (l : list event) :
  Forall (fun e => is_cache_lock e = false) l -> replay_lock false l = Some false.
Proof.
  induction 1 as [|e l He _ IH]; [reflexivity|].
  destruct e; cbn in *; try discriminate; exact IH.
Qed.

Lemma replay_lock_bracket (pre dd : list event) :
  Forall (fun e => is_cache_lock e = false) dd ->
  replay_lock false (rev (pre ++ dd ++ [EvCacheUnlock; EvCacheLock]))
  = replay_lock false (rev pre).
Proof.
  intros Hdd. rewrite !rev_app_distr. cbn [rev app replay_lock].
  rewrite replay_lock_app, replay_lock_quiet by (apply Forall_rev; exact Hdd).
  reflexivity.
Qed.

(** X13: [decoder_open] keeps the lock discipline on every path. Replayed
    from a free lock, the events of a call never take the lock while it is
    held nor release it while it is free, no file system or engine call
    happens while it is held (the file is loaded and decoded between the
    lookup and the insertion, outside the lock), and the lock is free when
    the call returns. *)
Theorem decoder_open_lock_discipline
    (fs : string -> option vfile) (jpeg : list byte -> jpeg_image)
    (build : local_after_longjmp)
    (decoder : lv_image_decoder_t) (dsc : lv_image_decoder_dsc_t) (w : world)
    (r : lv_result_t) (dsc' : lv_image_decoder_dsc_t) (w' : world) (d : list event) :
  decoder_open fs jpeg build decoder dsc w = ((r, dsc'), w') ->
  log w' = d ++ log w ->
  replay_lock false (rev d) = Some false.
Proof.
  intros Hopen Hlog. unfold decoder_open in Hopen.
  destruct (try_cache dsc w) as [[hit dsc1] w1] eqn:Htc.
  destruct hit.
  - apply try_cache_miss in Htc as (-> & -> & _).
    destruct (dsc_src_type dsc) eqn:Hty.
    1,3-4: simplify_eq; cbn in Hlog;
      assert (d = [EvCacheUnlock; EvCacheLock]) as ->
        by (eapply app_inv_tail; rewrite <- Hlog; reflexivity);
      reflexivity.
    change (lv_tick_get (lv_cache_unlock (lv_cache_lock w)))
      with (fst (lv_tick_get (lv_cache_unlock (lv_cache_lock w))), before_decode w) in Hopen.
    cbn beta iota in Hopen.
    destruct (decode_jpeg_file fs jpeg build (dsc_src dsc) (Some 0) (before_decode w))
      as [[decoded_img decoded_size] w2] eqn:Hdec.
    apply decode_jpeg_file_no_lock in Hdec as (dd & Hlogd & Hquiet).
    change (log (before_decode w)) with (EvCacheUnlock :: EvCacheLock :: log w) in Hlogd.
    unfold lv_tick_elaps, lv_tick_get in Hopen. cbn in Hopen.
    rewrite lv_cache_add_unfold in Hopen. cbn in Hopen.
    destruct (hd false (oom w2)); cbn in Hopen.
    + simplify_eq. cbn in Hlog. rewrite Hlogd in Hlog.
      assert (d = [EvCacheUnlock; EvCacheLock] ++ dd ++ [EvCacheUnlock; EvCacheLock]) as ->.
      { eapply app_inv_tail. rewrite <- Hlog. cbn. rewrite <- app_assoc. reflexivity. }
      rewrite replay_lock_bracket by exact Hquiet. reflexivity.
    + destruct (brk w2 =? NULL); cbn in Hopen; simplify_eq; cbn in Hlog;
        rewrite Hlogd in Hlog.
      * assert (d = [EvCacheUnlock; EvCacheLock] ++ dd ++ [EvCacheUnlock; EvCacheLock]) as ->.
        { eapply app_inv_tail. rewrite <- Hlog. cbn. rewrite <- app_assoc. reflexivity. }
        rewrite replay_lock_bracket by exact Hquiet. reflexivity.
      * match type of Hlog with
        | EvCacheUnlock :: ?m :: EvCacheLock :: _ = _ =>
            assert (d = [EvCacheUnlock; m; EvCacheLock] ++ dd ++ [EvCacheUnlock; EvCacheLock])
              as ->
        end.
        { eapply app_inv_tail. rewrite <- Hlog. cbn. rewrite <- app_assoc. reflexivity. }
        rewrite replay_lock_bracket by exact Hquiet. reflexivity.
  - apply try_cache_hit in Htc as (_ & _ & _ & _ & _ & _ & _ & _ & Hlog1).
    simplify_eq. rewrite Hlog1 in Hlog.
    assert (d = [EvCacheUnlock; EvCacheLock]) as ->
      by (eapply app_inv_tail; rewrite <- Hlog; reflexivity).
    reflexivity.
Qed.

Lemma decoder_open_lock_discipline_witness :
  replay_lock false (rev (log (snd first_open))) = Some false.
Proof.
  apply (decoder_open_lock_discipline (sample_fs jfif_prefix) (engine_decodes 2 2)
           LastAssigned sample_decoder sample_dsc (sample_world [])
           (fst (fst first_open)) (snd (fst first_open)) (snd first_open)).
  - vm_compute. reflexivity.
  - vm_compute. reflexivity.
Defined.

(** X14: the entry a successful miss of [decoder_open] adds to the cache.
    Its data is the pointer returned by [decode_jpeg_file], which is also
    the [img_data] of the descriptor; its data size and memory usage are
    the value left in [decoded_size]; its type is the data type of the
    decoder; its weight is the tick difference measured around the decode
    (the clock is read exactly twice); its invalidate callback is
    [cache_invalidate_cb]; it has one holder. When the data is not null
    the recorded size is the size of the cached buffer. *)
Theorem decoder_open_publishes_decoded_image
    (fs : string -> option vfile) (jpeg : list byte -> jpeg_image)
    (build : local_after_longjmp)
    (decoder : lv_image_decoder_t) (dsc : lv_image_decoder_dsc_t) (w : world)
    (dsc' : lv_image_decoder_dsc_t) (w' : world) :
  dsc_src_type dsc = LV_IMAGE_SRC_FILE ->
  find_entry w (dsc_src dsc) LV_CACHE_SRC_TYPE_PATH (cache w) = NULL ->
  0 < brk w ->
  decoder_open fs jpeg build decoder dsc w = ((LV_RESULT_OK, dsc'), w') ->
  exists img size w2 e,
    decode_jpeg_file fs jpeg build (dsc_src dsc) (Some 0) (before_decode w)
    = ((img, size), w2) /\
    img_data dsc' = img /\
    entry_at (cache w') (cache_entry dsc') = Some e /\
    e_data e = img /\
    e_data_size e = default 0 size /\ e_memory_usage e = default 0 size /\
    e_data_type e = cache_data_type decoder /\
    e_weight e = decode_ticks w /\
    e_invalidate_cb e = cb_cache_invalidate_cb /\
    e_usage_count e = 1 /\
    clock w' = tail (tail (clock w)) /\
    (img <> NULL -> b_size <$> heap w' !! img = Some (e_data_size e)).
Proof.
  intros Hty Hfind Hbrk Hopen.
  unfold decoder_open in Hopen.
  rewrite (try_cache_miss_eq dsc w Hfind), Hty in Hopen.
  change (lv_tick_get (lv_cache_unlock (lv_cache_lock w)))
    with (fst (lv_tick_get (lv_cache_unlock (lv_cache_lock w))), before_decode w) in Hopen.
  cbn beta iota in Hopen.
  destruct (decode_jpeg_file fs jpeg build (dsc_src dsc) (Some 0) (before_decode w))
    as [[decoded_img decoded_size] w2] eqn:Hdec.
  exists decoded_img, decoded_size, w2.
  apply decode_jpeg_file_spec in Hdec as (_ & Hclk & Hbrk2 & _ & d & _ & _ & Hok).
  change (clock (before_decode w)) with (tail (clock w)) in Hclk.
  change (brk (before_decode w)) with (brk w) in Hbrk2, Hok.
  unfold lv_tick_elaps, lv_tick_get in Hopen. cbn in Hopen.
  rewrite lv_cache_add_unfold in Hopen. cbn in Hopen.
  destruct (hd false (oom w2)) eqn:Hoom; cbn in Hopen; [discriminate|].
  assert (Hnn : (brk w2 =? NULL) = false).
  { apply Z.eqb_neq. unfold NULL. lia. }
  rewrite Hnn in Hopen. cbn in Hopen.
  simplify_eq.
  unfold lv_cache_get_data, set_cache. cbn.
  repeat (rewrite update_entry_cons, Z.eqb_refl). cbn. rewrite ?Z.eqb_refl.
  eexists. split_and!; try reflexivity.
  - cbn. unfold decode_ticks. rewrite Hclk. reflexivity.
  - rewrite Hclk. reflexivity.
  - intros Himg. cbn.
    destruct (Hok Himg) as (_ & _ & _ & _ & data & dsz & bs & rc & iw & ih & ow & oh & oc
                            & _ & _ & _ & _ & _ & _ & _ & -> & Hblock & Hbrk3).
    rewrite lookup_insert_ne by lia. rewrite Hblock. reflexivity.
Qed.

Lemma decoder_open_publishes_decoded_image_witness :
  exists img size w2 e,
    decode_jpeg_file (sample_fs jfif_prefix) (engine_decodes 2 2) LastAssigned
      (dsc_src sample_dsc) (Some 0) (before_decode ticking_world)
    = ((img, size), w2) /\
    img_data (snd (fst (decoder_open (sample_fs jfif_prefix) (engine_decodes 2 2)
                          LastAssigned sample_decoder sample_dsc ticking_world))) = img /\
    entry_at (cache (snd (decoder_open (sample_fs jfif_prefix) (engine_decodes 2 2)
                            LastAssigned sample_decoder sample_dsc ticking_world)))
      (cache_entry (snd (fst (decoder_open (sample_fs jfif_prefix) (engine_decodes 2 2)
                                LastAssigned sample_decoder sample_dsc ticking_world))))
    = Some e /\
    e_data e = img /\
    e_data_size e = default 0 size /\ e_memory_usage e = default 0 size /\
    e_data_type e = cache_data_type sample_decoder /\
    e_weight e = decode_ticks ticking_world /\
    e_invalidate_cb e = cb_cache_invalidate_cb /\
    e_usage_count e = 1 /\
    clock (snd (decoder_open (sample_fs jfif_prefix) (engine_decodes 2 2)
                  LastAssigned sample_decoder sample_dsc ticking_world))
    = tail (tail (clock ticking_world)) /\
    (img <> NULL ->
     b_size <$> heap (snd (decoder_open (sample_fs jfif_prefix) (engine_decodes 2 2)
                             LastAssigned sample_decoder sample_dsc ticking_world)) !! img
     = Some (e_data_size e)).
Proof.
  apply (decoder_open_publishes_decoded_image (sample_fs jfif_prefix) (engine_decodes 2 2)
           LastAssigned sample_decoder sample_dsc ticking_world).
  - reflexivity.
  - reflexivity.
  - reflexivity.
  - vm_compute. reflexivity.
Defined.

(** Releasing a reference after taking one restores the index. *)
Lemma update_entry_undo (a : ptr) (l : list (ptr * lv_cache_entry_t)) :
  update_entry a (add_usage (-1)) (update_entry a (add_usage 1) l) = l.
Proof.
  induction l as [|[c e] l IH]; [reflexivity|].
  rewrite update_entry_cons. destruct (c =? a) eqn:Hc.
  - rewrite update_entry_cons, Hc, IH. destruct e. unfold add_usage. cbn.
    do 2 f_equal. f_equal. lia.
  - rewrite update_entry_cons, Hc, IH. reflexivity.
Qed.

(** X15: [decoder_close] undoes a cache hit. After a [decoder_open] that
    found the path in the cache, which has raised the reference count of
    the entry by one, [decoder_close] on the returned descriptor leaves the
    cache exactly as it was before the open; neither call changes the
    heap, and together they record only two lock/unlock pairs. *)
Theorem decoder_close_undoes_cache_hit
    (fs : string -> option vfile) (jpeg : list byte -> jpeg_image)
    (build : local_after_longjmp)
    (decoder : lv_image_decoder_t) (dsc : lv_image_decoder_dsc_t) (w : world)
    (dsc' : lv_image_decoder_dsc_t) (w1 : world) :
  find_entry w (dsc_src dsc) LV_CACHE_SRC_TYPE_PATH (cache w) <> NULL ->
  decoder_open fs jpeg build decoder dsc w = ((LV_RESULT_OK, dsc'), w1) ->
  (exists e,
     entry_at (cache w) (cache_entry dsc') = Some e /\
     entry_at (cache w1) (cache_entry dsc') = Some (add_usage 1 e)) /\
  cache (decoder_close decoder dsc' w1) = cache w /\
  heap (decoder_close decoder dsc' w1) = heap w /\
  log (decoder_close decoder dsc' w1)
  = [EvCacheUnlock; EvCacheLock; EvCacheUnlock; EvCacheLock] ++ log w.
Proof.
  intros Hfind Hopen. unfold decoder_open in Hopen.
  destruct (try_cache dsc w) as [[hit dsc1] w2] eqn:Htc.
  destruct hit.
  - apply try_cache_miss in Htc as (-> & -> & Hmiss).
    destruct (dsc_src_type dsc) eqn:Hty; try discriminate.
    exfalso. apply Hfind. apply Hmiss. reflexivity.
  - simplify_eq.
    apply try_cache_hit in Htc
      as (_ & _ & (e & He & ->) & Hcache & Hheap & _ & _ & _ & Hlog).
    cbn [cache_entry].
    split_and!.
    + exists e. split; [exact He|]. rewrite Hcache, entry_at_update, Z.eqb_refl, He.
      reflexivity.
    + unfold decoder_close, lv_cache_release, lv_cache_lock, lv_cache_unlock. cbn.
      rewrite Hcache. apply update_entry_undo.
    + exact Hheap.
    + unfold decoder_close, lv_cache_release, lv_cache_lock, lv_cache_unlock. cbn.
      rewrite Hlog. reflexivity.
Qed.

Lemma decoder_close_undoes_cache_hit_witness :
  let again := decoder_open (sample_fs jfif_prefix) (engine_decodes 2 2) LastAssigned
                 sample_decoder sample_dsc (snd first_open) in
  (exists e,
     entry_at (cache (snd first_open)) (cache_entry (snd (fst again))) = Some e /\
     entry_at (cache (snd again)) (cache_entry (snd (fst again))) = Some (add_usage 1 e)) /\
  cache (decoder_close sample_decoder (snd (fst again)) (snd again)) = cache (snd first_open) /\
  heap (decoder_close sample_decoder (snd (fst again)) (snd again)) = heap (snd first_open) /\
  log (decoder_close sample_decoder (snd (fst again)) (snd again))
  = [EvCacheUnlock; EvCacheLock; EvCacheUnlock; EvCacheLock] ++ log (snd first_open).
Proof.
  intros again.
  apply (decoder_close_undoes_cache_hit (sample_fs jfif_prefix) (engine_decodes 2 2)
           LastAssigned sample_decoder sample_dsc (snd first_open)
           (snd (fst again)) (snd again)).
  - vm_compute. discriminate.
  - vm_compute. reflexivity.
Defined.

(** X16: the invalidate callback releases what the open allocated. After a
    [decoder_open] that missed the cache, decoded the file and returned a
    buffer, the new entry carries [cache_invalidate_cb]; calling it on
    that entry frees the copy of the path and the pixel buffer, both still
    allocated, and leaves the heap as it was before the open. *)
Theorem invalidate_releases_what_open_allocated
    (fs : string -> option vfile) (jpeg : list byte -> jpeg_image)
    (build : local_after_longjmp)
    (decoder : lv_image_decoder_t) (dsc : lv_image_decoder_dsc_t) (w : world)
    (dsc' : lv_image_decoder_dsc_t) (w' : world) :
  allocator_fresh w ->
  dsc_src_type dsc = LV_IMAGE_SRC_FILE ->
  find_entry w (dsc_src dsc) LV_CACHE_SRC_TYPE_PATH (cache w) = NULL ->
  decoder_open fs jpeg build decoder dsc w = ((LV_RESULT_OK, dsc'), w') ->
  img_data dsc' <> NULL ->
  exists e,
    entry_at (cache w') (cache_entry dsc') = Some e /\
    e_invalidate_cb e = cb_cache_invalidate_cb /\
    e_data e = img_data dsc' /\
    is_Some (heap w' !! e_data e) /\ is_Some (heap w' !! e_src e) /\
    heap (cache_invalidate_cb e w') = heap w /\
    log (cache_invalidate_cb e w') = [EvFree (e_data e); EvFree (e_src e)] ++ log w'.
Proof.
  intros Hfresh Hty Hfind Hopen Himg.
  pose proof Hfresh as (Hnull0 & Hpos & Hunused).
  destruct (decoder_open_miss_spec fs jpeg build decoder dsc w _ _ _ Hty Hfind Hpos Hopen)
    as (img & sz & w2 & Hdec & Hcases).
  destruct Hcases as [(? & _)
                     |(_ & _ & weight & n & rest & -> & Hcache & _ & Hheap & _)];
    [discriminate|].
  cbn in Himg |- *.
  pose proof Hdec as Hspec.
  apply decode_jpeg_file_effects in Hdec; [|exact Hfresh].
  destruct Hdec as (d & _ & _ & _ & _ & _ & _ & _ & Hok & _).
  destruct (Hok Himg) as (f & ow & oh & oc & _ & _ & Hheap2 & _).
  change (heap (before_decode w)) with (heap w) in Hheap2.
  apply decode_jpeg_file_spec in Hspec as (_ & _ & _ & _ & d' & _ & _ & Hok').
  destruct (Hok' Himg) as (_ & _ & _ & Hr & data & dsz & bs & rc & iw & ih & ow' & oh' & oc'
                           & _ & _ & _ & _ & _ & _ & _ & _ & _ & Hbrk2).
  change (brk (before_decode w)) with (brk w) in Hr, Hbrk2.
  rewrite Hcache. cbn. rewrite Z.eqb_refl.
  eexists. split; [reflexivity|]. cbn.
  split_and!; try reflexivity.
  - rewrite Hheap, lookup_insert_ne by lia. rewrite Hheap2, Hr, lookup_insert_eq. eauto.
  - rewrite Hheap, lookup_insert_eq. eauto.
  - rewrite Hheap, Hheap2. apply map_eq. intros q.
    destruct (decide (q = img)) as [->|Hq1].
    + rewrite lookup_delete_eq. symmetry. apply Hunused. lia.
    + rewrite lookup_delete_ne by congruence.
      destruct (decide (q = brk w2 + 1)) as [->|Hq2].
      * rewrite lookup_delete_eq. symmetry. apply Hunused. lia.
      * rewrite lookup_delete_ne, !lookup_insert_ne by congruence. reflexivity.
Qed.

Lemma invalidate_releases_what_open_allocated_witness :
  exists e,
    entry_at (cache (snd first_open)) (cache_entry (snd (fst first_open))) = Some e /\
    e_invalidate_cb e = cb_cache_invalidate_cb /\
    e_data e = img_data (snd (fst first_open)) /\
    is_Some (heap (snd first_open) !! e_data e) /\
    is_Some (heap (snd first_open) !! e_src e) /\
    heap (cache_invalidate_cb e (snd first_open)) = heap (sample_world []) /\
    log (cache_invalidate_cb e (snd first_open))
    = [EvFree (e_data e); EvFree (e_src e)] ++ log (snd first_open).
Proof.
  apply (invalidate_releases_what_open_allocated (sample_fs jfif_prefix) (engine_decodes 2 2)
           LastAssigned sample_decoder sample_dsc (sample_world [])
           (snd (fst first_open)) (snd first_open)).
  - apply sample_world_fresh.
  - reflexivity.
  - reflexivity.
  - vm_compute. reflexivity.
  - vm_compute. discriminate.
Defined.
